(** * Task manager backend: auth gate and per-user task routes

    A shallow embedding of [backend/middleware/authMiddleware.js]
    ([protect], [generateToken]), of the Mongoose model
    [backend/models/Task.js] and of the Express router
    [backend/routes/taskRoutes.js], followed by the properties of the
    specification that concern them.

    Conventions.
    - JavaScript strings are [string]s of ASCII characters; [undefined] is
      [None].  A JSON request body is taken at its typed contract: string
      fields for title, description, status and priority, a whole number
      of epoch milliseconds or [null] for dueDate (a date sent as a string
      stands for the instant it denotes); such a number may lie outside
      the range of [Date], and the cast to a date then fails.
    - An ObjectId is a number ([N]); a collection is a finite map keyed by
      [_id], Mongo's unique primary index.
    - [Date.now()] is an explicit argument [now] (epoch milliseconds).
    - A promise that rejects / a [throw] is the [Throw] branch of [result];
      [try { ... } catch (error) { ... }] is a match on it.
    - The packages the code calls (jsonwebtoken, express-validator,
      mongoose) are modelled by the behaviour their documentation gives
      for the calls made here; each model says so where it is defined. *)

From Stdlib Require Import ZArith NArith String Ascii List Lia.
From Stdlib Require Import Decimal DecimalString DecimalPos DecimalN DecimalZ.
From Stdlib Require Import OrderedTypeEx.
From stdpp Require Import base option list gmap sorting strings.

Local Open Scope string_scope.

(* ===================================================================== *)
(** ** JavaScript values and strings *)
(* ===================================================================== *)

(** A thrown JavaScript error: [error.name] and [error.message]. *)
Module Err.
Record t := mk { name : string; message : string }.
End Err.

(** Outcome of a computation that may throw. *)
Inductive result (A : Type) : Type :=
| Ok (a : A)
| Throw (e : Err.t).
Arguments Ok {A} a.
Arguments Throw {A} e.

Definition bind {A B} (r : result A) (k : A -> result B) : result B :=
  match r with
  | Ok a => k a
  | Throw e => Throw e
  end.

Notation "x <- r ;; k" := (bind r (fun x => k))
  (at level 100, r at next level, right associativity).

(** Truthiness of a string-or-undefined value: [undefined] and the empty
    string are falsy. *)
Definition truthy (v : option string) : bool :=
  match v with
  | None => false
  | Some EmptyString => false
  | Some (String _ _) => true
  end.

(** [s.startsWith(p)]. *)
Definition startsWith (s p : string) : bool := String.prefix p s.

(** [s.split(sep)] for a one-character separator: every occurrence of the
    separator cuts; the empty string gives one empty piece. *)
Fixpoint split (sep : ascii) (s : string) : list string :=
  match s with
  | EmptyString => [EmptyString]
  | String c r =>
      if Ascii.eqb c sep then EmptyString :: split sep r
      else match split sep r with
           | h :: t => String c h :: t
           | [] => [String c EmptyString]
           end
  end.

(** White space as [\s] sees it on ASCII: tab, line feed, vertical tab,
    form feed, carriage return, space. *)
Definition is_space (c : ascii) : bool :=
  let n := nat_of_ascii c in
  (Nat.eqb n 32 || (Nat.leb 9 n && Nat.leb n 13))%bool.

Fixpoint ltrim (s : string) : string :=
  match s with
  | EmptyString => EmptyString
  | String c r => if is_space c then ltrim r else s
  end.

Fixpoint rtrim (s : string) : string :=
  match s with
  | EmptyString => EmptyString
  | String c r =>
      match rtrim r with
      | EmptyString => if is_space c then EmptyString else String c EmptyString
      | r' => String c r'
      end
  end.

(** [trim] of validator.js (the sanitizer behind express-validator's
    [.trim()]) and [String.prototype.trim] (Mongoose's [trim: true]):
    [rtrim(ltrim(str))]. *)
Definition trim (s : string) : string := rtrim (ltrim s).

(** [toString(value)] of express-validator on a string-or-undefined
    field: [undefined] becomes the empty string. *)
Definition toString (v : option string) : string :=
  match v with
  | Some s => s
  | None => EmptyString
  end.

(** A double quote, for the messages that quote a value. *)
Definition dquote : string := String (ascii_of_nat 34) EmptyString.

(** [new Date(v)] for a number [v] of milliseconds: a time value further
    than 8.64e15 from the epoch has no [Date]; the result is then an
    invalid date, here [None]. *)
Definition max_time : Z := 8640000000000000.

Definition new_Date (v : Z) : option Z :=
  if (Z.abs v <=? max_time)%Z then Some v else None.

(** Decimal numerals, of a natural number and of an integer. *)
Definition dec (n : N) : string := NilZero.string_of_uint (N.to_uint n).

Definition undec (s : string) : option N :=
  option_map N.of_uint (NilZero.uint_of_string s).

Definition decZ (z : Z) : string := NilZero.string_of_int (Z.to_int z).

Definition undecZ (s : string) : option Z :=
  option_map Z.of_int (NilZero.int_of_string s).

(* ===================================================================== *)
(** ** Process environment *)
(* ===================================================================== *)

(** [process.env.JWT_SECRET] and the keyed hash jsonwebtoken signs with
    (HS256).  The hash is a parameter: nothing below depends on which
    function it is. *)
Class Env := {
  JWT_SECRET : string;
  hmac : string -> string -> N
}.

(* ===================================================================== *)
(** ** jsonwebtoken *)
(* ===================================================================== *)

Module jwt.

(** The claims [generateToken] puts in a token: [{ id }], to which
    [sign] adds [iat] and [exp] (seconds since the epoch). *)
Record payload := mkPayload { id : N; iat : Z; exp : Z }.

Definition header : string := "HS256".

(** Modelled from the spec: the token service's encoding (the
    jsonwebtoken package, an external dependency).  A compact token is
    [header.payload.signature]; the payload segment carries the user
    identifier and the two timestamps, here as decimal numerals
    separated by commas in place of base64url JSON. *)
Definition encode_payload (p : payload) : string :=
  dec (id p) +:+ "," +:+ decZ (iat p) +:+ "," +:+ decZ (exp p).

Definition decode_payload (s : string) : option payload :=
  match split "," s with
  | [a; b; c] =>
      match undec a, undecZ b, undecZ c with
      | Some i, Some t0, Some t1 => Some (mkPayload i t0 t1)
      | _, _, _ => None
      end
  | _ => None
  end.

Definition JsonWebTokenError (msg : string) : Err.t :=
  Err.mk "JsonWebTokenError" msg.
Definition TokenExpiredError (msg : string) : Err.t :=
  Err.mk "TokenExpiredError" msg.

(** [ms('30d') / 1000]: thirty days in seconds. *)
Definition thirty_days : Z := 30 * 24 * 60 * 60.

Section WithEnv.
Context `{Env}.

Definition signature (key signing_input : string) : string :=
  dec (hmac key signing_input).

(** Modelled from the spec: [jwt.sign({ id }, secret, { expiresIn:
    '30d' })] at time [now]: issued-at is the current second, the
    expiration is thirty days later, and the signature covers header
    and payload. *)
Definition sign (uid : N) (secret : string) (now : Z) : string :=
  let t := (now / 1000)%Z in
  let p := mkPayload uid t (t + thirty_days) in
  let input := header +:+ "." +:+ encode_payload p in
  input +:+ "." +:+ signature secret input.

(** Modelled from the spec: [jwt.verify(token, secret)] at time
    [now].  In order: a missing token, a token that is not three
    dot-separated segments, an undecodable payload and a signature
    that does not match all throw [JsonWebTokenError]; a token whose
    expiration is not after the current second throws
    [TokenExpiredError]; otherwise the payload is returned. *)
Definition verify (token : option string) (secret : string) (now : Z)
  : result payload :=
  match token with
  | None | Some EmptyString =>
      Throw (JsonWebTokenError "jwt must be provided")
  | Some tok =>
      match split "." tok with
      | [h; p; s] =>
          match decode_payload p with
          | None => Throw (JsonWebTokenError "invalid token")
          | Some pl =>
              if negb (String.eqb s (signature secret (h +:+ "." +:+ p)))
              then Throw (JsonWebTokenError "invalid signature")
              else if (exp pl <=? now / 1000)%Z
              then Throw (TokenExpiredError "jwt expired")
              else Ok pl
          end
      | _ => Throw (JsonWebTokenError "jwt malformed")
      end
  end.
End WithEnv.

End jwt.

(* ===================================================================== *)
(** ** backend/models/Task.js *)
(* ===================================================================== *)

(** A task document, with the paths of [taskSchema]. *)
Module Task.
Record t := mk {
  _id : N;
  title : string;
  description : option string;
  status : string;
  priority : string;
  dueDate : option Z;
  user : N;
  createdAt : Z;
  updatedAt : Z
}.
End Task.

(** Modelled from the spec: a user document of [backend/models/User.js],
    whose source is not at hand: a name, a unique email and the password
    hash. *)
Module User.
Record t := mk {
  _id : N;
  name : string;
  email : string;
  password : option string
}.

(** [.select('-password')]. *)
Definition without_password (u : t) : t :=
  mk (_id u) (name u) (email u) None.
End User.

(** The database behind the two models.  When [fault] holds an error the
    connection is broken and every query rejects with it. *)
Record Db := mkDb {
  tasks : gmap N Task.t;
  users : gmap N User.t;
  fault : option Err.t
}.

Definition with_tasks (db : Db) (m : gmap N Task.t) : Db :=
  mkDb m (users db) (fault db).

(** Every query starts with a round trip to the server. *)
Definition roundtrip (db : Db) : result unit :=
  match fault db with
  | Some e => Throw e
  | None => Ok tt
  end.

(** The enumerations of the schema (and of the route validators). *)
Definition statuses : list string := ["pending"; "in-progress"; "completed"].
Definition priorities : list string := ["low"; "medium"; "high"].

(** [isIn(values)] / a schema [enum]: membership. *)
Definition isIn (values : list string) (s : string) : bool :=
  existsb (String.eqb s) values.

(** [isLength({ min, max })]. *)
Definition isLength (min max : nat) (s : string) : bool :=
  (Nat.leb min (String.length s) && Nat.leb (String.length s) max)%bool.

(** The validators of the schema on a document: the messages of the paths
    that fail, in schema order.  [user] is always present in a [Task.t],
    so its [required] cannot fail. *)
Definition schema_errors (d : Task.t) : list (string * string) :=
  (match Task.title d with
   | EmptyString => [("title", "Task title is required")]
   | s =>
       if negb (Nat.leb 3 (String.length s))
       then [("title", "Title must be at least 3 characters")]
       else if negb (Nat.leb (String.length s) 100)
       then [("title", "Title cannot exceed 100 characters")]
       else []
   end) ++
  (match Task.description d with
   | Some s =>
       if negb (Nat.leb (String.length s) 500)
       then [("description", "Description cannot exceed 500 characters")]
       else []
   | None => []
   end) ++
  (if isIn statuses (Task.status d) then []
   else [("status", "`" +:+ Task.status d +:+
                    "` is not a valid enum value for path `status`.")]) ++
  (if isIn priorities (Task.priority d) then []
   else [("priority", "`" +:+ Task.priority d +:+
                      "` is not a valid enum value for path `priority`.")]).

Fixpoint join_errors (l : list (string * string)) : string :=
  match l with
  | [] => EmptyString
  | [(p, m)] => p +:+ ": " +:+ m
  | (p, m) :: r => p +:+ ": " +:+ m +:+ ", " +:+ join_errors r
  end.

(** Validation of a document, run by [create] and [save].  [invalid]
    holds the errors recorded on the document when a value could not be
    cast to the type of its path; the validators of the schema add
    theirs, and any error rejects with one [ValidationError] whose
    message lists them all. *)
Definition validate (invalid : list (string * string)) (d : Task.t)
  : result unit :=
  match (invalid ++ schema_errors d)%list with
  | [] => Ok tt
  | l => Throw (Err.mk "ValidationError"
                       ("Task validation failed: " +:+ join_errors l))
  end.

(** A query filter on the paths other than [_id], such as [{ user: ...,
    status: ... }]: the paths present must be equal in the document. *)
Record Filter := mkFilter {
  f_user : option N;
  f_status : option string;
  f_priority : option string
}.

Definition eq_if {A} (eqb : A -> A -> bool) (want : option A) (have : A) : bool :=
  match want with
  | Some w => eqb w have
  | None => true
  end.

Definition matches (q : Filter) (d : Task.t) : bool :=
  (eq_if N.eqb (f_user q) (Task.user d) &&
   eq_if String.eqb (f_status q) (Task.status d) &&
   eq_if String.eqb (f_priority q) (Task.priority d))%bool.

(** A sort specification [{ path: 1 }] or [{ path: -1 }]. *)
Inductive SortPath := ByCreatedAt | ByTitle | ByDueDate.
Record SortOption := mkSort { path : SortPath; direction : Z }.

(** Mongo's order on a date-or-missing value: a missing value sorts
    before every date. *)
Definition date_leb (a b : option Z) : bool :=
  match a, b with
  | None, _ => true
  | Some _, None => false
  | Some x, Some y => (x <=? y)%Z
  end.

(** Order of two documents on one path, ascending: dates by instant,
    strings by simple binary comparison. *)
Definition path_leb (p : SortPath) (a b : Task.t) : bool :=
  match p with
  | ByCreatedAt => (Task.createdAt a <=? Task.createdAt b)%Z
  | ByTitle => String.leb (Task.title a) (Task.title b)
  | ByDueDate => date_leb (Task.dueDate a) (Task.dueDate b)
  end.

Definition sort_rel (o : SortOption) (a b : Task.t) : Prop :=
  if (direction o <? 0)%Z then path_leb (path o) b a = true
  else path_leb (path o) a b = true.

#[global] Instance sort_rel_dec o a b : Decision (sort_rel o a b).
Proof. unfold sort_rel. destruct (direction o <? 0)%Z; apply _. Defined.

(** The documents of the collection, in the order the server scans
    them. *)
Definition documents (db : Db) : list Task.t :=
  (map_to_list (tasks db)).*2.

(** [Task.find(query).sort(sortOption)]. *)
Definition find_sorted (db : Db) (q : Filter) (o : SortOption)
  : result (list Task.t) :=
  _ <- roundtrip db ;;
  Ok (merge_sort (sort_rel o) (List.filter (matches q) (documents db))).

(** [Task.findOne({ _id: id, user: uid })]: the document the primary
    index has for [id], if the rest of the filter accepts it. *)
Definition findOne (db : Db) (id uid : N) : result (option Task.t) :=
  _ <- roundtrip db ;;
  Ok (match tasks db !! id with
      | Some d => if matches (mkFilter (Some uid) None None) d
                  then Some d else None
      | None => None
      end).

(** [Task.findOneAndDelete({ _id: id, user: uid })]: removes the document
    it finds and returns it as it was. *)
Definition findOneAndDelete (db : Db) (id uid : N)
  : result (option Task.t * Db) :=
  found <- findOne db id uid ;;
  Ok (match found with
      | Some d => (Some d, with_tasks db (delete id (tasks db)))
      | None => (None, db)
      end).

(** What a caller hands to [Task.create]. *)
Record NewTask := mkNew {
  n_title : option string;
  n_description : option string;
  n_status : string;
  n_priority : string;
  n_dueDate : option (option Z);
  n_user : N
}.

(** The error of a number that cannot be cast to the type [Date] of the
    path [dueDate]. *)
Definition CastError (value : Z) : Err.t :=
  Err.mk "CastError"
         ("Cast to date failed for value " +:+ dquote +:+ decZ value +:+
          dquote +:+ " (type number) at path " +:+ dquote +:+ "dueDate" +:+
          dquote).

(** The cast of the path [dueDate], of type [Date]: [null] and
    [undefined] are no date; a number [v] is [new Date(v)], and an invalid
    date is a [CastError]. *)
Definition cast_dueDate (v : option (option Z)) : result (option Z) :=
  match v with
  | Some (Some t) =>
      match new_Date t with
      | Some d => Ok (Some d)
      | None => Throw (CastError t)
      end
  | _ => Ok None
  end.

(** Casting and setters of the schema when a document is built: [trim:
    true] on title and description; an absent title stays absent (the
    empty string stands for it, [required] rejects both); a due date that
    cannot be cast is left unset and the error is recorded on the
    document. *)
Definition build (oid : N) (now : Z) (n : NewTask)
  : Task.t * list (string * string) :=
  let '(due, invalid) :=
    match cast_dueDate (n_dueDate n) with
    | Ok d => (d, [])
    | Throw e => (None, [("dueDate", Err.message e)])
    end in
  (Task.mk oid
           (trim (toString (n_title n)))
           (option_map trim (n_description n))
           (n_status n) (n_priority n)
           due
           (n_user n) now now,
   invalid).

(** [Task.create(fields)]: builds the document with a fresh ObjectId
    [oid] (generated by the driver) and both timestamps at [now],
    validates it, and inserts it; the server rejects a duplicate key. *)
Definition create (db : Db) (oid : N) (now : Z) (n : NewTask)
  : result (Task.t * Db) :=
  let '(d, invalid) := build oid now n in
  _ <- validate invalid d ;;
  _ <- roundtrip db ;;
  match tasks db !! oid with
  | Some _ => Throw (Err.mk "MongoServerError"
                            "E11000 duplicate key error collection: tasks")
  | None => Ok (d, with_tasks db (<[oid := d]> (tasks db)))
  end.

(** [taskSchema.pre('save')]: [this.updatedAt = Date.now()]. *)
Definition pre_save (now : Z) (d : Task.t) : Task.t :=
  Task.mk (Task._id d) (Task.title d) (Task.description d) (Task.status d)
          (Task.priority d) (Task.dueDate d) (Task.user d)
          (Task.createdAt d) now.

(** [task.save()] on a document that was loaded from the collection and
    on which the errors [invalid] were recorded since: the pre-save hook,
    validation, then the write. *)
Definition save (db : Db) (now : Z) (invalid : list (string * string))
    (d : Task.t) : result (Task.t * Db) :=
  let d' := pre_save now d in
  _ <- validate invalid d' ;;
  _ <- roundtrip db ;;
  Ok (d', with_tasks db (<[Task._id d' := d']> (tasks db))).

(** [taskSchema.statics.getTasksByUser]. *)
Definition getTasksByUser (db : Db) (userId : N)
    (status priority : option string) : result (list Task.t) :=
  let query := mkFilter (Some userId) None None in
  let query := if truthy status
               then mkFilter (f_user query) status (f_priority query)
               else query in
  let query := if truthy priority
               then mkFilter (f_user query) (f_status query) priority
               else query in
  find_sorted db query (mkSort ByCreatedAt (-1)).

(** Modelled from the spec: [User.findById(id).select('-password')] of
    the credential store (the User model's source is not at hand): the user
    with that identifier, or none. *)
Definition findById (db : Db) (id : N) : result (option User.t) :=
  _ <- roundtrip db ;;
  Ok (User.without_password <$> users db !! id).

(* ===================================================================== *)
(** ** express-validator *)
(* ===================================================================== *)

(** [req.body] of the task routes.  [user] is not a field the routes
    read; it is here so that a client can send it. *)
Module Body.
Record t := mk {
  title : option string;
  description : option string;
  status : option string;
  priority : option string;
  dueDate : option (option Z);
  user : option N
}.
End Body.

(** The body fields the validation chains name. *)
Inductive Field := Title | Description | Status | Priority.

Definition field_name (f : Field) : string :=
  match f with
  | Title => "title"
  | Description => "description"
  | Status => "status"
  | Priority => "priority"
  end.

Definition get_field (b : Body.t) (f : Field) : option string :=
  match f with
  | Title => Body.title b
  | Description => Body.description b
  | Status => Body.status b
  | Priority => Body.priority b
  end.

Definition set_field (b : Body.t) (f : Field) (v : option string) : Body.t :=
  match f with
  | Title =>
      Body.mk v (Body.description b) (Body.status b) (Body.priority b)
              (Body.dueDate b) (Body.user b)
  | Description =>
      Body.mk (Body.title b) v (Body.status b) (Body.priority b)
              (Body.dueDate b) (Body.user b)
  | Status =>
      Body.mk (Body.title b) (Body.description b) v (Body.priority b)
              (Body.dueDate b) (Body.user b)
  | Priority =>
      Body.mk (Body.title b) (Body.description b) (Body.status b) v
              (Body.dueDate b) (Body.user b)
  end.

(** One entry of [errors.array()]. *)
Module VError.
Record t := mk { value : option string; msg : string; param : string }.
End VError.

(** A chain [body(field)[.optional()][.trim()].validator.withMessage(msg)]. *)
Record Chain := mkChain {
  field : Field;
  optional : bool;
  trims : bool;
  validator : string -> bool;
  withMessage : string
}.

(** Running one chain on the body.  [.optional()] skips the rest of the
    chain when the field is [undefined]; [.trim()] replaces the field in
    the body by its trimmed string; the validator sees the string of the
    current value and, when it fails, one error is recorded. *)
Definition run_chain (c : Chain) (b : Body.t) : Body.t * list VError.t :=
  match get_field b (field c) with
  | None =>
      if optional c then (b, [])
      else
        let s := if trims c then trim EmptyString else EmptyString in
        let b' := if trims c then set_field b (field c) (Some s) else b in
        (b', if validator c s then []
             else [VError.mk (get_field b' (field c)) (withMessage c)
                             (field_name (field c))])
  | Some v =>
      let s := if trims c then trim v else v in
      let b' := if trims c then set_field b (field c) (Some s) else b in
      (b', if validator c s then []
           else [VError.mk (Some s) (withMessage c) (field_name (field c))])
  end.

(** The chains of a route run in order; [validationResult(req).array()]
    is the concatenation of their errors. *)
Fixpoint run_chains (cs : list Chain) (b : Body.t) : Body.t * list VError.t :=
  match cs with
  | [] => (b, [])
  | c :: r =>
      let '(b1, e1) := run_chain c b in
      let '(b2, e2) := run_chains r b1 in
      (b2, (e1 ++ e2)%list)
  end.

(* ===================================================================== *)
(** ** Responses *)
(* ===================================================================== *)

(** [res.status(code).json({ success, message, count, data, error,
    errors })]; a key that is not sent is [None]. *)
Module Res.
Inductive data :=
| NoData
| OneTask (task : Task.t)
| Tasks (tasks : list Task.t).

Record t := mk {
  status : Z;
  success : bool;
  message : option string;
  count : option nat;
  payload : data;
  error : option string;
  errors : option (list VError.t)
}.

Definition failure (code : Z) (m : string) : t :=
  mk code false (Some m) None NoData None None.
End Res.

(* ===================================================================== *)
(** ** backend/middleware/authMiddleware.js *)
(* ===================================================================== *)

Section Middleware.
Context `{Env}.

(** [generateToken(id)] at time [now]. *)
Definition generateToken (id : N) (now : Z) : string :=
  jwt.sign id JWT_SECRET now.

(** [protect(req, res, next)]: the left branch is the response it sends,
    the right branch is [req.user] as handed on by [next()]. *)
Definition protect (db : Db) (now : Z) (authorization : option string)
  : Res.t + User.t :=
  match
    (if (truthy authorization &&
         startsWith (toString authorization) "Bearer")%bool
     then
       let token := split " " (toString authorization) !! 1%nat in
       decoded <- jwt.verify token JWT_SECRET now ;;
       user <- findById db (jwt.id decoded) ;;
       match user with
       | None => Ok (inl (Res.failure 401 "User not found"))
       | Some u => Ok (inr u)
       end
     else Ok (inl (Res.failure 401 "Not authorized, no token provided")))
  with
  | Ok r => r
  | Throw error =>
      if String.eqb (Err.name error) "JsonWebTokenError"
      then inl (Res.failure 401 "Invalid token")
      else if String.eqb (Err.name error) "TokenExpiredError"
      then inl (Res.failure 401 "Token expired")
      else inl (Res.failure 401 "Not authorized, token failed")
  end.

(** [router.use(protect)]: a handler runs only behind the gate. *)
Definition protected (handler : User.t -> Res.t * Db)
    (db : Db) (now : Z) (authorization : option string) : Res.t * Db :=
  match protect db now authorization with
  | inl res => (res, db)
  | inr user => handler user
  end.

End Middleware.

(* ===================================================================== *)
(** ** backend/routes/taskRoutes.js *)
(* ===================================================================== *)

(** The [catch] block of every task route. *)
Definition storage_failure (m : string) (error : Err.t) : Res.t :=
  Res.mk 500 false (Some m) None Res.NoData (Some (Err.message error)) None.

Definition not_found : Res.t := Res.failure 404 "Task not found".

Definition validation_failed (errors : list VError.t) : Res.t :=
  Res.mk 400 false (Some "Validation failed") None Res.NoData None
         (Some errors).

(** [GET /api/tasks]. *)
Definition GET_tasks (db : Db) (user : User.t)
    (status priority sort : option string) : Res.t :=
  let query := mkFilter (Some (User._id user)) None None in
  let query := if truthy status
               then mkFilter (f_user query) status (f_priority query)
               else query in
  let query := if truthy priority
               then mkFilter (f_user query) (f_status query) priority
               else query in
  let sortOption :=
    match sort with
    | Some "oldest" => mkSort ByCreatedAt 1
    | Some "title" => mkSort ByTitle 1
    | Some "dueDate" => mkSort ByDueDate 1
    | _ => mkSort ByCreatedAt (-1)
    end in
  match find_sorted db query sortOption with
  | Ok tasks =>
      Res.mk 200 true None (Some (length tasks)) (Res.Tasks tasks) None None
  | Throw error => storage_failure "Error fetching tasks" error
  end.

(** [GET /api/tasks/:id]. *)
Definition GET_task (db : Db) (user : User.t) (id : N) : Res.t :=
  match findOne db id (User._id user) with
  | Ok None => not_found
  | Ok (Some task) =>
      Res.mk 200 true None None (Res.OneTask task) None None
  | Throw error => storage_failure "Error fetching task" error
  end.

Definition create_chains : list Chain :=
  [ mkChain Title false true (isLength 3 100)
            "Title must be between 3 and 100 characters";
    mkChain Description true true (isLength 0 500)
            "Description cannot exceed 500 characters";
    mkChain Status true false (isIn statuses) "Invalid status";
    mkChain Priority true false (isIn priorities) "Invalid priority" ].

(** [a || b] on strings. *)
Definition or_default (a : option string) (b : string) : string :=
  if truthy a then toString a else b.

(** [POST /api/tasks]; [oid] is the ObjectId the driver generates. *)
Definition POST_task (db : Db) (oid : N) (now : Z) (user : User.t)
    (body : Body.t) : Res.t * Db :=
  let '(body, errors) := run_chains create_chains body in
  match errors with
  | _ :: _ => (validation_failed errors, db)
  | [] =>
      match
        create db oid now
               (mkNew (Body.title body) (Body.description body)
                      (or_default (Body.status body) "pending")
                      (or_default (Body.priority body) "medium")
                      (Body.dueDate body) (User._id user))
      with
      | Ok (task, db') =>
          (Res.mk 201 true (Some "Task created successfully") None
                  (Res.OneTask task) None None, db')
      | Throw error => (storage_failure "Error creating task" error, db)
      end
  end.

Definition update_chains : list Chain :=
  [ mkChain Title true true (isLength 3 100)
            "Title must be between 3 and 100 characters";
    mkChain Description true true (isLength 0 500)
            "Description cannot exceed 500 characters";
    mkChain Status true false (isIn statuses) "Invalid status";
    mkChain Priority true false (isIn priorities) "Invalid priority" ].

(** Assignments to the paths of a loaded document; the schema's setter
    [trim: true] applies. *)
Definition set_title (d : Task.t) (v : string) : Task.t :=
  Task.mk (Task._id d) (trim v) (Task.description d) (Task.status d)
          (Task.priority d) (Task.dueDate d) (Task.user d)
          (Task.createdAt d) (Task.updatedAt d).

Definition set_description (d : Task.t) (v : string) : Task.t :=
  Task.mk (Task._id d) (Task.title d) (Some (trim v)) (Task.status d)
          (Task.priority d) (Task.dueDate d) (Task.user d)
          (Task.createdAt d) (Task.updatedAt d).

Definition set_status (d : Task.t) (v : string) : Task.t :=
  Task.mk (Task._id d) (Task.title d) (Task.description d) v
          (Task.priority d) (Task.dueDate d) (Task.user d)
          (Task.createdAt d) (Task.updatedAt d).

Definition set_priority (d : Task.t) (v : string) : Task.t :=
  Task.mk (Task._id d) (Task.title d) (Task.description d) (Task.status d)
          v (Task.dueDate d) (Task.user d)
          (Task.createdAt d) (Task.updatedAt d).

(** [task.dueDate = v] for a date or [null]: the value is cast; when the
    cast fails the path keeps its value and the error is recorded on the
    document. *)
Definition set_dueDate (d : Task.t) (v : option Z)
  : Task.t * list (string * string) :=
  match cast_dueDate (Some v) with
  | Ok due =>
      (Task.mk (Task._id d) (Task.title d) (Task.description d) (Task.status d)
               (Task.priority d) due (Task.user d)
               (Task.createdAt d) (Task.updatedAt d),
       [])
  | Throw e => (d, [("dueDate", Err.message e)])
  end.

(** The five conditional assignments of [PUT /api/tasks/:id]: the
    document they leave, and the errors recorded on it. *)
Definition assign (task : Task.t) (body : Body.t)
  : Task.t * list (string * string) :=
  let task := if truthy (Body.title body)
              then set_title task (toString (Body.title body)) else task in
  let task := match Body.description body with
              | Some v => set_description task v
              | None => task
              end in
  let task := if truthy (Body.status body)
              then set_status task (toString (Body.status body)) else task in
  let task := if truthy (Body.priority body)
              then set_priority task (toString (Body.priority body)) else task in
  match Body.dueDate body with
  | Some v => set_dueDate task v
  | None => (task, [])
  end.

(** [PUT /api/tasks/:id]. *)
Definition PUT_task (db : Db) (now : Z) (user : User.t) (id : N)
    (body : Body.t) : Res.t * Db :=
  let '(body, errors) := run_chains update_chains body in
  match errors with
  | _ :: _ => (validation_failed errors, db)
  | [] =>
      match
        (found <- findOne db id (User._id user) ;;
         match found with
         | None => Ok (not_found, db)
         | Some task =>
             let '(task, invalid) := assign task body in
             saved <- save db now invalid task ;;
             Ok (Res.mk 200 true (Some "Task updated successfully") None
                        (Res.OneTask (fst saved)) None None, snd saved)
         end)
      with
      | Ok r => r
      | Throw error => (storage_failure "Error updating task" error, db)
      end
  end.

(** [DELETE /api/tasks/:id]. *)
Definition DELETE_task (db : Db) (user : User.t) (id : N) : Res.t * Db :=
  match findOneAndDelete db id (User._id user) with
  | Ok (None, _) => (not_found, db)
  | Ok (Some task, db') =>
      (Res.mk 200 true (Some "Task deleted successfully") None
              (Res.OneTask task) None None, db')
  | Throw error => (storage_failure "Error deleting task" error, db)
  end.

(* ===================================================================== *)
(** ** Invariant of the database *)
(* ===================================================================== *)

(** Every stored task is filed under its own [_id] and passes the schema
    (it went through [create] or [save]); every user is filed under its
    own [_id]. *)
Definition consistent (db : Db) : Prop :=
  map_Forall (fun k d => Task._id d = k /\ schema_errors d = []) (tasks db) /\
  map_Forall (fun k u => User._id u = k) (users db).

(** Characters of a string. *)
Fixpoint all_chars (P : ascii -> bool) (s : string) : bool :=
  match s with
  | EmptyString => true
  | String c r => (P c && all_chars P r)%bool
  end.

Definition is_digit (c : ascii) : bool :=
  let n := nat_of_ascii c in (Nat.leb 48 n && Nat.leb n 57)%bool.

Definition is_numeral_char (c : ascii) : bool :=
  (is_digit c || Ascii.eqb c "-")%bool.

(** The schema's validators as one test. *)
Definition schema_ok (d : Task.t) : bool :=
  (isLength 3 100 (Task.title d) &&
   match Task.description d with
   | Some s => isLength 0 500 s
   | None => true
   end &&
   isIn statuses (Task.status d) &&
   isIn priorities (Task.priority d))%bool.

(** The validation rules of the create route, field by field, on the
    value the validators measure: title and description after [trim],
    a missing title counting as the empty string; the optional fields
    only when they are sent. *)
Definition violated (f : Field) (b : Body.t) : bool :=
  match f with
  | Title => negb (isLength 3 100 (trim (toString (Body.title b))))
  | Description =>
      match Body.description b with
      | Some v => negb (Nat.leb (String.length (trim v)) 500)
      | None => false
      end
  | Status =>
      match Body.status b with
      | Some v => negb (isIn statuses v)
      | None => false
      end
  | Priority =>
      match Body.priority b with
      | Some v => negb (isIn priorities v)
      | None => false
      end
  end.

(** A due date as the task store takes it: not sent, [null], or an
    instant a [Date] can hold. *)
Definition castable (v : option (option Z)) : bool :=
  match v with
  | Some (Some t) => (Z.abs t <=? max_time)%Z
  | _ => true
  end.

(** The error [create] and [save] reject with when the due date [due]
    is the one thing wrong with the document. *)
Definition dueDate_rejected (due : Z) : Err.t :=
  Err.mk "ValidationError"
         ("Task validation failed: dueDate: " +:+ Err.message (CastError due)).

(** The fields of a body in the order of the validation chains. *)
Definition fields : list Field := [Title; Description; Status; Priority].

(** The document [PUT /api/tasks/:id] is to leave behind: the fields the
    body sends take the value sent (title and description trimmed, a
    [null] due date clearing it), every other field is the stored one,
    and [updatedAt] is the time of the request. *)
Definition updated (t : Task.t) (b : Body.t) (now : Z) : Task.t :=
  Task.mk (Task._id t)
          (match Body.title b with Some v => trim v | None => Task.title t end)
          (match Body.description b with
           | Some v => Some (trim v)
           | None => Task.description t
           end)
          (match Body.status b with Some v => v | None => Task.status t end)
          (match Body.priority b with Some v => v | None => Task.priority t end)
          (match Body.dueDate b with Some v => v | None => Task.dueDate t end)
          (Task.user t) (Task.createdAt t) now.

(** The document [POST /api/tasks] is to store for a body: the fields
    sent (title and description trimmed), [pending] and [medium] for a
    status and a priority that are not sent, the caller as owner. *)
Definition created (oid : N) (now : Z) (owner : N) (b : Body.t) : Task.t :=
  Task.mk oid
          (trim (toString (Body.title b)))
          (trim <$> Body.description b)
          (match Body.status b with Some v => v | None => "pending" end)
          (match Body.priority b with Some v => v | None => "medium" end)
          (match Body.dueDate b with Some (Some d) => Some d | _ => None end)
          owner now now.

(** The body with its [user] field replaced. *)
Definition with_user (b : Body.t) (x : option N) : Body.t :=
  Body.mk (Body.title b) (Body.description b) (Body.status b)
          (Body.priority b) (Body.dueDate b) x.

(** The order [GET /api/tasks] is to return for a [sort] parameter:
    [oldest] by creation time ascending, [title] by title ascending in
    the lexicographic order of character codes, [dueDate] by due date
    ascending with tasks without one first, and anything else (among
    which [newest] and no parameter) by creation time descending. *)
Definition listing_order (sort : option string) (a b : Task.t) : Prop :=
  match sort with
  | Some "oldest" => (Task.createdAt a <= Task.createdAt b)%Z
  | Some "title" => String.leb (Task.title a) (Task.title b) = true
  | Some "dueDate" =>
      match Task.dueDate a, Task.dueDate b with
      | None, _ => True
      | Some _, None => False
      | Some x, Some y => (x <= y)%Z
      end
  | _ => (Task.createdAt b <= Task.createdAt a)%Z
  end.

(** The tasks a listing is to contain: those of the caller that have the
    status and the priority asked for, an empty or absent parameter
    asking for nothing. *)
Definition wanted (uid : N) (status priority : option string) (t : Task.t) : bool :=
  (N.eqb uid (Task.user t) &&
   (if truthy status then String.eqb (toString status) (Task.status t) else true) &&
   (if truthy priority then String.eqb (toString priority) (Task.priority t) else true))%bool.

(** A character that may stand inside a segment of a compact token. *)
Definition is_segment_char (c : ascii) : bool :=
  negb (Ascii.eqb c ".").

(** A string that does not start with white space. *)
Definition starts_clean (s : string) : Prop :=
  match s with
  | EmptyString => True
  | String c _ => is_space c = false
  end.

(* ===================================================================== *)
(** ** Sample data *)
(* ===================================================================== *)

Module Sample.

(** An environment with a stand-in keyed hash. *)
Definition env : Env :=
  {| JWT_SECRET := "s3cret";
     hmac := fun k m => N.of_nat (String.length k + 7 * String.length m) |}.

Definition alice : User.t := User.mk 1 "Alice" "alice@x.com" (Some "$2a$10$hash").
Definition bob : User.t := User.mk 2 "Bob" "bob@x.com" (Some "$2a$10$hsah").

Definition milk : Task.t :=
  Task.mk 10 "Buy milk" None "pending" "medium" None 1 1000 1000.
Definition report : Task.t :=
  Task.mk 11 "Annual report" (Some "draft") "in-progress" "high"
          (Some 9000%Z) 1 2000 2500.
Definition taxes : Task.t :=
  Task.mk 12 "Taxes" None "pending" "low" (Some 5000%Z) 2 1500 1500.

Definition members : gmap N User.t := <[1%N := alice]> (<[2%N := bob]> ∅).

Definition db : Db :=
  mkDb (<[10%N := milk]> (<[11%N := report]> (<[12%N := taxes]> ∅)))
       members None.

Definition empty_db : Db := mkDb ∅ members None.

Definition broken : Db :=
  mkDb (tasks db) members
       (Some (Err.mk "MongoNetworkError" "connect ECONNREFUSED 127.0.0.1:27017")).

(** A moment in time, and the moment thirty days after it. *)
Definition now : Z := 1700000000123.
Definition later : Z := now + 2592000000.

Definition bearer (token : string) : option string := Some ("Bearer " +:+ token).

(** The first millisecond past the range of [Date]. *)
Definition never : Z := 8640000000000001.

End Sample.

(* ===================================================================== *)
(** ** backend/routes/taskRoutes.js: search, and the rules of the update *)
(* ===================================================================== *)

(** MongoDB's text index on title and description
    ([taskSchema.index({ title: 'text', description: 'text' })]): which
    documents a search string matches, and the relevance score it gives
    them.  Tokenizing, stemming and scoring are the server's; they are a
    parameter here, and the score stands for a number that is only
    compared. *)
Class TextIndex := {
  text_matches : string -> Task.t -> bool;
  textScore : string -> Task.t -> Z
}.

(** [.sort({ score: { $meta: 'textScore' } })]: most relevant first. *)
Definition score_rel `{TextIndex} (q : string) (a b : Task.t) : Prop :=
  (textScore q b <= textScore q a)%Z.

#[global] Instance score_rel_dec `{TextIndex} q a b : Decision (score_rel q a b).
Proof. unfold score_rel. apply _. Defined.

(** [Task.find({ user: uid, $text: { $search: q } }).sort(...)]. *)
Definition find_text `{TextIndex} (db : Db) (uid : N) (q : string)
  : result (list Task.t) :=
  _ <- roundtrip db ;;
  Ok (merge_sort (score_rel q)
        (List.filter (fun d => (N.eqb uid (Task.user d) && text_matches q d)%bool)
                     (documents db))).

(** [GET /api/tasks/search]. *)
Definition GET_search `{TextIndex} (db : Db) (user : User.t) (q : option string)
  : Res.t :=
  if negb (truthy q) then Res.failure 400 "Search query is required"
  else
    match find_text db (User._id user) (toString q) with
    | Ok tasks =>
        Res.mk 200 true None (Some (length tasks)) (Res.Tasks tasks) None None
    | Throw error => storage_failure "Error searching tasks" error
    end.

(** The rules of the update route, field by field: as for the create
    route, but a title that is not sent violates nothing. *)
Definition violated_update (f : Field) (b : Body.t) : bool :=
  match f with
  | Title =>
      match Body.title b with
      | Some v => negb (isLength 3 100 (trim v))
      | None => false
      end
  | _ => violated f b
  end.

(** The shape every response of the API has: one of six status codes,
    [success] exactly on 2xx, [data] exactly on 2xx, an [error] key
    exactly on 500, and an [errors] array on 400 only. *)
Definition well_formed (res : Res.t) : Prop :=
  In (Res.status res) [200; 201; 400; 401; 404; 500]%Z /\
  (Res.success res = true <-> (200 <= Res.status res < 300)%Z) /\
  (is_Some (Res.error res) <-> Res.status res = 500%Z) /\
  (is_Some (Res.errors res) -> Res.status res = 400%Z) /\
  (Res.payload res <> Res.NoData <-> (200 <= Res.status res < 300)%Z).

(** A response that axios resolves: status 2xx. *)
Definition resolves (res : Res.t) : bool :=
  ((200 <=? Res.status res)%Z && (Res.status res <? 300)%Z)%bool.

(* ===================================================================== *)
(** ** frontend/src/utils/api.js and the route guards of App.jsx *)
(* ===================================================================== *)

(** [localStorage]: string keys, string values; [getItem] of a key that
    is not set is [null], here [None]. *)
Definition getItem (storage : gmap string string) (key : string) : option string :=
  storage !! key.

Definition setItem (storage : gmap string string) (key value : string)
  : gmap string string :=
  <[key := value]> storage.

Definition removeItem (storage : gmap string string) (key : string)
  : gmap string string :=
  delete key storage.

(** [JSON.stringify] and [JSON.parse] on the user object the API sends;
    [parse] throws on text that is not JSON.  Both are the browser's and
    a parameter here. *)
Class JSON := {
  JSON_stringify : User.t -> string;
  JSON_parse : string -> result User.t
}.

(** [setAuthData(token, user)]. *)
Definition setAuthData `{JSON} (storage : gmap string string)
    (token : string) (user : User.t) : gmap string string :=
  setItem (setItem storage "token" token) "user" (JSON_stringify user).

(** [getStoredUser()]: the parsed user, or [null]. *)
Definition getStoredUser `{JSON} (storage : gmap string string)
  : result (option User.t) :=
  let user := getItem storage "user" in
  if truthy user then u <- JSON_parse (toString user) ;; Ok (Some u)
  else Ok None.

(** [isAuthenticated()]: [!!localStorage.getItem('token')]. *)
Definition isAuthenticated (storage : gmap string string) : bool :=
  truthy (getItem storage "token").

(** [logout()]. *)
Definition logout (storage : gmap string string) : gmap string string :=
  removeItem (removeItem storage "token") "user".

(** The request interceptor: the [Authorization] header of the outgoing
    request, given the one it had. *)
Definition request_interceptor (storage : gmap string string)
    (authorization : option string) : option string :=
  let token := getItem storage "token" in
  if truthy token then Some ("Bearer " +:+ toString token) else authorization.

(** The response interceptor.  [response] is [None] when no response
    arrived ([error.response] undefined).  The result is the storage,
    the address the window is sent to if any, and whether the promise
    resolves (status 2xx) or rejects. *)
Definition response_interceptor (storage : gmap string string)
    (response : option Res.t) : gmap string string * option string * bool :=
  match response with
  | Some res =>
      if resolves res then (storage, None, true)
      else if (Res.status res =? 401)%Z
      then (removeItem (removeItem storage "token") "user", Some "/login", false)
      else (storage, None, false)
  | None => (storage, None, false)
  end.

(** What a route guard renders: its children, or a redirect. *)
Inductive Element :=
| Children
| Navigate (to : string).

Definition ProtectedRoute (storage : gmap string string) : Element :=
  if isAuthenticated storage then Children else Navigate "/login".

Definition PublicRoute (storage : gmap string string) : Element :=
  if negb (isAuthenticated storage) then Children else Navigate "/dashboard".

(* ===================================================================== *)
(** ** frontend/src/components/TaskList.jsx *)
(* ===================================================================== *)

(** [toLowerCase()] on ASCII: the letters A to Z move to a to z. *)
Definition lower_char (c : ascii) : ascii :=
  let n := nat_of_ascii c in
  if (Nat.leb 65 n && Nat.leb n 90)%bool then ascii_of_nat (n + 32) else c.

Fixpoint toLowerCase (s : string) : string :=
  match s with
  | EmptyString => EmptyString
  | String c r => String (lower_char c) (toLowerCase r)
  end.

(** [s.includes(q)]: [q] occurs in [s] as a substring. *)
Fixpoint includes (s q : string) : bool :=
  (String.prefix q s ||
   match s with
   | EmptyString => false
   | String _ r => includes r q
   end)%bool.

(** The predicate of [tasks.filter(...)] in [filteredTasks];
    [filter_status] and [filter_priority] are [filter.status] and
    [filter.priority], the empty string when nothing is selected.  A task
    without description does not match on it
    ([task.description?.toLowerCase()] is undefined). *)
Definition shown (filter_status filter_priority searchQuery : string)
    (task : Task.t) : bool :=
  let matchesStatus :=
    (negb (truthy (Some filter_status)) ||
     String.eqb (Task.status task) filter_status)%bool in
  let matchesPriority :=
    (negb (truthy (Some filter_priority)) ||
     String.eqb (Task.priority task) filter_priority)%bool in
  let matchesSearch :=
    (negb (truthy (Some searchQuery)) ||
     includes (toLowerCase (Task.title task)) (toLowerCase searchQuery) ||
     match Task.description task with
     | Some d => includes (toLowerCase d) (toLowerCase searchQuery)
     | None => false
     end)%bool in
  (matchesStatus && matchesPriority && matchesSearch)%bool.

Definition filteredTasks (filter_status filter_priority searchQuery : string)
    (tasks : list Task.t) : list Task.t :=
  List.filter (shown filter_status filter_priority searchQuery) tasks.

(* ===================================================================== *)
(** ** frontend/src/pages/Dashboard.jsx *)
(* ===================================================================== *)

(** The lists the three handlers hand to [setTasks] when the API call
    resolved: [[response.data.task, ...tasks]],
    [tasks.map(t => t._id === editingTask._id ? response.data.task : t)]
    and [tasks.filter(t => t._id !== taskId)]. *)
Definition tasks_after_create (tasks : list Task.t) (task : Task.t) : list Task.t :=
  task :: tasks.

Definition tasks_after_update (tasks : list Task.t) (editing : N) (task : Task.t)
  : list Task.t :=
  List.map (fun t => if N.eqb (Task._id t) editing then task else t) tasks.

Definition tasks_after_delete (tasks : list Task.t) (taskId : N) : list Task.t :=
  List.filter (fun t => negb (N.eqb (Task._id t) taskId)) tasks.

(** The counters of the statistics row: [tasks.length] and
    [tasks.filter(t => t.status === s).length]. *)
Definition count_status (tasks : list Task.t) (s : string) : nat :=
  length (List.filter (fun t => String.eqb (Task.status t) s) tasks).

(* ===================================================================== *)
(** ** More sample data *)
(* ===================================================================== *)

(** A character other than the space. *)
Definition is_token_char (c : ascii) : bool := negb (Ascii.eqb c " ").

Module Demo.

(** A stand-in text index: a document matches when its title contains
    the search string, letter case aside; shorter titles score higher. *)
Definition index : TextIndex :=
  {| text_matches := fun q t => includes (toLowerCase (Task.title t)) (toLowerCase q);
     textScore := fun q t => (- Z.of_nat (String.length (Task.title t)))%Z |}.

(** A stand-in JSON codec that keeps the name only. *)
Definition json : JSON :=
  {| JSON_stringify := User.name;
     JSON_parse := fun s => Ok (User.mk 0 s EmptyString None) |}.

(** The browser's storage after a login of Alice at [Sample.now]. *)
Definition session : gmap string string :=
  @setAuthData json ∅ (@generateToken Sample.env 1 Sample.now)
               (User.without_password Sample.alice).

End Demo.

(* ===================================================================== *)
(** * Properties *)
(* ===================================================================== *)

(** ** Strings *)

Lemma all_chars_app P a b :
  all_chars P (a +:+ b) = (all_chars P a && all_chars P b)%bool.
Proof.
  induction a as [|c a IH]; simpl; [done|].
  rewrite IH. by destruct (P c).
Qed.

Lemma app_char c s : String c EmptyString +:+ s = String c s.
Proof. reflexivity. Qed.

(** A piece free of the separator is cut off at the first separator. *)
Lemma split_piece P sep a b :
  P sep = false -> all_chars P a = true ->
  split sep (a +:+ String sep b) = a :: split sep b.
Proof.
  intros Hsep. induction a as [|c a IH]; simpl; intros Ha.
  - by rewrite Ascii.eqb_refl.
  - apply andb_prop in Ha as [Hc Ha].
    destruct (Ascii.eqb_spec c sep) as [->|_]; [congruence|].
    by rewrite IH.
Qed.

Lemma split_last P sep a :
  P sep = false -> all_chars P a = true -> split sep a = [a].
Proof.
  intros Hsep. induction a as [|c a IH]; simpl; intros Ha; [done|].
  apply andb_prop in Ha as [Hc Ha].
  destruct (Ascii.eqb_spec c sep) as [->|_]; [congruence|].
  by rewrite IH.
Qed.

Lemma digits_string_of_uint d :
  all_chars is_digit (NilEmpty.string_of_uint d) = true.
Proof. induction d; simpl; auto. Qed.

Lemma digits_dec n : all_chars is_digit (dec n) = true.
Proof.
  unfold dec, NilZero.string_of_uint.
  destruct (N.to_uint n); try apply (digits_string_of_uint (_ _)); done.
Qed.

Lemma numeral_dec n : all_chars is_numeral_char (dec n) = true.
Proof.
  pose proof (digits_dec n) as Hd. revert Hd.
  generalize (dec n). induction s as [|c s IH]; simpl; [done|].
  intros [Hc Hs]%andb_prop. unfold is_numeral_char.
  rewrite Hc. simpl. auto.
Qed.

Lemma numeral_decZ z : all_chars is_numeral_char (decZ z) = true.
Proof.
  unfold decZ, Z.to_int. destruct z as [|p|p]; simpl.
  - done.
  - apply (numeral_dec (Npos p)).
  - apply (numeral_dec (Npos p)).
Qed.

Lemma to_uint_nonnil n : N.to_uint n <> Nil.
Proof.
  destruct n as [|p]; simpl; [done|].
  apply DecimalPos.Unsigned.to_uint_nonnil.
Qed.

Lemma undec_dec n : undec (dec n) = Some n.
Proof.
  unfold undec, dec.
  rewrite NilZero.usu by apply to_uint_nonnil.
  simpl. by rewrite DecimalN.Unsigned.of_to.
Qed.

Lemma undecZ_decZ z : undecZ (decZ z) = Some z.
Proof.
  unfold undecZ, decZ.
  rewrite NilZero.isi.
  - simpl. by rewrite DecimalZ.of_to.
  - destruct z; simpl; try done.
    intros [= Hp]. by apply DecimalPos.Unsigned.to_uint_nonnil in Hp.
  - destruct z; simpl; try done.
    intros [= Hp]. by apply DecimalPos.Unsigned.to_uint_nonnil in Hp.
Qed.

Lemma ltrim_starts_clean s : starts_clean (ltrim s).
Proof.
  induction s as [|c s IH]; simpl; [done|].
  destruct (is_space c) eqn:Hc; [done|]. simpl. done.
Qed.

Lemma ltrim_clean s : starts_clean s -> ltrim s = s.
Proof. destruct s as [|c s]; simpl; [done|]. by intros ->. Qed.

Lemma rtrim_starts_clean s : starts_clean s -> starts_clean (rtrim s).
Proof.
  destruct s as [|c s]; simpl; [done|]. intros Hc.
  destruct (rtrim s); [rewrite Hc|]; done.
Qed.

Lemma rtrim_cons c r :
  rtrim (String c r) =
  match rtrim r with
  | EmptyString => if is_space c then EmptyString else String c EmptyString
  | r' => String c r'
  end.
Proof. reflexivity. Qed.

Lemma rtrim_idemp s : rtrim (rtrim s) = rtrim s.
Proof.
  induction s as [|c s IH]; [done|].
  rewrite (rtrim_cons c s).
  destruct (rtrim s) as [|c' r'] eqn:Hr.
  - destruct (is_space c) eqn:Hc; [done|].
    rewrite rtrim_cons. simpl. by rewrite Hc.
  - rewrite rtrim_cons, IH. done.
Qed.

(** Trimming twice is trimming once: the route's sanitizer and the
    schema's setter agree. *)
Lemma trim_idemp s : trim (trim s) = trim s.
Proof.
  unfold trim.
  rewrite (ltrim_clean (rtrim (ltrim s))).
  - apply rtrim_idemp.
  - apply rtrim_starts_clean, ltrim_starts_clean.
Qed.

Lemma trim_empty : trim EmptyString = EmptyString.
Proof. reflexivity. Qed.

(** ** Token service *)

Section TokenService.
Context `{Env}.

Lemma decode_encode_payload p :
  jwt.decode_payload (jwt.encode_payload p) = Some p.
Proof.
  unfold jwt.decode_payload, jwt.encode_payload. rewrite !app_char.
  rewrite (split_piece is_numeral_char) by (done || apply numeral_dec).
  rewrite (split_piece is_numeral_char) by (done || apply numeral_decZ).
  rewrite (split_last is_numeral_char) by (done || apply numeral_decZ).
  rewrite undec_dec, !undecZ_decZ. by destruct p.
Qed.

Lemma segment_of_numeral s :
  all_chars is_numeral_char s = true -> all_chars is_segment_char s = true.
Proof.
  induction s as [|c s IH]; simpl; [done|].
  intros [Hc Hs]%andb_prop. rewrite IH by done.
  rewrite andb_true_r. unfold is_segment_char.
  destruct (Ascii.eqb_spec c ".") as [->|]; [discriminate|done].
Qed.

Lemma segment_payload p :
  all_chars is_segment_char (jwt.encode_payload p) = true.
Proof.
  unfold jwt.encode_payload. rewrite !all_chars_app. simpl.
  rewrite !segment_of_numeral; auto using numeral_dec, numeral_decZ.
Qed.

(** The three segments of a signed token. *)
Lemma split_sign uid secret now :
  let p := jwt.mkPayload uid (now / 1000) (now / 1000 + jwt.thirty_days) in
  split "." (jwt.sign uid secret now) =
  [jwt.header; jwt.encode_payload p;
   jwt.signature secret (jwt.header +:+ "." +:+ jwt.encode_payload p)].
Proof.
  intros p. unfold jwt.sign. fold p.
  change ((jwt.header +:+ "." +:+ jwt.encode_payload p) +:+ "." +:+
          jwt.signature secret (jwt.header +:+ "." +:+ jwt.encode_payload p))
    with (jwt.header +:+ String "."
            (jwt.encode_payload p +:+ String "."
               (jwt.signature secret
                  (jwt.header +:+ "." +:+ jwt.encode_payload p)))).
  rewrite (split_piece is_segment_char) by done.
  rewrite (split_piece is_segment_char) by (done || apply segment_payload).
  rewrite (split_last is_segment_char); [done|done|].
  apply segment_of_numeral, numeral_dec.
Qed.

(** What [verify] answers for a token that [sign] produced with the same
    secret: the payload until the expiration second, [TokenExpiredError]
    from then on. *)
Lemma verify_sign uid secret now now' :
  jwt.verify (Some (jwt.sign uid secret now)) secret now' =
  if (now / 1000 + jwt.thirty_days <=? now' / 1000)%Z
  then Throw (jwt.TokenExpiredError "jwt expired")
  else Ok (jwt.mkPayload uid (now / 1000) (now / 1000 + jwt.thirty_days)).
Proof.
  unfold jwt.verify.
  rewrite split_sign, decode_encode_payload, String.eqb_refl. simpl.
  destruct (jwt.sign uid secret now) eqn:Hs; [|done].
  unfold jwt.sign in Hs. discriminate.
Qed.

End TokenService.

(** C5.  For every user identifier, the token [generateToken] issues
    verifies to that identifier at the instant of issuance, and at every
    instant before its expiration (the issuance second plus thirty days);
    at the expiration instant and at any later instant, in particular
    thirty days or more after issuance, [verify] fails with
    [TokenExpiredError]. *)
Theorem token_verifies_until_expiry `{Env} (u : N) (now : Z) :
  let token := Some (generateToken u now) in
  let expiration := ((now / 1000 + 30 * 24 * 60 * 60) * 1000)%Z in
  jwt.verify token JWT_SECRET now =
    Ok (jwt.mkPayload u (now / 1000) (now / 1000 + 30 * 24 * 60 * 60)) /\
  (forall now', (now' < expiration)%Z ->
     jwt.verify token JWT_SECRET now' =
       Ok (jwt.mkPayload u (now / 1000) (now / 1000 + 30 * 24 * 60 * 60))) /\
  (forall now', (expiration <= now')%Z ->
     jwt.verify token JWT_SECRET now' =
       Throw (jwt.TokenExpiredError "jwt expired")) /\
  (forall now', (now + 30 * 24 * 60 * 60 * 1000 <= now')%Z ->
     jwt.verify token JWT_SECRET now' =
       Throw (jwt.TokenExpiredError "jwt expired")).
Proof.
  intros token expiration. subst token expiration.
  unfold generateToken.
  assert (Hvalid : forall now', (now' < (now / 1000 + 30 * 24 * 60 * 60) * 1000)%Z ->
            (now / 1000 + jwt.thirty_days <=? now' / 1000)%Z = false).
  { intros now' Hlt. apply Z.leb_gt. unfold jwt.thirty_days.
    apply Z.div_lt_upper_bound; lia. }
  assert (Hexpired : forall now', ((now / 1000 + 30 * 24 * 60 * 60) * 1000 <= now')%Z ->
            (now / 1000 + jwt.thirty_days <=? now' / 1000)%Z = true).
  { intros now' Hle. apply Z.leb_le. unfold jwt.thirty_days.
    apply Z.div_le_lower_bound; lia. }
  repeat split.
  - rewrite verify_sign, Hvalid; [done|].
    pose proof (Z.mul_div_le now 1000). pose proof (Z.mod_pos_bound now 1000).
    pose proof (Z.div_mod now 1000). lia.
  - intros now' Hlt. by rewrite verify_sign, Hvalid.
  - intros now' Hle. by rewrite verify_sign, Hexpired.
  - intros now' Hle. rewrite verify_sign, Hexpired; [done|].
    pose proof (Z.mul_div_le now 1000). lia.
Qed.

Lemma token_verifies_until_expiry_witness :
  let token := Some (@generateToken Sample.env 1 Sample.now) in
  @jwt.verify Sample.env token "s3cret" Sample.now =
    Ok (jwt.mkPayload 1 1700000000 1702592000) /\
  @jwt.verify Sample.env token "s3cret" (Sample.now + 1000) =
    Ok (jwt.mkPayload 1 1700000000 1702592000) /\
  @jwt.verify Sample.env token "s3cret" Sample.later =
    Throw (jwt.TokenExpiredError "jwt expired").
Proof.
  destruct (@token_verifies_until_expiry Sample.env 1 Sample.now)
    as (Hnow & Hbefore & _ & Hafter).
  split; [exact Hnow|]. split.
  - apply (Hbefore (Sample.now + 1000)%Z). vm_compute. reflexivity.
  - apply (Hafter Sample.later). vm_compute. discriminate.
Defined.

(** ** Task store: single documents *)

Lemma roundtrip_ok db : fault db = None -> roundtrip db = Ok tt.
Proof. unfold roundtrip. by intros ->. Qed.

Lemma roundtrip_fault ts us e : roundtrip (mkDb ts us (Some e)) = Throw e.
Proof. reflexivity. Qed.

Lemma matches_user uid d :
  matches (mkFilter (Some uid) None None) d = N.eqb uid (Task.user d).
Proof. unfold matches. simpl. by rewrite !andb_true_r. Qed.

Lemma findOne_ok db id uid :
  fault db = None ->
  findOne db id uid =
  Ok (match tasks db !! id with
      | Some d => if N.eqb uid (Task.user d) then Some d else None
      | None => None
      end).
Proof.
  intros Hf. unfold findOne. rewrite roundtrip_ok by done. simpl.
  destruct (tasks db !! id) as [d|]; [|done]. by rewrite matches_user.
Qed.

Lemma findOne_owner db id uid d :
  fault db = None -> tasks db !! id = Some d -> Task.user d = uid ->
  findOne db id uid = Ok (Some d).
Proof.
  intros Hf Hd <-. rewrite findOne_ok, Hd by done. by rewrite N.eqb_refl.
Qed.

Lemma findOne_other db id uid d :
  fault db = None -> tasks db !! id = Some d -> Task.user d <> uid ->
  findOne db id uid = Ok None.
Proof.
  intros Hf Hd Hne. rewrite findOne_ok, Hd by done.
  destruct (N.eqb_spec uid (Task.user d)); [congruence|done].
Qed.

Lemma findOne_missing db id uid :
  fault db = None -> tasks db !! id = None -> findOne db id uid = Ok None.
Proof. intros Hf Hd. by rewrite findOne_ok, Hd. Qed.

(** A get by the owner answers with the task. *)
Lemma GET_task_owner db (u : User.t) (id : N) (t : Task.t) :
  fault db = None -> tasks db !! id = Some t -> Task.user t = User._id u ->
  GET_task db u id = Res.mk 200 true None None (Res.OneTask t) None None.
Proof.
  intros Hf Ht Hu. unfold GET_task. by rewrite (findOne_owner db id _ t).
Qed.

(** C1.  With the store answering, [GET /api/tasks/:id] returns the task
    exactly when a task is filed under that identifier and its owner is
    the caller; when no such task exists, and equally when it exists but
    another user owns it, the response is the one value [not_found] (404,
    'Task not found'). *)
Theorem get_task_owner_only db (u : User.t) (id : N) :
  fault db = None ->
  (forall t, tasks db !! id = Some t -> Task.user t = User._id u ->
     GET_task db u id = Res.mk 200 true None None (Res.OneTask t) None None) /\
  (tasks db !! id = None -> GET_task db u id = not_found) /\
  (forall t, tasks db !! id = Some t -> Task.user t <> User._id u ->
     GET_task db u id = not_found) /\
  (Res.status (GET_task db u id) = 200%Z <->
   exists t, tasks db !! id = Some t /\ Task.user t = User._id u).
Proof.
  intros Hf. unfold GET_task.
  split; [|split; [|split]].
  - intros t Ht Hu. fold (GET_task db u id). by apply GET_task_owner.
  - intros Ht. by rewrite findOne_missing.
  - intros t Ht Hu. by rewrite (findOne_other db id _ t).
  - rewrite findOne_ok by done.
    destruct (tasks db !! id) as [t|] eqn:Ht.
    + destruct (N.eqb_spec (User._id u) (Task.user t)) as [Heq|Hne]; simpl.
      * split; [eauto|done].
      * split; [done|]. intros (t' & [= <-] & Hu). congruence.
    + simpl. split; [done|]. by intros (t' & [=] & _).
Qed.

Lemma get_task_owner_only_witness :
  GET_task Sample.db Sample.alice 10 =
    Res.mk 200 true None None (Res.OneTask Sample.milk) None None /\
  GET_task Sample.db Sample.bob 10 = not_found /\
  GET_task Sample.db Sample.bob 99 = not_found.
Proof.
  split; [|split].
  - apply (get_task_owner_only Sample.db Sample.alice 10); reflexivity.
  - apply (get_task_owner_only Sample.db Sample.bob 10 eq_refl) with Sample.milk.
    + reflexivity.
    + vm_compute. discriminate.
  - apply (get_task_owner_only Sample.db Sample.bob 99); reflexivity.
Defined.

(** C9.  With the store answering, deleting a task its caller owns returns
    the record as it was stored and removes it; afterwards a further
    delete, or a get, of the same identifier by any user answers
    [not_found] and changes nothing. *)
Theorem delete_returns_prior_state_then_gone db (u : User.t) (id : N) (t : Task.t) :
  fault db = None -> tasks db !! id = Some t -> Task.user t = User._id u ->
  let db' := with_tasks db (delete id (tasks db)) in
  DELETE_task db u id =
    (Res.mk 200 true (Some "Task deleted successfully") None
            (Res.OneTask t) None None, db') /\
  tasks db' !! id = None /\
  (forall k, k <> id -> tasks db' !! k = tasks db !! k) /\
  forall u' : User.t,
    DELETE_task db' u' id = (not_found, db') /\
    GET_task db' u' id = not_found.
Proof.
  intros Hf Ht Hu db'.
  assert (Hgone : tasks db' !! id = None) by apply lookup_delete_eq.
  split; [|split; [done|split]].
  - unfold DELETE_task, findOneAndDelete.
    by rewrite (findOne_owner db id _ t).
  - intros k Hk. by apply lookup_delete_ne.
  - intros u'. split.
    + unfold DELETE_task, findOneAndDelete.
      by rewrite findOne_missing.
    + unfold GET_task. by rewrite findOne_missing.
Qed.

Lemma delete_returns_prior_state_then_gone_witness :
  let db' := with_tasks Sample.db (delete 10%N (tasks Sample.db)) in
  DELETE_task Sample.db Sample.alice 10 =
    (Res.mk 200 true (Some "Task deleted successfully") None
            (Res.OneTask Sample.milk) None None, db') /\
  DELETE_task db' Sample.alice 10 = (not_found, db') /\
  GET_task db' Sample.bob 10 = not_found.
Proof.
  destruct (delete_returns_prior_state_then_gone
              Sample.db Sample.alice 10 Sample.milk eq_refl eq_refl eq_refl)
    as (Hdel & _ & _ & Hafter).
  split; [exact Hdel|]. split.
  - apply (Hafter Sample.alice).
  - apply (Hafter Sample.bob).
Defined.

(** ** Auth gate *)

Section Gate.
Context `{Env}.

(** [jwt.verify] throws errors of two names only. *)
Lemma verify_throws token secret now e :
  jwt.verify token secret now = Throw e ->
  e = jwt.JsonWebTokenError (Err.message e) \/
  e = jwt.TokenExpiredError "jwt expired".
Proof.
  unfold jwt.verify. intros Hv.
  repeat match type of Hv with
         | match ?x with _ => _ end = _ => destruct x
         | (if ?b then _ else _) = _ => destruct b
         end; inversion Hv; subst; auto.
Qed.

Lemma findById_ok db id :
  fault db = None ->
  findById db id = Ok (User.without_password <$> users db !! id).
Proof. intros Hf. unfold findById. by rewrite roundtrip_ok. Qed.

Lemma findById_fault db id e :
  fault db = Some e -> findById db id = Throw e.
Proof. intros Hf. unfold findById, roundtrip. by rewrite Hf. Qed.

(** The response the [catch] block of [protect] picks for an error. *)
Lemma protect_bearer db now authorization :
  (truthy authorization && startsWith (toString authorization) "Bearer")%bool = true ->
  protect db now authorization =
  match jwt.verify (split " " (toString authorization) !! 1%nat) JWT_SECRET now with
  | Throw e =>
      inl (Res.failure 401
             (if String.eqb (Err.name e) "JsonWebTokenError" then "Invalid token"
              else if String.eqb (Err.name e) "TokenExpiredError" then "Token expired"
              else "Not authorized, token failed"))
  | Ok p =>
      match fault db with
      | Some e =>
          inl (Res.failure 401
                 (if String.eqb (Err.name e) "JsonWebTokenError" then "Invalid token"
                  else if String.eqb (Err.name e) "TokenExpiredError" then "Token expired"
                  else "Not authorized, token failed"))
      | None =>
          match users db !! jwt.id p with
          | None => inl (Res.failure 401 "User not found")
          | Some u => inr (User.without_password u)
          end
      end
  end.
Proof.
  intros Hb. unfold protect. rewrite Hb.
  destruct (jwt.verify _ _ _) as [p|e]; simpl.
  - destruct (fault db) as [e|] eqn:Hf.
    + rewrite (findById_fault _ _ e) by done. simpl.
      by repeat destruct (String.eqb _ _).
    + rewrite findById_ok by done. simpl.
      by destruct (users db !! jwt.id p).
  - by repeat destruct (String.eqb _ _).
Qed.

End Gate.

(** C2, as the code has it.  Every request the gate turns away gets status
    401, [success: false] and nothing but a message; the message names
    the kind of failure: 'Not authorized, no token provided' without a
    Bearer header, 'Invalid token' when [verify] throws
    [JsonWebTokenError] (token missing after the scheme, malformed, or
    with a wrong signature), 'Token expired' when it throws
    [TokenExpiredError], 'User not found' when the decoded user does not
    exist, and the message the [catch] block picks for the error when the
    user lookup itself fails. *)
Theorem gate_failure_is_401_with_reason `{Env} db now authorization res :
  protect db now authorization = inl res ->
  let bearer :=
    (truthy authorization && startsWith (toString authorization) "Bearer")%bool in
  let verdict :=
    jwt.verify (split " " (toString authorization) !! 1%nat) JWT_SECRET now in
  exists m, res = Res.failure 401 m /\
    ((bearer = false /\ m = "Not authorized, no token provided") \/
     (bearer = true /\ (exists msg, verdict = Throw (jwt.JsonWebTokenError msg)) /\
        m = "Invalid token") \/
     (bearer = true /\ verdict = Throw (jwt.TokenExpiredError "jwt expired") /\
        m = "Token expired") \/
     (bearer = true /\ (exists p, verdict = Ok p /\ fault db = None /\
                          users db !! jwt.id p = None) /\
        m = "User not found") \/
     (bearer = true /\ (exists p e, verdict = Ok p /\ fault db = Some e /\
        m = if String.eqb (Err.name e) "JsonWebTokenError" then "Invalid token"
            else if String.eqb (Err.name e) "TokenExpiredError" then "Token expired"
            else "Not authorized, token failed"))).
Proof.
  intros Hres bearer verdict. subst bearer verdict.
  destruct (truthy authorization && startsWith (toString authorization) "Bearer")%bool
    eqn:Hb.
  - rewrite protect_bearer in Hres by done.
    destruct (jwt.verify _ _ _) as [p|e] eqn:Hv.
    + destruct (fault db) as [e|] eqn:Hf.
      * inversion Hres; subst. eexists; split; [done|].
        do 4 right. split; [done|]. by exists p, e.
      * destruct (users db !! jwt.id p) eqn:Hu; [done|].
        inversion Hres; subst. eexists; split; [done|].
        do 3 right. left. split; [done|]. split; [|done]. by exists p.
    + inversion Hres; subst. eexists; split; [done|].
      destruct (verify_throws _ _ _ _ Hv) as [He|He]; rewrite He; simpl.
      * right. left. split; [done|]. split; [|done]. by exists (Err.message e).
      * right. right. left. done.
  - unfold protect in Hres. rewrite Hb in Hres. inversion Hres; subst.
    eexists; split; [done|]. left. done.
Qed.

Lemma gate_failure_is_401_with_reason_witness :
  @protect Sample.env Sample.db Sample.later
     (Sample.bearer (@generateToken Sample.env 1 Sample.now)) =
    inl (Res.failure 401 "Token expired") /\
  exists m,
    Res.failure 401 "Token expired" = Res.failure 401 m /\
    m = "Token expired".
Proof.
  split; [reflexivity|].
  destruct (@gate_failure_is_401_with_reason Sample.env Sample.db Sample.later
              (Sample.bearer (@generateToken Sample.env 1 Sample.now))
              (Res.failure 401 "Token expired") eq_refl)
    as (m & Hm & Hcases).
  exists m. split; [exact Hm|]. by inversion Hm.
Defined.

(** C2, as the claim has it, fails: five requests that the gate turns
    away (no header, a malformed token, a token signed with another
    secret, an expired token, a token of a user that does not exist) get
    four different messages. *)
Lemma gate_messages_reveal_reason :
  let protect := @protect Sample.env Sample.db in
  let token := @generateToken Sample.env 1 Sample.now in
  protect Sample.now None =
    inl (Res.failure 401 "Not authorized, no token provided") /\
  protect Sample.now (Sample.bearer "garbage") =
    inl (Res.failure 401 "Invalid token") /\
  protect Sample.now (Sample.bearer (@jwt.sign Sample.env 1 "other" Sample.now)) =
    inl (Res.failure 401 "Invalid token") /\
  protect Sample.later (Sample.bearer token) =
    inl (Res.failure 401 "Token expired") /\
  protect Sample.now (Sample.bearer (@generateToken Sample.env 3 Sample.now)) =
    inl (Res.failure 401 "User not found") /\
  protect Sample.now None <> protect Sample.now (Sample.bearer "garbage") /\
  protect Sample.now (Sample.bearer "garbage") <> protect Sample.later (Sample.bearer token) /\
  protect Sample.later (Sample.bearer token) <>
    protect Sample.now (Sample.bearer (@generateToken Sample.env 3 Sample.now)).
Proof.
  vm_compute. repeat split; discriminate.
Qed.

(** ** Validation *)

Lemma isLength_spec min max s :
  isLength min max s = true <-> min <= String.length s <= max.
Proof.
  unfold isLength. rewrite andb_true_iff, !Nat.leb_le. done.
Qed.

(** What the chains of the create route leave in the body, and the
    errors they record. *)
Lemma run_create_chains b :
  run_chains create_chains b =
  (Body.mk (Some (trim (toString (Body.title b))))
           (trim <$> Body.description b)
           (Body.status b) (Body.priority b) (Body.dueDate b) (Body.user b),
   (if isLength 3 100 (trim (toString (Body.title b))) then []
    else [VError.mk (Some (trim (toString (Body.title b))))
                    "Title must be between 3 and 100 characters" "title"]) ++
   (match Body.description b with
    | Some v => if isLength 0 500 (trim v) then []
                else [VError.mk (Some (trim v))
                                "Description cannot exceed 500 characters"
                                "description"]
    | None => []
    end) ++
   (match Body.status b with
    | Some v => if isIn statuses v then []
                else [VError.mk (Some v) "Invalid status" "status"]
    | None => []
    end) ++
   (match Body.priority b with
    | Some v => if isIn priorities v then []
                else [VError.mk (Some v) "Invalid priority" "priority"]
    | None => []
    end))%list.
Proof.
  destruct b as [[t|] [d|] [s|] [p|] due usr];
    unfold create_chains, run_chains, run_chain; cbn -[trim isLength isIn];
    rewrite ?trim_empty;
    repeat match goal with
           | |- context [if ?c then _ else _] => destruct c
           end; reflexivity.
Qed.

(** The same for the update route, where the title is optional too. *)
Lemma run_update_chains b :
  run_chains update_chains b =
  (Body.mk (trim <$> Body.title b)
           (trim <$> Body.description b)
           (Body.status b) (Body.priority b) (Body.dueDate b) (Body.user b),
   (match Body.title b with
    | Some v => if isLength 3 100 (trim v) then []
                else [VError.mk (Some (trim v))
                                "Title must be between 3 and 100 characters"
                                "title"]
    | None => []
    end) ++
   (match Body.description b with
    | Some v => if isLength 0 500 (trim v) then []
                else [VError.mk (Some (trim v))
                                "Description cannot exceed 500 characters"
                                "description"]
    | None => []
    end) ++
   (match Body.status b with
    | Some v => if isIn statuses v then []
                else [VError.mk (Some v) "Invalid status" "status"]
    | None => []
    end) ++
   (match Body.priority b with
    | Some v => if isIn priorities v then []
                else [VError.mk (Some v) "Invalid priority" "priority"]
    | None => []
    end))%list.
Proof.
  destruct b as [[t|] [d|] [s|] [p|] due usr];
    unfold update_chains, run_chains, run_chain; cbn -[trim isLength isIn];
    repeat match goal with
           | |- context [if ?c then _ else _] => destruct c
           end; reflexivity.
Qed.

Lemma schema_errors_nil d : schema_errors d = [] <-> schema_ok d = true.
Proof.
  unfold schema_errors, schema_ok.
  rewrite !app_nil, !andb_true_iff.
  assert (Htitle :
    match Task.title d with
    | EmptyString => [("title", "Task title is required")]
    | s =>
        if negb (Nat.leb 3 (String.length s))
        then [("title", "Title must be at least 3 characters")]
        else if negb (Nat.leb (String.length s) 100)
        then [("title", "Title cannot exceed 100 characters")]
        else []
    end = [] <-> isLength 3 100 (Task.title d) = true).
  { unfold isLength. destruct (Task.title d) as [|c t]; [done|].
    destruct (Nat.leb 3 _), (Nat.leb _ 100); done. }
  assert (Hdesc :
    match Task.description d with
    | Some s =>
        if negb (Nat.leb (String.length s) 500)
        then [("description", "Description cannot exceed 500 characters")]
        else []
    | None => []
    end = [] <->
    match Task.description d with
    | Some s => isLength 0 500 s
    | None => true
    end = true).
  { unfold isLength. destruct (Task.description d) as [s|]; [|done].
    simpl. destruct (Nat.leb _ 500); done. }
  rewrite Htitle, Hdesc.
  destruct (isIn statuses (Task.status d)), (isIn priorities (Task.priority d));
    intuition discriminate.
Qed.

Lemma validate_ok d : schema_ok d = true -> validate [] d = Ok tt.
Proof.
  intros Hok. apply schema_errors_nil in Hok. unfold validate.
  cbn [app]. by rewrite Hok.
Qed.

(** A document on which a failed cast of the due date was recorded, and
    that is in order otherwise, is rejected with that one error. *)
Lemma validate_cast_failed d due :
  schema_ok d = true ->
  validate [("dueDate", Err.message (CastError due))] d =
    Throw (dueDate_rejected due).
Proof.
  intros Hok. apply schema_errors_nil in Hok. unfold validate.
  rewrite Hok. reflexivity.
Qed.

Lemma validate_inv invalid d :
  validate invalid d = Ok tt -> invalid = [] /\ schema_errors d = [].
Proof.
  unfold validate. destruct (invalid ++ schema_errors d)%list eqn:Happ; [|done].
  intros _. by apply app_nil in Happ.
Qed.

(** What a [create] that resolved has done. *)
Lemma create_inv db oid now n d db' :
  create db oid now n = Ok (d, db') ->
  build oid now n = (d, []) /\ Task._id d = oid /\ Task.user d = n_user n /\
  schema_errors d = [] /\ fault db = None /\ tasks db !! oid = None /\
  db' = with_tasks db (<[oid := d]> (tasks db)).
Proof.
  unfold create.
  assert (Hid : Task._id (build oid now n).1 = oid /\
                Task.user (build oid now n).1 = n_user n).
  { unfold build. by destruct (cast_dueDate (n_dueDate n)). }
  destruct (build oid now n) as [d0 invalid]. cbn [fst] in Hid.
  destruct (validate invalid d0) as [[]|] eqn:Hv; [|done].
  apply validate_inv in Hv as [-> Hschema].
  unfold roundtrip. destruct (fault db); [done|]. cbn [bind].
  destruct (tasks db !! oid); [done|]. intros [= <- <-].
  by destruct Hid.
Qed.

(** What a [save] that resolved has done. *)
Lemma save_inv db now invalid d d' db' :
  save db now invalid d = Ok (d', db') ->
  invalid = [] /\ d' = pre_save now d /\ schema_errors d' = [] /\
  fault db = None /\
  db' = with_tasks db (<[Task._id d' := d']> (tasks db)).
Proof.
  unfold save.
  destruct (validate invalid (pre_save now d)) as [[]|] eqn:Hv; [|done].
  apply validate_inv in Hv as [-> Hschema].
  unfold roundtrip. destruct (fault db); [done|]. cbn [bind].
  by intros [= <- <-].
Qed.

Lemma cast_dueDate_castable v :
  castable v = true ->
  cast_dueDate v = Ok (match v with Some (Some d) => Some d | _ => None end).
Proof.
  destruct v as [[t|]|]; try done. cbn [castable cast_dueDate].
  unfold new_Date. by intros ->.
Qed.

Lemma castable_false v :
  castable v = false <-> exists t, v = Some (Some t) /\ new_Date t = None.
Proof.
  destruct v as [[t|]|]; cbn [castable]; unfold new_Date.
  - split.
    + intros Hc. exists t. by rewrite Hc.
    + intros (t' & [= <-] & Hn). by destruct (Z.abs t <=? max_time)%Z.
  - split; [done|]. by intros (t & [=] & _).
  - split; [done|]. by intros (t & [=] & _).
Qed.

Lemma isIn_nonempty values v :
  isIn values v = true -> ~ In EmptyString values -> truthy (Some v) = true.
Proof.
  intros Hin Hne. destruct v; [|done]. exfalso. apply Hne.
  unfold isIn in Hin. apply existsb_exists in Hin as (x & Hx & Heq).
  apply String.eqb_eq in Heq. by subst.
Qed.

Lemma status_truthy v : isIn statuses v = true -> truthy (Some v) = true.
Proof.
  intros Hin. apply (isIn_nonempty statuses); [done|].
  simpl. intuition discriminate.
Qed.

Lemma priority_truthy v : isIn priorities v = true -> truthy (Some v) = true.
Proof.
  intros Hin. apply (isIn_nonempty priorities); [done|].
  simpl. intuition discriminate.
Qed.

Lemma title_truthy v : isLength 3 100 v = true -> truthy (Some v) = true.
Proof.
  intros Hl%isLength_spec. destruct v; [simpl in Hl; lia|done].
Qed.

Lemma isLength_0 max s : isLength 0 max s = Nat.leb (String.length s) max.
Proof. reflexivity. Qed.

(** The chains of the create route record no error exactly when no rule
    is violated. *)
Lemma create_errors_nil b :
  (run_chains create_chains b).2 = [] <-> forall f, violated f b = false.
Proof.
  rewrite run_create_chains. cbn [snd]. rewrite !app_nil.
  split.
  - intros (Ht & Hd & Hs & Hp) f.
    destruct f; cbn [violated].
    + by destruct (isLength 3 100 _).
    + destruct (Body.description b); [|done].
      rewrite isLength_0 in Hd. by destruct (Nat.leb _ 500).
    + destruct (Body.status b); [|done]. by destruct (isIn statuses _).
    + destruct (Body.priority b); [|done]. by destruct (isIn priorities _).
  - intros Hall.
    pose proof (Hall Title) as Ht. pose proof (Hall Description) as Hd.
    pose proof (Hall Status) as Hs. pose proof (Hall Priority) as Hp.
    cbn [violated] in Ht, Hd, Hs, Hp.
    repeat split.
    + by destruct (isLength 3 100 _).
    + destruct (Body.description b); [|done].
      rewrite isLength_0. by destruct (Nat.leb _ 500).
    + destruct (Body.status b); [|done]. by destruct (isIn statuses _).
    + destruct (Body.priority b); [|done]. by destruct (isIn priorities _).
Qed.

Lemma field_name_inj f g : field_name f = field_name g -> f = g.
Proof. by destruct f, g. Qed.

(** An array of errors with one entry for each field that violates a
    rule names every such field, and no other. *)
Lemma params_name_violated (viol : Field -> bool) (errors : list VError.t) :
  VError.param <$> errors = field_name <$> List.filter viol fields ->
  forall f, viol f = true <->
            exists e, e ∈ errors /\ VError.param e = field_name f.
Proof.
  intros Hmap f. split.
  - intros Hf.
    assert (Hin : field_name f ∈ VError.param <$> errors).
    { rewrite Hmap. apply list_elem_of_fmap_2, list_elem_of_In, filter_In.
      split; [|done]. destruct f; cbn; auto. }
    apply list_elem_of_fmap in Hin as (e & He & Hin). by exists e.
  - intros (e & Hin & He).
    assert (Hf : field_name f ∈ field_name <$> List.filter viol fields).
    { rewrite <- Hmap, <- He. by apply list_elem_of_fmap_2. }
    apply list_elem_of_fmap in Hf as (g & Hg & Hf).
    apply field_name_inj in Hg as <-.
    by apply list_elem_of_In, filter_In in Hf as [_ Hf].
Qed.

(** The errors the chains of the create route record: one for each field
    that violates its rule, in the order of the chains. *)
Lemma create_errors_params b :
  VError.param <$> (run_chains create_chains b).2 =
  field_name <$> List.filter (fun f => violated f b) fields.
Proof.
  rewrite run_create_chains. cbn [snd].
  destruct b as [t d s p due usr];
    cbn [Body.title Body.description Body.status Body.priority].
  unfold fields.
  cbn [List.filter violated Body.title Body.description Body.status Body.priority].
  destruct (isLength 3 100 (trim (toString t)));
  destruct d as [d|]; rewrite ?isLength_0;
    try destruct (Nat.leb (String.length (trim d)) 500);
  destruct s as [s|]; try destruct (isIn statuses s);
  destruct p as [p|]; try destruct (isIn priorities p);
  reflexivity.
Qed.

(** C8, as the code has it.  A create body that violates one or more of
    the rules the validators apply (a title that, with surrounding white
    space removed, is shorter than 3 or longer than 100 characters, a
    missing title counting as empty; a description that, trimmed, is
    longer than 500; a status or priority that is sent and is outside
    its enumeration) is answered 400 'Validation failed', nothing is
    stored, and the [errors] array of the response has one entry for each
    violated field, in the order title, description, status, priority:
    it names every violated field and no other. *)
Theorem create_lists_every_violated_field
    db (oid : N) (now : Z) (u : User.t) (b : Body.t) :
  (exists f, violated f b = true) ->
  exists errors,
    POST_task db oid now u b =
      (Res.mk 400 false (Some "Validation failed") None Res.NoData None
              (Some errors), db) /\
    VError.param <$> errors =
      field_name <$> List.filter (fun f => violated f b) fields /\
    forall f, violated f b = true <->
              exists e, e ∈ errors /\ VError.param e = field_name f.
Proof.
  intros Hviol.
  exists (run_chains create_chains b).2. split; [|split].
  - unfold POST_task.
    destruct (run_chains create_chains b) as [b' errors] eqn:Hrun.
    destruct errors as [|e errors]; [|done].
    exfalso. destruct Hviol as [f Hf].
    assert (Hnil : (run_chains create_chains b).2 = []) by by rewrite Hrun.
    rewrite create_errors_nil in Hnil. by rewrite Hnil in Hf.
  - apply create_errors_params.
  - apply params_name_violated, create_errors_params.
Qed.

Lemma create_lists_every_violated_field_witness :
  let b := Body.mk (Some " a ") None (Some "done") (Some "urgent") None None in
  exists errors,
    POST_task Sample.db 20 Sample.now Sample.alice b =
      (Res.mk 400 false (Some "Validation failed") None Res.NoData None
              (Some errors), Sample.db) /\
    VError.param <$> errors = ["title"; "status"; "priority"].
Proof.
  intros b.
  destruct (create_lists_every_violated_field Sample.db 20 Sample.now Sample.alice b)
    as (errors & Hpost & Hparams & _).
  - exists Title. reflexivity.
  - exists errors. split; [exact Hpost|exact Hparams].
Defined.

(** C8, as the claim has it, fails: the lengths that count are those of
    the trimmed values.  A title sent with 101 characters, the last of
    which is a space, is longer than 100 and yet violates no rule of the
    validators: the answer is 201, without [errors], and the task is
    created with the 100 characters that remain as its title. *)
Lemma title_length_is_measured_after_trim :
  let title := String.concat EmptyString (repeat "a" 100) +:+ " " in
  let b := Body.mk (Some title) None None None None None in
  let res := (POST_task Sample.empty_db 20 Sample.now Sample.alice b).1 in
  String.length title = 101%nat /\
  isLength 3 100 title = false /\
  Res.status res = 201%Z /\
  Res.success res = true /\
  Res.errors res = None /\
  exists task, Res.payload res = Res.OneTask task /\
               String.length (Task.title task) = 100%nat.
Proof. vm_compute. repeat split. eexists. split; reflexivity. Qed.

(** ** Create *)

Lemma or_default_some v dflt :
  truthy (Some v) = true -> or_default (Some v) dflt = v.
Proof. unfold or_default. by intros ->. Qed.

(** What the create route hands to [Task.create] for a body that passes
    its chains becomes the document [created] describes, the due date
    aside. *)
Lemma build_sanitized (oid : N) (now : Z) (owner : N) (b : Body.t) :
  (forall f, violated f b = false) ->
  build oid now
    (mkNew (Some (trim (toString (Body.title b)))) (trim <$> Body.description b)
           (or_default (Body.status b) "pending")
           (or_default (Body.priority b) "medium")
           (Body.dueDate b) owner) =
  let d := created oid now owner b in
  match cast_dueDate (Body.dueDate b) with
  | Ok due =>
      (Task.mk oid (Task.title d) (Task.description d) (Task.status d)
               (Task.priority d) due owner now now, [])
  | Throw e =>
      (Task.mk oid (Task.title d) (Task.description d) (Task.status d)
               (Task.priority d) None owner now now,
       [("dueDate", Err.message e)])
  end.
Proof.
  intros Hrules.
  pose proof (Hrules Status) as Hs. pose proof (Hrules Priority) as Hp.
  cbn [violated] in Hs, Hp.
  unfold build, created.
  cbn [n_title n_description n_status n_priority n_dueDate n_user toString
       Task.title Task.description Task.status Task.priority].
  rewrite trim_idemp.
  assert (Hdesc : option_map trim (trim <$> Body.description b) =
                  trim <$> Body.description b).
  { destruct (Body.description b); [|done]. simpl. by rewrite trim_idemp. }
  assert (Hstatus : or_default (Body.status b) "pending" =
                    match Body.status b with Some v => v | None => "pending" end).
  { destruct (Body.status b) as [v|]; [|done].
    apply negb_false_iff in Hs. by rewrite or_default_some by by apply status_truthy. }
  assert (Hprio : or_default (Body.priority b) "medium" =
                  match Body.priority b with Some v => v | None => "medium" end).
  { destruct (Body.priority b) as [v|]; [|done].
    apply negb_false_iff in Hp. by rewrite or_default_some by by apply priority_truthy. }
  rewrite Hdesc, Hstatus, Hprio.
  by destruct (cast_dueDate (Body.dueDate b)).
Qed.

(** The document of a body that violates no rule passes the validators
    of the schema, whatever its due date. *)
Lemma created_schema_ok (oid : N) (now : Z) (owner : N) (b : Body.t) due :
  (forall f, violated f b = false) ->
  let d := created oid now owner b in
  schema_ok (Task.mk oid (Task.title d) (Task.description d) (Task.status d)
                     (Task.priority d) due owner now now) = true.
Proof.
  intros Hrules.
  pose proof (Hrules Title) as Ht. pose proof (Hrules Description) as Hd.
  pose proof (Hrules Status) as Hs. pose proof (Hrules Priority) as Hp.
  cbn [violated] in Ht, Hd, Hs, Hp.
  apply negb_false_iff in Ht.
  unfold schema_ok, created.
  cbn [Task.title Task.description Task.status Task.priority].
  rewrite Ht. cbn [andb].
  destruct (Body.description b) as [v|]; cbn [fmap option_fmap option_map].
  - apply negb_false_iff in Hd. rewrite isLength_0, Hd. cbn [andb].
    destruct (Body.status b) as [s|], (Body.priority b) as [p|];
      rewrite ?(proj1 (negb_false_iff _) Hs), ?(proj1 (negb_false_iff _) Hp); done.
  - destruct (Body.status b) as [s|], (Body.priority b) as [p|];
      rewrite ?(proj1 (negb_false_iff _) Hs), ?(proj1 (negb_false_iff _) Hp); done.
Qed.

(** A body that passes the chains of the create route, with a due date
    that can be cast, is stored as [created] describes, under the fresh
    identifier. *)
Lemma POST_task_stores db (oid : N) (now : Z) (u : User.t) (b : Body.t) :
  fault db = None -> tasks db !! oid = None ->
  (run_chains create_chains b).2 = [] -> castable (Body.dueDate b) = true ->
  POST_task db oid now u b =
  (Res.mk 201 true (Some "Task created successfully") None
          (Res.OneTask (created oid now (User._id u) b)) None None,
   with_tasks db (<[oid := created oid now (User._id u) b]> (tasks db))).
Proof.
  intros Hf Hfresh Hvalid Hdue.
  pose proof Hvalid as Hrules. rewrite create_errors_nil in Hrules.
  unfold POST_task. rewrite run_create_chains in Hvalid |- *.
  cbn [snd] in Hvalid. rewrite Hvalid.
  cbn [Body.title Body.description Body.status Body.priority Body.dueDate].
  unfold create. rewrite build_sanitized by done.
  rewrite cast_dueDate_castable by done. cbv beta iota zeta.
  pose proof (created_schema_ok oid now (User._id u) b
                (match Body.dueDate b with Some (Some d) => Some d | _ => None end)
                Hrules) as Hok.
  cbn zeta in Hok.
  rewrite validate_ok, roundtrip_ok by done. cbn [bind]. by rewrite Hfresh.
Qed.

(** A body that passes the chains but carries a due date that cannot be
    cast is rejected by [Task.create]; the route answers from its [catch]
    block and stores nothing. *)
Lemma POST_task_rejects db (oid : N) (now : Z) (u : User.t) (b : Body.t) (due : Z) :
  (run_chains create_chains b).2 = [] ->
  Body.dueDate b = Some (Some due) -> new_Date due = None ->
  POST_task db oid now u b =
    (storage_failure "Error creating task" (dueDate_rejected due), db).
Proof.
  intros Hvalid Hdue Hcast.
  pose proof Hvalid as Hrules. rewrite create_errors_nil in Hrules.
  unfold POST_task. rewrite run_create_chains in Hvalid |- *.
  cbn [snd] in Hvalid. rewrite Hvalid.
  cbn [Body.title Body.description Body.status Body.priority Body.dueDate].
  unfold create. rewrite build_sanitized by done.
  rewrite Hdue. cbn [cast_dueDate]. rewrite Hcast. cbv beta iota zeta.
  pose proof (created_schema_ok oid now (User._id u) b None Hrules) as Hok.
  cbn zeta in Hok. by rewrite validate_cast_failed.
Qed.

(** C6, as the code has it.  For a body that passes validation and
    whose due date, if one is sent, is an instant a [Date] can hold, a
    fresh identifier and a store that answers, create stores a task and a
    get by the same user returns it: title and description are the ones
    sent with surrounding white space trimmed, status, priority and due
    date are the ones sent, a status not sent is [pending], a priority
    not sent is [medium], and the owner is the caller. *)
Theorem create_then_get_returns_trimmed_input
    db (oid : N) (now : Z) (u : User.t) (b : Body.t) :
  fault db = None -> tasks db !! oid = None ->
  (run_chains create_chains b).2 = [] -> castable (Body.dueDate b) = true ->
  exists task db',
    POST_task db oid now u b =
      (Res.mk 201 true (Some "Task created successfully") None
              (Res.OneTask task) None None, db') /\
    GET_task db' u oid = Res.mk 200 true None None (Res.OneTask task) None None /\
    (exists v, Body.title b = Some v /\ Task.title task = trim v) /\
    Task.description task = trim <$> Body.description b /\
    Task.status task =
      match Body.status b with Some v => v | None => "pending" end /\
    Task.priority task =
      match Body.priority b with Some v => v | None => "medium" end /\
    Task.dueDate task =
      match Body.dueDate b with Some (Some d) => Some d | _ => None end /\
    Task.user task = User._id u.
Proof.
  intros Hf Hfresh Hvalid Hdue.
  exists (created oid now (User._id u) b).
  eexists. split; [by apply POST_task_stores|].
  split.
  - apply GET_task_owner.
    + done.
    + cbn [with_tasks tasks]. apply lookup_insert_eq.
    + done.
  - split; [|done].
    rewrite create_errors_nil in Hvalid. specialize (Hvalid Title).
    cbn [violated] in Hvalid. apply negb_false_iff in Hvalid.
    apply isLength_spec in Hvalid.
    unfold created. cbn [Task.title].
    destruct (Body.title b) as [v|]; [by exists v|].
    simpl in Hvalid. lia.
Qed.

Lemma create_then_get_returns_trimmed_input_witness :
  let b := Body.mk (Some "  Buy milk ") None None (Some "high")
                   (Some (Some 1700000600000%Z)) None in
  exists task db',
    POST_task Sample.empty_db 20 Sample.now Sample.alice b =
      (Res.mk 201 true (Some "Task created successfully") None
              (Res.OneTask task) None None, db') /\
    GET_task db' Sample.alice 20 =
      Res.mk 200 true None None (Res.OneTask task) None None /\
    Task.status task = "pending" /\ Task.priority task = "high" /\
    Task.dueDate task = Some 1700000600000%Z.
Proof.
  intros b.
  destruct (create_then_get_returns_trimmed_input
              Sample.empty_db 20 Sample.now Sample.alice b
              eq_refl eq_refl eq_refl eq_refl)
    as (task & db' & Hpost & Hget & _ & _ & Hs & Hp & Hd & _).
  exists task, db'. repeat split; assumption.
Defined.

(** C6, as the claim has it, fails: a title sent with surrounding white
    space comes back without it. *)
Lemma create_then_get_trims_title :
  let b := Body.mk (Some "  Buy milk ") None None None None None in
  let stored := Task.mk 20 "Buy milk" None "pending" "medium" None 1
                        Sample.now Sample.now in
  let db' := with_tasks Sample.empty_db (<[20%N := stored]> ∅) in
  POST_task Sample.empty_db 20 Sample.now Sample.alice b =
    (Res.mk 201 true (Some "Task created successfully") None
            (Res.OneTask stored) None None, db') /\
  GET_task db' Sample.alice 20 =
    Res.mk 200 true None None (Res.OneTask stored) None None /\
  Some (Task.title stored) <> Body.title b.
Proof.
  intros b stored db'. split; [|split].
  - apply (POST_task_stores Sample.empty_db 20 Sample.now Sample.alice b);
      reflexivity.
  - reflexivity.
  - discriminate.
Qed.

(** [POST /api/tasks] never reads the [user] field of the body. *)
Lemma POST_task_ignores_user db oid now u b x :
  POST_task db oid now u (with_user b x) = POST_task db oid now u b.
Proof.
  unfold POST_task. rewrite !run_create_chains. reflexivity.
Qed.

(** A 201 answer carries the stored task, owned by the caller the route
    was given. *)
Lemma POST_task_201 db oid now u b res db' :
  POST_task db oid now u b = (res, db') -> Res.status res = 201%Z ->
  exists task,
    Res.payload res = Res.OneTask task /\
    Task.user task = User._id u /\
    tasks db' !! oid = Some task.
Proof.
  unfold POST_task.
  destruct (run_chains create_chains b) as [b' errors].
  destruct errors as [|e errors].
  - destruct (create _ _ _ _) as [[task db'']|e] eqn:Hc.
    + intros [= <- <-] _. exists task.
      apply create_inv in Hc as (_ & _ & Hu & _ & _ & _ & ->).
      repeat split; [done|].
      cbn [with_tasks tasks]. apply lookup_insert_eq.
    + intros [= <- <-]. done.
  - intros [= <- <-]. done.
Qed.

Section GateNext.
Context `{Env}.

(** The gate answers 401 whenever it answers. *)
Lemma protect_rejects_401 db now authorization res :
  protect db now authorization = inl res -> Res.status res = 401%Z.
Proof.
  destruct (truthy authorization && startsWith (toString authorization) "Bearer")%bool
    eqn:Hb.
  - rewrite protect_bearer by done.
    destruct (jwt.verify _ _ _); [destruct (fault db)|];
      try destruct (users db !! _); by intros [= <-].
  - unfold protect. rewrite Hb. by intros [= <-].
Qed.

(** The gate lets a request through only with a token that verifies, and
    hands on the user the token names. *)
Lemma protect_next db now authorization user :
  protect db now authorization = inr user ->
  exists p u0,
    jwt.verify (split " " (toString authorization) !! 1%nat) JWT_SECRET now = Ok p /\
    users db !! jwt.id p = Some u0 /\
    user = User.without_password u0.
Proof.
  destruct (truthy authorization && startsWith (toString authorization) "Bearer")%bool
    eqn:Hb.
  - rewrite protect_bearer by done.
    destruct (jwt.verify _ _ _) as [p|e]; [|done].
    destruct (fault db); [done|].
    destruct (users db !! jwt.id p) as [u0|] eqn:Hu; [|done].
    intros [= <-]. by exists p, u0.
  - unfold protect. by rewrite Hb.
Qed.

(** A request the gate lets through is handled by the route. *)
Lemma protected_next (handler : User.t -> Res.t * Db) db now authorization user :
  protect db now authorization = inr user ->
  protected handler db now authorization = handler user.
Proof. unfold protected. by intros ->. Qed.

(** The gate lets a request through only when the store answered its
    lookup of the user. *)
Lemma protect_next_fault db now authorization user :
  protect db now authorization = inr user -> fault db = None.
Proof.
  destruct (truthy authorization && startsWith (toString authorization) "Bearer")%bool
    eqn:Hb.
  - rewrite protect_bearer by done.
    destruct (jwt.verify _ _ _) as [p|e]; [|done].
    by destruct (fault db).
  - unfold protect. by rewrite Hb.
Qed.

(** With the store down the gate turns every request away. *)
Lemma protected_fault (handler : User.t -> Res.t * Db) db now authorization :
  is_Some (fault db) ->
  exists m, protected handler db now authorization = (Res.failure 401 m, db).
Proof.
  intros [e He]. unfold protected.
  destruct (protect db now authorization) as [res|user] eqn:Hgate.
  - destruct (truthy authorization && startsWith (toString authorization) "Bearer")%bool
      eqn:Hb.
    + rewrite protect_bearer in Hgate by done. rewrite He in Hgate.
      destruct (jwt.verify _ _ _); injection Hgate as <-; by eexists.
    + unfold protect in Hgate. rewrite Hb in Hgate. injection Hgate as <-.
      by eexists.
  - apply protect_next_fault in Hgate. congruence.
Qed.

End GateNext.

(** C10.  Behind the gate, a create that answers 201 has stored a task
    whose owner is the user the bearer token names (a user that exists);
    whatever [user] field the body carries, response and store are the
    same. *)
Theorem created_task_belongs_to_caller `{Env}
    db (oid : N) (now : Z) (authorization : option string) (b : Body.t)
    (res : Res.t) (db' : Db) :
  consistent db ->
  protected (fun user => POST_task db oid now user b) db now authorization
    = (res, db') ->
  Res.status res = 201%Z ->
  exists p task,
    jwt.verify (split " " (toString authorization) !! 1%nat) JWT_SECRET now = Ok p /\
    is_Some (users db !! jwt.id p) /\
    Res.payload res = Res.OneTask task /\
    Task.user task = jwt.id p /\
    tasks db' !! oid = Some task /\
    forall x,
      protected (fun user => POST_task db oid now user (with_user b x))
                db now authorization = (res, db').
Proof.
  intros [_ Husers] Hrun Hstatus. unfold protected in *.
  destruct (protect db now authorization) as [r|user] eqn:Hgate.
  - injection Hrun as <- <-.
    apply protect_rejects_401 in Hgate. congruence.
  - destruct (protect_next _ _ _ _ Hgate) as (p & u0 & Hv & Hu & ->).
    destruct (POST_task_201 _ _ _ _ _ _ _ Hrun Hstatus) as (task & Hpay & Howner & Hstored).
    exists p, task. repeat split; try done.
    + rewrite Howner. cbn [User.without_password User._id].
      by apply (Husers (jwt.id p) u0).
    + intros x. by rewrite POST_task_ignores_user.
Qed.

Lemma created_task_belongs_to_caller_witness :
  let b := Body.mk (Some "Buy milk") None None None None (Some 2%N) in
  let authorization := Sample.bearer (@generateToken Sample.env 1 Sample.now) in
  let run := @protected Sample.env
               (fun user => POST_task Sample.empty_db 20 Sample.now user b)
               Sample.empty_db Sample.now authorization in
  Res.status run.1 = 201%Z /\
  exists task,
    Res.payload run.1 = Res.OneTask task /\
    Task.user task = 1%N /\
    tasks run.2 !! 20%N = Some task.
Proof.
  intros b authorization run.
  assert (Hcons : consistent Sample.empty_db).
  { split.
    - apply map_Forall_empty.
    - unfold Sample.empty_db, Sample.members. cbn [users].
      repeat apply map_Forall_insert_2; try reflexivity. apply map_Forall_empty. }
  split; [reflexivity|].
  destruct (@created_task_belongs_to_caller Sample.env Sample.empty_db 20 Sample.now
              authorization b run.1 run.2 Hcons)
    as (p & task & Hv & _ & Hpay & Howner & Hstored & _).
  - reflexivity.
  - reflexivity.
  - exists task. split; [exact Hpay|]. split; [|exact Hstored].
    rewrite Howner.
    assert (Hp : @jwt.verify Sample.env
                   (split " " (toString authorization) !! 1%nat) "s3cret" Sample.now =
                 Ok (jwt.mkPayload 1 1700000000 1702592000)) by reflexivity.
    change (@JWT_SECRET Sample.env) with "s3cret" in Hv.
    rewrite Hp in Hv. by injection Hv as <-.
Defined.

(** ** Update *)

(** What it means for the chains of the update route to record no error:
    every field that is sent passes its validator. *)
Lemma update_errors_nil b :
  (run_chains update_chains b).2 = [] ->
  (forall v, Body.title b = Some v -> isLength 3 100 (trim v) = true) /\
  (forall v, Body.description b = Some v -> isLength 0 500 (trim v) = true) /\
  (forall v, Body.status b = Some v -> isIn statuses v = true) /\
  (forall v, Body.priority b = Some v -> isIn priorities v = true).
Proof.
  rewrite run_update_chains. cbn [snd]. rewrite !app_nil.
  intros (Ht & Hd & Hs & Hp). repeat split; intros v Hv.
  - rewrite Hv in Ht. by destruct (isLength 3 100 _).
  - rewrite Hv in Hd. by destruct (isLength 0 500 _).
  - rewrite Hv in Hs. by destruct (isIn statuses _).
  - rewrite Hv in Hp. by destruct (isIn priorities _).
Qed.

(** The assignment of the due date comes last, after those of the other
    fields. *)
Lemma assign_dueDate t b :
  assign t b =
  let t0 := (assign t (Body.mk (Body.title b) (Body.description b)
                               (Body.status b) (Body.priority b) None
                               (Body.user b))).1 in
  match Body.dueDate b with
  | Some v => set_dueDate t0 v
  | None => (t0, [])
  end.
Proof. reflexivity. Qed.

(** The assignments of the route followed by the pre-save hook, on the
    sanitized body, give the document [updated] describes, and record no
    error, when the due date sent can be cast. *)
Lemma pre_save_assign t b now :
  (run_chains update_chains b).2 = [] -> castable (Body.dueDate b) = true ->
  (assign t (run_chains update_chains b).1).2 = [] /\
  pre_save now (assign t (run_chains update_chains b).1).1 = updated t b now.
Proof.
  intros (Ht & Hd & Hs & Hp)%update_errors_nil Hdue.
  assert (Hcast : forall v, Body.dueDate b = Some v -> cast_dueDate (Some v) = Ok v).
  { intros v Hv. rewrite Hv in Hdue. rewrite cast_dueDate_castable by done.
    by destruct v. }
  rewrite run_update_chains. cbn [fst].
  destruct b as [ti de st pr du us].
  cbn [Body.title Body.description Body.status Body.priority Body.dueDate] in *.
  unfold assign, updated.
  cbn [Body.title Body.description Body.status Body.priority Body.dueDate].
  destruct ti as [ti|]; cbn [fmap option_fmap option_map].
  2: destruct de as [de|]; cbn [fmap option_fmap option_map].
  1: rewrite (title_truthy (trim ti)) by auto;
     destruct de as [de|]; cbn [fmap option_fmap option_map].
  all: destruct st as [st|]; [rewrite (status_truthy st) by auto|];
       (destruct pr as [pr|]; [rewrite (priority_truthy pr) by auto|]);
       (destruct du as [du|]; [unfold set_dueDate; rewrite (Hcast du eq_refl)|]);
       cbn [truthy toString fst snd];
       unfold pre_save, set_priority, set_status, set_description, set_title;
       cbn [Task._id Task.title Task.description Task.status Task.priority
            Task.dueDate Task.user Task.createdAt Task.updatedAt];
       rewrite ?trim_idemp; split; reflexivity.
Qed.

Lemma schema_ok_updated t b now :
  schema_ok t = true -> (run_chains update_chains b).2 = [] ->
  schema_ok (updated t b now) = true.
Proof.
  intros Hok (Ht & Hd & Hs & Hp)%update_errors_nil.
  unfold schema_ok in *. unfold updated.
  cbn [Task.title Task.description Task.status Task.priority].
  apply andb_true_iff in Hok as [Hok Hpr].
  apply andb_true_iff in Hok as [Hok Hst].
  apply andb_true_iff in Hok as [Hti Hde].
  rewrite !andb_true_iff. repeat split.
  - destruct (Body.title b); auto.
  - destruct (Body.description b); auto.
  - destruct (Body.status b); auto.
  - destruct (Body.priority b); auto.
Qed.



(** ** Listing *)

Lemma string_leb_iff a b :
  String.leb a b = true <-> String_as_OT.lt a b \/ a = b.
Proof.
  unfold String.leb.
  destruct (String.compare a b) eqn:Hc.
  - apply String_as_OT.cmp_eq in Hc. intuition.
  - apply String_as_OT.cmp_lt in Hc. intuition.
  - split; [done|]. intros [Hlt| ->].
    + apply String_as_OT.cmp_lt in Hlt.
      unfold String_as_OT.cmp in Hlt. congruence.
    + assert (String.compare b b = Eq) by by apply String_as_OT.cmp_eq.
      congruence.
Qed.

Lemma string_leb_trans a b c :
  String.leb a b = true -> String.leb b c = true -> String.leb a c = true.
Proof.
  rewrite !string_leb_iff. intros [Hab| ->] [Hbc| ->]; auto.
  left. by apply String_as_OT.lt_trans with b.
Qed.

Lemma date_leb_total a b : date_leb a b = true \/ date_leb b a = true.
Proof. destruct a, b; simpl; auto. rewrite !Z.leb_le. lia. Qed.

Lemma date_leb_trans a b c :
  date_leb a b = true -> date_leb b c = true -> date_leb a c = true.
Proof. destruct a, b, c; simpl; auto; try done. rewrite !Z.leb_le. lia. Qed.

Lemma path_leb_total p a b : path_leb p a b = true \/ path_leb p b a = true.
Proof.
  destruct p; simpl.
  - rewrite !Z.leb_le. lia.
  - apply String.leb_total.
  - apply date_leb_total.
Qed.

Lemma path_leb_trans p a b c :
  path_leb p a b = true -> path_leb p b c = true -> path_leb p a c = true.
Proof.
  destruct p; simpl.
  - rewrite !Z.leb_le. lia.
  - apply string_leb_trans.
  - apply date_leb_trans.
Qed.

#[local] Instance sort_rel_total o : Total (sort_rel o).
Proof.
  intros a b. unfold sort_rel. destruct (direction o <? 0)%Z.
  - destruct (path_leb_total (path o) a b); auto.
  - apply path_leb_total.
Qed.

#[local] Instance sort_rel_trans o : Transitive (sort_rel o).
Proof.
  intros a b c. unfold sort_rel. destruct (direction o <? 0)%Z.
  - intros Hba Hcb. by apply path_leb_trans with b.
  - apply path_leb_trans.
Qed.

Lemma find_sorted_ok db q o :
  fault db = None ->
  find_sorted db q o =
  Ok (merge_sort (sort_rel o) (List.filter (matches q) (documents db))).
Proof. intros Hf. unfold find_sorted. by rewrite roundtrip_ok. Qed.

Lemma elem_of_documents db t :
  t ∈ documents db <-> exists k, tasks db !! k = Some t.
Proof.
  unfold documents. rewrite list_elem_of_fmap. split.
  - intros ([k t'] & -> & Hin). exists k. by apply elem_of_map_to_list.
  - intros (k & Hk). exists (k, t). split; [done|]. by apply elem_of_map_to_list.
Qed.

(** The filter the route builds selects the wanted tasks. *)
Lemma route_filter_wanted uid status priority t :
  matches
    (let query := mkFilter (Some uid) None None in
     let query := if truthy status
                  then mkFilter (f_user query) status (f_priority query)
                  else query in
     if truthy priority
     then mkFilter (f_user query) (f_status query) priority
     else query) t =
  wanted uid status priority t.
Proof.
  unfold wanted, matches.
  destruct status as [[|c s]|], priority as [[|c' p]|]; simpl;
    rewrite ?andb_true_r; reflexivity.
Qed.

(** The route's sort option orders as [listing_order] says. *)
Lemma route_sort_order sort a b :
  sort_rel
    match sort with
    | Some "oldest" => mkSort ByCreatedAt 1
    | Some "title" => mkSort ByTitle 1
    | Some "dueDate" => mkSort ByDueDate 1
    | _ => mkSort ByCreatedAt (-1)
    end a b <->
  listing_order sort a b.
Proof.
  assert (Hdefault :
    sort_rel (mkSort ByCreatedAt (-1)) a b <->
    (Task.createdAt b <= Task.createdAt a)%Z).
  { unfold sort_rel. simpl. apply Z.leb_le. }
  assert (Hdate :
    date_leb (Task.dueDate a) (Task.dueDate b) = true <->
    match Task.dueDate a, Task.dueDate b with
    | None, _ => True
    | Some _, None => False
    | Some x, Some y => (x <= y)%Z
    end).
  { destruct (Task.dueDate a), (Task.dueDate b); simpl;
      rewrite ?Z.leb_le; intuition discriminate. }
  unfold listing_order.
  repeat match goal with
         | |- context [match ?x with _ => _ end] =>
             is_var x; destruct x; try exact Hdefault
         end.
  - unfold sort_rel. simpl. apply Z.leb_le.
  - unfold sort_rel. simpl. done.
  - unfold sort_rel. simpl. exact Hdate.
Qed.

Lemma StronglySorted_impl {A} (R R' : relation A) l :
  (forall a b, R a b -> R' a b) -> StronglySorted R l -> StronglySorted R' l.
Proof.
  intros Himpl. induction 1 as [|x l Hl IH Hx]; constructor; [done|].
  eapply Forall_impl; [exact Hx|]. intros y. apply Himpl.
Qed.

(** C7.  With the store answering, [GET /api/tasks] answers 200 with a
    sequence that holds exactly the stored tasks of the caller that match
    the status and priority filters (an absent or empty filter matching
    everything), each as often as it is stored, counted in [count], and
    ordered as the sort key asks: [oldest] by creation time ascending,
    [title] by title ascending, [dueDate] by due date ascending, and
    [newest], no key or any other key by creation time descending. *)
Theorem list_returns_wanted_tasks_in_order
    db (u : User.t) (status priority sort : option string) :
  fault db = None ->
  exists l,
    GET_tasks db u status priority sort =
      Res.mk 200 true None (Some (length l)) (Res.Tasks l) None None /\
    l ≡ₚ List.filter (wanted (User._id u) status priority) (documents db) /\
    (forall t, t ∈ l <->
       (exists k, tasks db !! k = Some t) /\
       Task.user t = User._id u /\
       (truthy status = true -> status = Some (Task.status t)) /\
       (truthy priority = true -> priority = Some (Task.priority t))) /\
    StronglySorted (listing_order sort) l.
Proof.
  intros Hf.
  set (o := match sort with
            | Some "oldest" => mkSort ByCreatedAt 1
            | Some "title" => mkSort ByTitle 1
            | Some "dueDate" => mkSort ByDueDate 1
            | _ => mkSort ByCreatedAt (-1)
            end).
  set (docs := List.filter (wanted (User._id u) status priority) (documents db)).
  exists (merge_sort (sort_rel o) docs).
  assert (Hperm : merge_sort (sort_rel o) docs ≡ₚ docs)
    by apply merge_sort_Permutation.
  split; [|split; [done|split]].
  - unfold GET_tasks. fold o. rewrite find_sorted_ok by done.
    rewrite (filter_ext _ _ (route_filter_wanted (User._id u) status priority)).
    done.
  - intros t. rewrite Hperm. subst docs.
    rewrite list_elem_of_In, filter_In, <- list_elem_of_In, elem_of_documents.
    unfold wanted. rewrite !andb_true_iff, N.eqb_eq.
    assert (Hfilter : forall (f : option string) (v : string),
              (if truthy f then String.eqb (toString f) v else true) = true <->
              (truthy f = true -> f = Some v)).
    { intros [[|c f]|] v; cbn [truthy toString]; try (intuition discriminate).
      rewrite String.eqb_eq. split; [by intros ->|]. intros Heq.
      by injection (Heq eq_refl). }
    rewrite !Hfilter. intuition.
  - apply (StronglySorted_impl (sort_rel o) (listing_order sort)).
    + intros a b. apply route_sort_order.
    + apply StronglySorted_merge_sort; apply _.
Qed.

Lemma list_returns_wanted_tasks_in_order_witness :
  exists l,
    GET_tasks Sample.db Sample.alice None None (Some "title") =
      Res.mk 200 true None (Some 2%nat) (Res.Tasks l) None None /\
    l = [Sample.report; Sample.milk] /\
    StronglySorted (listing_order (Some "title")) l.
Proof.
  destruct (list_returns_wanted_tasks_in_order
              Sample.db Sample.alice None None (Some "title") eq_refl)
    as (l & Hget & _ & _ & Hsorted).
  assert (Hrun : GET_tasks Sample.db Sample.alice None None (Some "title") =
                 Res.mk 200 true None (Some 2%nat)
                        (Res.Tasks [Sample.report; Sample.milk]) None None)
    by (vm_compute; reflexivity).
  rewrite Hrun in Hget. injection Hget as Hlen Hl. subst l.
  exists [Sample.report; Sample.milk]. split; [reflexivity|]. split; [reflexivity|].
  exact Hsorted.
Defined.

(** ** The invariant is kept *)

Lemma consistent_insert db d :
  consistent db -> schema_errors d = [] ->
  consistent (with_tasks db (<[Task._id d := d]> (tasks db))).
Proof.
  intros [Ht Hu] Hd. split; [|done].
  cbn [with_tasks tasks]. by apply map_Forall_insert_2.
Qed.

Lemma consistent_delete db id :
  consistent db -> consistent (with_tasks db (delete id (tasks db))).
Proof.
  intros [Ht Hu]. split; [|done].
  cbn [with_tasks tasks]. by apply map_Forall_delete.
Qed.

(** X1.  Creating, updating and deleting through the routes keep the
    store consistent: whatever the request and its outcome, every stored
    task is still filed under its own [_id] and still passes the schema. *)
Lemma routes_keep_consistent db (oid id : N) (now : Z) (u : User.t) (b : Body.t) :
  consistent db ->
  consistent (POST_task db oid now u b).2 /\
  consistent (PUT_task db now u id b).2 /\
  consistent (DELETE_task db u id).2.
Proof.
  intros Hc. split; [|split].
  - unfold POST_task.
    destruct (run_chains create_chains b) as [b' [|e errors]]; [|done].
    destruct (create _ _ _ _) as [[task db']|e] eqn:Hcreate; [|done].
    apply create_inv in Hcreate as (_ & <- & _ & Hschema & _ & _ & ->).
    cbn [snd]. by apply consistent_insert.
  - unfold PUT_task.
    destruct (run_chains update_chains b) as [b' [|e errors]]; [|done].
    destruct (findOne db id (User._id u)) as [[task|]|e]; cbn [bind]; try done.
    destruct (assign task b') as [task' invalid].
    destruct (save db now invalid task') as [[saved db']|e] eqn:Hsave;
      cbn [bind]; [|done].
    apply save_inv in Hsave as (_ & _ & Hschema & _ & ->).
    cbn [snd]. by apply consistent_insert.
  - unfold DELETE_task, findOneAndDelete.
    destruct (findOne db id (User._id u)) as [[task|]|e]; cbn [bind]; try done.
    cbn [snd]. by apply consistent_delete.
Qed.

(* ===================================================================== *)
(** * Further properties of the routes *)
(* ===================================================================== *)

(** ** What a route does to the store *)

Lemma findOne_inv db id uid :
  match findOne db id uid with
  | Ok (Some d) =>
      fault db = None /\ tasks db !! id = Some d /\ Task.user d = uid
  | Ok None =>
      fault db = None /\ forall d, tasks db !! id = Some d -> Task.user d <> uid
  | Throw e => fault db = Some e
  end.
Proof.
  unfold findOne, roundtrip. destruct (fault db) as [e|]; cbn [bind]; [done|].
  destruct (tasks db !! id) as [d|]; [|by split].
  rewrite matches_user. destruct (N.eqb_spec uid (Task.user d)) as [->|Hne].
  - done.
  - split; [done|]. intros d' [= <-]. congruence.
Qed.

Lemma assign_frame t b :
  Task._id (assign t b).1 = Task._id t /\
  Task.user (assign t b).1 = Task.user t /\
  Task.createdAt (assign t b).1 = Task.createdAt t.
Proof.
  unfold assign, set_dueDate.
  destruct (truthy (Body.title b)), (Body.description b),
           (truthy (Body.status b)), (truthy (Body.priority b)),
           (Body.dueDate b) as [v|]; try destruct (cast_dueDate (Some v)); done.
Qed.

Lemma POST_task_outcome db oid now u b :
  let '(res, db') := POST_task db oid now u b in
  (db' = db /\ (Res.status res = 400%Z \/ Res.status res = 500%Z) /\
   Res.success res = false) \/
  (exists d,
     fault db = None /\ tasks db !! oid = None /\
     Task._id d = oid /\ Task.user d = User._id u /\ schema_errors d = [] /\
     db' = with_tasks db (<[oid := d]> (tasks db)) /\
     res = Res.mk 201 true (Some "Task created successfully") None
                  (Res.OneTask d) None None).
Proof.
  unfold POST_task.
  destruct (run_chains create_chains b) as [b' [|e errors]]; [|left; auto].
  destruct (create _ _ _ _) as [[d db']|e] eqn:Hcreate; [|left; auto].
  apply create_inv in Hcreate as (_ & Hid & Hu & Hschema & Hf & Hfresh & ->).
  right. by exists d.
Qed.

Lemma PUT_task_outcome db now u id b :
  let '(res, db') := PUT_task db now u id b in
  (db' = db /\
   (Res.status res = 400%Z \/ Res.status res = 404%Z \/ Res.status res = 500%Z) /\
   Res.success res = false) \/
  (exists d d',
     fault db = None /\ tasks db !! id = Some d /\ Task.user d = User._id u /\
     Task._id d' = Task._id d /\ Task.user d' = Task.user d /\
     Task.createdAt d' = Task.createdAt d /\ Task.updatedAt d' = now /\
     schema_errors d' = [] /\
     db' = with_tasks db (<[Task._id d' := d']> (tasks db)) /\
     res = Res.mk 200 true (Some "Task updated successfully") None
                  (Res.OneTask d') None None).
Proof.
  unfold PUT_task.
  destruct (run_chains update_chains b) as [b' [|e errors]]; [|left; auto].
  pose proof (findOne_inv db id (User._id u)) as Hfind.
  destruct (findOne db id (User._id u)) as [[d|]|e]; cbn [bind];
    [|left; auto|left; auto].
  destruct Hfind as (Hf & Hd & Hu).
  destruct (assign_frame d b') as (Hid & Howner & Hcreated).
  destruct (assign d b') as [d0 invalid]. cbn [fst] in Hid, Howner, Hcreated.
  destruct (save db now invalid d0) as [[d' db']|e] eqn:Hsave;
    cbn [bind fst snd]; [|left; auto].
  apply save_inv in Hsave as (_ & -> & Hschema & _ & ->).
  right. exists d, (pre_save now d0). repeat split; done.
Qed.

Lemma DELETE_task_outcome db u id :
  let '(res, db') := DELETE_task db u id in
  (db' = db /\ (Res.status res = 404%Z \/ Res.status res = 500%Z) /\
   Res.success res = false) \/
  (exists d,
     fault db = None /\ tasks db !! id = Some d /\ Task.user d = User._id u /\
     db' = with_tasks db (delete id (tasks db)) /\
     res = Res.mk 200 true (Some "Task deleted successfully") None
                  (Res.OneTask d) None None).
Proof.
  unfold DELETE_task, findOneAndDelete.
  pose proof (findOne_inv db id (User._id u)) as Hfind.
  destruct (findOne db id (User._id u)) as [[d|]|e]; cbn [bind];
    [|left; auto|left; auto].
  destruct Hfind as (Hf & Hd & Hu). right. by exists d.
Qed.

Lemma Sample_db_consistent : consistent Sample.db.
Proof.
  split.
  - unfold Sample.db. cbn [tasks].
    repeat apply map_Forall_insert_2; try (split; reflexivity).
    apply map_Forall_empty.
  - unfold Sample.db, Sample.members. cbn [users].
    repeat apply map_Forall_insert_2; try reflexivity. apply map_Forall_empty.
Qed.

Ltac sample_consistent :=
  split;
  [ unfold Sample.db, Sample.empty_db; cbn [tasks];
    repeat apply map_Forall_insert_2; try (split; reflexivity);
    apply map_Forall_empty
  | unfold Sample.db, Sample.empty_db, Sample.members; cbn [users];
    repeat apply map_Forall_insert_2; try reflexivity;
    apply map_Forall_empty ].

Lemma routes_keep_consistent_witness :
  consistent
    (POST_task Sample.db 20 Sample.now Sample.alice
       (Body.mk (Some "Buy bread") None None None None None)).2 /\
  consistent
    (PUT_task Sample.db Sample.now Sample.alice 10
       (Body.mk None None (Some "completed") None None None)).2 /\
  consistent (DELETE_task Sample.db Sample.bob 12).2.
Proof.
  assert (Hc : consistent Sample.db) by sample_consistent.
  split; [|split].
  - apply (routes_keep_consistent Sample.db 20 10 Sample.now Sample.alice _ Hc).
  - apply (routes_keep_consistent Sample.db 20 10 Sample.now Sample.alice _ Hc).
  - apply (routes_keep_consistent Sample.db 20 12 Sample.now Sample.bob
             (Body.mk None None None None None None) Hc).
Defined.

(** X2.  In a consistent store, a create, an update or a delete by one
    user never adds, changes or removes a task of another user, and never
    touches the users: the tasks that are not the caller's are the same
    before and after, under the same identifiers. *)
Theorem routes_leave_other_users_tasks
    db (oid id : N) (now : Z) (u : User.t) (b : Body.t) (db' : Db) :
  consistent db ->
  db' = (POST_task db oid now u b).2 \/
  db' = (PUT_task db now u id b).2 \/
  db' = (DELETE_task db u id).2 ->
  users db' = users db /\ fault db' = fault db /\
  forall k t, Task.user t <> User._id u ->
    (tasks db' !! k = Some t <-> tasks db !! k = Some t).
Proof.
  intros [Htasks _] [->|[->| ->]].
  - pose proof (POST_task_outcome db oid now u b) as Hout.
    destruct (POST_task db oid now u b) as [res db'].
    destruct Hout as [(-> & _)|(d & _ & Hfresh & _ & Hu & _ & -> & _)]; [done|].
    cbn [snd with_tasks users fault tasks]. repeat split; try done.
    + destruct (decide (k = oid)) as [->|Hk].
      * rewrite lookup_insert_eq. intros [= <-]. congruence.
      * by rewrite lookup_insert_ne.
    + destruct (decide (k = oid)) as [->|Hk]; [congruence|].
      by rewrite lookup_insert_ne.
  - pose proof (PUT_task_outcome db now u id b) as Hout.
    destruct (PUT_task db now u id b) as [res db'].
    destruct Hout as [(-> & _)|(d & d' & _ & Hd & Hu & Hid & Hu' & _ & _ & _ & -> & _)];
      [done|].
    destruct (Htasks id d Hd) as [Hkey _].
    cbn [snd with_tasks users fault tasks]. rewrite Hid, Hkey.
    repeat split; try done.
    + destruct (decide (k = id)) as [->|Hk].
      * rewrite lookup_insert_eq. intros [= <-]. congruence.
      * by rewrite lookup_insert_ne.
    + destruct (decide (k = id)) as [->|Hk].
      * rewrite Hd. intros [= <-]. congruence.
      * by rewrite lookup_insert_ne.
  - pose proof (DELETE_task_outcome db u id) as Hout.
    destruct (DELETE_task db u id) as [res db'].
    destruct Hout as [(-> & _)|(d & _ & Hd & Hu & -> & _)]; [done|].
    cbn [snd with_tasks users fault tasks]. repeat split; try done.
    + destruct (decide (k = id)) as [->|Hk].
      * by rewrite lookup_delete_eq.
      * by rewrite lookup_delete_ne.
    + destruct (decide (k = id)) as [->|Hk].
      * rewrite Hd. intros [= <-]. congruence.
      * by rewrite lookup_delete_ne.
Qed.

Lemma routes_leave_other_users_tasks_witness :
  tasks (DELETE_task Sample.db Sample.alice 10).2 !! 12%N = Some Sample.taxes /\
  tasks (PUT_task Sample.db Sample.now Sample.alice 10
           (Body.mk (Some "Buy bread") None None None None None)).2 !! 12%N =
    Some Sample.taxes.
Proof.
  assert (Hc : consistent Sample.db) by sample_consistent.
  split.
  - apply (routes_leave_other_users_tasks Sample.db 20 10 Sample.now Sample.alice
             (Body.mk None None None None None None) _ Hc).
    + right. right. reflexivity.
    + vm_compute. discriminate.
    + reflexivity.
  - apply (routes_leave_other_users_tasks Sample.db 20 10 Sample.now Sample.alice
             (Body.mk (Some "Buy bread") None None None None None) _ Hc).
    + right. left. reflexivity.
    + vm_compute. discriminate.
    + reflexivity.
Defined.

(** X3.  A create, an update or a delete that does not answer 2xx leaves
    the store exactly as it was. *)
Theorem failed_request_changes_nothing
    db (oid id : N) (now : Z) (u : User.t) (b : Body.t) :
  (resolves (POST_task db oid now u b).1 = false ->
   (POST_task db oid now u b).2 = db) /\
  (resolves (PUT_task db now u id b).1 = false ->
   (PUT_task db now u id b).2 = db) /\
  (resolves (DELETE_task db u id).1 = false ->
   (DELETE_task db u id).2 = db).
Proof.
  split; [|split].
  - pose proof (POST_task_outcome db oid now u b) as Hout.
    destruct (POST_task db oid now u b) as [res db'].
    destruct Hout as [(-> & _)|(d & _ & _ & _ & _ & _ & _ & ->)]; [done|].
    discriminate.
  - pose proof (PUT_task_outcome db now u id b) as Hout.
    destruct (PUT_task db now u id b) as [res db'].
    destruct Hout as [(-> & _)|(d & d' & _ & _ & _ & _ & _ & _ & _ & _ & _ & ->)];
      [done|].
    discriminate.
  - pose proof (DELETE_task_outcome db u id) as Hout.
    destruct (DELETE_task db u id) as [res db'].
    destruct Hout as [(-> & _)|(d & _ & _ & _ & _ & ->)]; [done|].
    discriminate.
Qed.

Lemma failed_request_changes_nothing_witness :
  (POST_task Sample.db 20 Sample.now Sample.alice
     (Body.mk (Some "ab") None None None None None)).2 = Sample.db /\
  (PUT_task Sample.db Sample.now Sample.bob 10
     (Body.mk (Some "Stolen") None None None None None)).2 = Sample.db /\
  (DELETE_task Sample.db Sample.bob 10).2 = Sample.db.
Proof.
  split; [|split].
  - apply (proj1 (failed_request_changes_nothing
                    Sample.db 20 10 Sample.now Sample.alice _)).
    reflexivity.
  - apply (proj1 (proj2 (failed_request_changes_nothing
                           Sample.db 20 10 Sample.now Sample.bob _))).
    reflexivity.
  - apply (proj2 (proj2 (failed_request_changes_nothing
                           Sample.db 20 10 Sample.now Sample.bob
                           (Body.mk None None None None None None)))).
    reflexivity.
Defined.

(** ** The shape of a response *)

Ltac shape :=
  unfold well_formed, storage_failure, not_found, validation_failed, Res.failure;
  cbn [Res.status Res.success Res.error Res.errors Res.payload In];
  repeat split; intros; try lia; try done; try (by eexists);
  try (match goal with H : is_Some None |- _ => by destruct H end);
  try (match goal with H : _ <-> _ |- _ => idtac end);
  auto 10.

Lemma well_formed_storage_failure m e : well_formed (storage_failure m e).
Proof. shape. Qed.

Lemma well_formed_failure code m :
  In code [400; 401; 404]%Z -> well_formed (Res.failure code m).
Proof.
  intros Hin. cbn [In] in Hin.
  destruct Hin as [<-|[<-|[<-|[]]]]; shape.
Qed.

Lemma well_formed_validation_failed errors :
  well_formed (validation_failed errors).
Proof. shape. Qed.

Lemma well_formed_task code m task :
  In code [200; 201]%Z ->
  well_formed (Res.mk code true m None (Res.OneTask task) None None).
Proof.
  intros Hin. cbn [In] in Hin.
  destruct Hin as [<-|[<-|[]]]; shape.
Qed.

Lemma well_formed_tasks n l :
  well_formed (Res.mk 200 true None n (Res.Tasks l) None None).
Proof. shape. Qed.

(** X4.  Every response of the six task routes, and every response of
    the gate, has one of the status codes 200, 201, 400, 401, 404 and
    500, has [success: true] exactly when the status is 2xx, carries
    [data] exactly then, carries an [error] key exactly on 500, and
    carries an [errors] array only on 400 (the 400 of the search route
    has none). *)
Theorem responses_are_well_formed `{Env} `{TextIndex}
    db (oid id : N) (now : Z) (u : User.t) (b : Body.t)
    (status priority sort q authorization : option string) :
  well_formed (GET_tasks db u status priority sort) /\
  well_formed (GET_search db u q) /\
  well_formed (GET_task db u id) /\
  well_formed (POST_task db oid now u b).1 /\
  well_formed (PUT_task db now u id b).1 /\
  well_formed (DELETE_task db u id).1 /\
  (forall res, protect db now authorization = inl res -> well_formed res).
Proof.
  split_and!.
  - unfold GET_tasks. destruct (find_sorted _ _ _).
    + apply well_formed_tasks.
    + apply well_formed_storage_failure.
  - unfold GET_search. destruct (negb (truthy q)).
    + apply well_formed_failure. cbn. auto.
    + destruct (find_text _ _ _).
      * apply well_formed_tasks.
      * apply well_formed_storage_failure.
  - unfold GET_task. destruct (findOne _ _ _) as [[d|]|e].
    + apply well_formed_task. cbn. auto.
    + apply well_formed_failure. cbn. auto.
    + apply well_formed_storage_failure.
  - unfold POST_task.
    destruct (run_chains create_chains b) as [b' [|e errors]].
    + destruct (create _ _ _ _) as [[task db']|e].
      * apply well_formed_task. cbn. auto.
      * apply well_formed_storage_failure.
    + apply well_formed_validation_failed.
  - unfold PUT_task.
    destruct (run_chains update_chains b) as [b' [|e errors]].
    + destruct (findOne _ _ _) as [[d|]|e]; cbn [bind].
      * destruct (assign d b') as [d0 invalid].
        destruct (save _ _ _ _) as [[task db']|e]; cbn [bind fst].
        -- apply well_formed_task. cbn. auto.
        -- apply well_formed_storage_failure.
      * apply well_formed_failure. cbn. auto.
      * apply well_formed_storage_failure.
    + apply well_formed_validation_failed.
  - unfold DELETE_task, findOneAndDelete.
    destruct (findOne _ _ _) as [[d|]|e]; cbn [bind fst].
    + apply well_formed_task. cbn. auto.
    + apply well_formed_failure. cbn. auto.
    + apply well_formed_storage_failure.
  - intros res Hres.
    destruct (truthy authorization && startsWith (toString authorization) "Bearer")%bool
      eqn:Hb.
    + rewrite protect_bearer in Hres by done.
      destruct (jwt.verify _ _ _); [destruct (fault db)|];
        try destruct (users db !! _); try done;
        injection Hres as <-; apply well_formed_failure; cbn; auto.
    + unfold protect in Hres. rewrite Hb in Hres. injection Hres as <-.
      apply well_formed_failure. cbn. auto.
Qed.

(** ** Not found, whoever asks *)

Lemma findOne_hidden db id uid :
  fault db = None ->
  (forall d, tasks db !! id = Some d -> Task.user d <> uid) ->
  findOne db id uid = Ok None.
Proof.
  intros Hf Hhidden.
  destruct (tasks db !! id) as [d|] eqn:Hd.
  - apply (findOne_other db id uid d); auto.
  - by apply findOne_missing.
Qed.

(** X5.  With the store answering, an update (with a body that passes
    validation) or a delete of an identifier under which the caller owns
    no task, be it unused or another user's, answers the same 404 'Task
    not found' and changes nothing. *)
Theorem update_and_delete_hide_foreign_tasks
    db (now : Z) (u : User.t) (id : N) (b : Body.t) :
  fault db = None ->
  (forall d, tasks db !! id = Some d -> Task.user d <> User._id u) ->
  DELETE_task db u id = (not_found, db) /\
  ((run_chains update_chains b).2 = [] ->
   PUT_task db now u id b = (not_found, db)).
Proof.
  intros Hf Hhidden. split.
  - unfold DELETE_task, findOneAndDelete. by rewrite findOne_hidden.
  - intros Hvalid. unfold PUT_task.
    destruct (run_chains update_chains b) as [b' errors].
    cbn [snd] in Hvalid. subst errors. by rewrite findOne_hidden.
Qed.

Lemma update_and_delete_hide_foreign_tasks_witness :
  DELETE_task Sample.db Sample.bob 10 = (not_found, Sample.db) /\
  DELETE_task Sample.db Sample.bob 99 = (not_found, Sample.db) /\
  PUT_task Sample.db Sample.now Sample.bob 10
    (Body.mk (Some "Stolen") None None None None None) = (not_found, Sample.db).
Proof.
  assert (Hmilk : forall d, tasks Sample.db !! 10%N = Some d ->
                            Task.user d <> User._id Sample.bob).
  { intros d [= <-]. vm_compute. discriminate. }
  assert (Hnone : forall d, tasks Sample.db !! 99%N = Some d ->
                            Task.user d <> User._id Sample.bob).
  { intros d [=]. }
  split; [|split].
  - exact (proj1 (update_and_delete_hide_foreign_tasks
                    Sample.db Sample.now Sample.bob 10
                    (Body.mk None None None None None None) eq_refl Hmilk)).
  - exact (proj1 (update_and_delete_hide_foreign_tasks
                    Sample.db Sample.now Sample.bob 99
                    (Body.mk None None None None None None) eq_refl Hnone)).
  - apply (proj2 (update_and_delete_hide_foreign_tasks
                    Sample.db Sample.now Sample.bob 10
                    (Body.mk (Some "Stolen") None None None None None)
                    eq_refl Hmilk)).
    reflexivity.
Defined.

(** ** Validation comes first *)

Lemma update_errors_nil_iff b :
  (run_chains update_chains b).2 = [] <-> forall f, violated_update f b = false.
Proof.
  split.
  - intros (Ht & Hd & Hs & Hp)%update_errors_nil f.
    destruct f; cbn [violated_update violated].
    + destruct (Body.title b) as [v|]; [|done]. by rewrite Ht.
    + destruct (Body.description b) as [v|]; [|done].
      rewrite <- isLength_0. by rewrite Hd.
    + destruct (Body.status b) as [v|]; [|done]. by rewrite Hs.
    + destruct (Body.priority b) as [v|]; [|done]. by rewrite Hp.
  - intros Hall.
    pose proof (Hall Title) as Ht. pose proof (Hall Description) as Hd.
    pose proof (Hall Status) as Hs. pose proof (Hall Priority) as Hp.
    cbn [violated_update violated] in Ht, Hd, Hs, Hp.
    rewrite run_update_chains. cbn [snd]. rewrite !app_nil. repeat split.
    + destruct (Body.title b); [|done]. by destruct (isLength 3 100 _).
    + destruct (Body.description b); [|done].
      rewrite isLength_0. by destruct (Nat.leb _ 500).
    + destruct (Body.status b); [|done]. by destruct (isIn statuses _).
    + destruct (Body.priority b); [|done]. by destruct (isIn priorities _).
Qed.

(** The errors the chains of the update route record: one for each field
    that violates its rule, in the order of the chains. *)
Lemma update_errors_params b :
  VError.param <$> (run_chains update_chains b).2 =
  field_name <$> List.filter (fun f => violated_update f b) fields.
Proof.
  rewrite run_update_chains. cbn [snd].
  destruct b as [t d s p due usr];
    cbn [Body.title Body.description Body.status Body.priority].
  unfold fields.
  cbn [List.filter violated_update violated
       Body.title Body.description Body.status Body.priority].
  destruct t as [t|]; try destruct (isLength 3 100 (trim t));
  destruct d as [d|]; rewrite ?isLength_0;
    try destruct (Nat.leb (String.length (trim d)) 500);
  destruct s as [s|]; try destruct (isIn statuses s);
  destruct p as [p|]; try destruct (isIn priorities p);
  reflexivity.
Qed.

(** X6.  Behind the gate, an update body that violates a rule (a title
    that is sent and, trimmed, is shorter than 3 or longer than 100
    characters, a description that is sent and, trimmed, is longer than
    500, a status or priority that is sent and is outside its
    enumeration) is answered 400 'Validation failed' before the task is
    looked up: for every request the gate lets through the answer is the
    same whatever is stored and whatever the identifier (so also for a
    task that does not exist or is another user's), nothing is changed,
    and the [errors] array of the response has one entry for each
    violated field, in the order of the chains.  Only the gate comes
    before the validators: with the store down it has answered 401. *)
Theorem update_validates_before_lookup `{Env} (b : Body.t) :
  (exists f, violated_update f b = true) ->
  exists errors,
    VError.param <$> errors =
      field_name <$> List.filter (fun f => violated_update f b) fields /\
    (forall f, violated_update f b = true <->
               exists e, e ∈ errors /\ VError.param e = field_name f) /\
    forall db now authorization id,
      let served :=
        protected (fun user => PUT_task db now user id b) db now authorization in
      ((exists user, protect db now authorization = inr user) ->
       served = (Res.mk 400 false (Some "Validation failed") None Res.NoData
                        None (Some errors), db)) /\
      (is_Some (fault db) -> exists m, served = (Res.failure 401 m, db)).
Proof.
  intros Hviol.
  exists (run_chains update_chains b).2. split; [|split].
  - apply update_errors_params.
  - apply params_name_violated, update_errors_params.
  - intros db now authorization id served. subst served. split.
    + intros [user Hgate]. rewrite (protected_next _ _ _ _ user) by done.
      unfold PUT_task.
      destruct (run_chains update_chains b) as [b' errors] eqn:Hrun.
      destruct errors as [|e errors]; [|done].
      exfalso. destruct Hviol as [f Hf].
      assert (Hnil : (run_chains update_chains b).2 = []) by by rewrite Hrun.
      rewrite update_errors_nil_iff in Hnil. by rewrite Hnil in Hf.
    + apply protected_fault.
Qed.

Lemma update_validates_before_lookup_witness :
  let b := Body.mk (Some "x") None (Some "done") None None None in
  let authorization := Sample.bearer (@generateToken Sample.env 2 Sample.now) in
  exists errors,
    VError.param <$> errors = ["title"; "status"] /\
    @protected Sample.env (fun user => PUT_task Sample.db Sample.now user 10 b)
       Sample.db Sample.now authorization =
      (Res.mk 400 false (Some "Validation failed") None Res.NoData None
              (Some errors), Sample.db) /\
    @protected Sample.env (fun user => PUT_task Sample.db Sample.now user 99 b)
       Sample.db Sample.now authorization =
      (Res.mk 400 false (Some "Validation failed") None Res.NoData None
              (Some errors), Sample.db) /\
    exists m,
      @protected Sample.env (fun user => PUT_task Sample.broken Sample.now user 10 b)
         Sample.broken Sample.now authorization =
        (Res.failure 401 m, Sample.broken).
Proof.
  intros b authorization.
  destruct (@update_validates_before_lookup Sample.env b)
    as (errors & Hparams & _ & Hserved).
  - exists Title. reflexivity.
  - exists errors. split; [exact Hparams|].
    assert (Hgate : exists user,
              @protect Sample.env Sample.db Sample.now authorization = inr user).
    { eexists. reflexivity. }
    split; [|split].
    + apply (proj1 (Hserved Sample.db Sample.now authorization 10%N)), Hgate.
    + apply (proj1 (Hserved Sample.db Sample.now authorization 99%N)), Hgate.
    + apply (proj2 (Hserved Sample.broken Sample.now authorization 10%N)).
      by eexists.
Defined.

(** An update that finds its task and has a body that passes validation,
    with a due date that can be cast, saves the document [updated]
    describes. *)
Lemma PUT_task_saves db (now : Z) (u : User.t) (id : N) (b : Body.t) (t : Task.t) :
  consistent db -> fault db = None ->
  tasks db !! id = Some t -> Task.user t = User._id u ->
  (run_chains update_chains b).2 = [] -> castable (Body.dueDate b) = true ->
  PUT_task db now u id b =
    (Res.mk 200 true (Some "Task updated successfully") None
            (Res.OneTask (updated t b now)) None None,
     with_tasks db (<[id := updated t b now]> (tasks db))).
Proof.
  intros [Htasks _] Hf Ht Hu Hvalid Hdue.
  destruct (Htasks id t Ht) as [Hid Hschema].
  unfold PUT_task.
  pose proof (pre_save_assign t b now Hvalid Hdue) as [Hnone Hassign].
  assert (Hok : schema_ok (updated t b now) = true).
  { apply schema_ok_updated; [by apply schema_errors_nil|done]. }
  destruct (run_chains update_chains b) as [b' errors].
  cbn [snd] in Hvalid. cbn [fst] in Hassign, Hnone. subst errors.
  rewrite (findOne_owner db id (User._id u) t) by done. cbn [bind].
  destruct (assign t b') as [t0 invalid]. cbn [fst snd] in Hassign, Hnone.
  subst invalid. unfold save. rewrite Hassign.
  rewrite validate_ok, roundtrip_ok by done.
  cbn [bind fst snd]. unfold updated at 2. cbn [Task._id]. by rewrite Hid.
Qed.

(** An update that finds its task and has a body that passes validation,
    but carries a due date that cannot be cast, is rejected by
    [task.save()]; the route answers from its [catch] block and the
    stored task stays as it was. *)
Lemma PUT_task_rejects db (now : Z) (u : User.t) (id : N) (b : Body.t)
    (t : Task.t) (due : Z) :
  consistent db -> fault db = None ->
  tasks db !! id = Some t -> Task.user t = User._id u ->
  (run_chains update_chains b).2 = [] ->
  Body.dueDate b = Some (Some due) -> new_Date due = None ->
  PUT_task db now u id b =
    (storage_failure "Error updating task" (dueDate_rejected due), db).
Proof.
  intros [Htasks _] Hf Ht Hu Hvalid Hdue Hcast.
  destruct (Htasks id t Ht) as [Hid Hschema].
  set (b0 := Body.mk (Body.title b) (Body.description b) (Body.status b)
                     (Body.priority b) None (Body.user b)).
  assert (Hvalid0 : (run_chains update_chains b0).2 = []).
  { rewrite run_update_chains in Hvalid |- *. exact Hvalid. }
  pose proof (pre_save_assign t b0 now Hvalid0 eq_refl) as [_ Hassign].
  assert (Hok : schema_ok (updated t b0 now) = true).
  { apply schema_ok_updated; [by apply schema_errors_nil|done]. }
  unfold PUT_task.
  rewrite run_update_chains in Hvalid, Hassign |- *.
  cbn [fst snd] in Hvalid, Hassign. rewrite Hvalid.
  rewrite (findOne_owner db id (User._id u) t) by done. cbn [bind].
  rewrite assign_dueDate. subst b0.
  cbn [Body.title Body.description Body.status Body.priority Body.dueDate
       Body.user] in Hassign |- *.
  rewrite Hdue. cbv zeta. unfold set_dueDate at 1. cbn [cast_dueDate].
  rewrite Hcast. unfold save. rewrite Hassign.
  by rewrite validate_cast_failed.
Qed.

(** ** When the model rejects *)

(** C3.  What the code does when a request that passed the gate fails
    in the persistence layer: the route answers 500 with its fixed
    message and copies the message of the underlying error into the
    [error] key of the body.  This is so when [Task.create] or
    [task.save()] rejects a due date that cannot be cast to a date (the
    validators of the route let every due date pass), where the body
    then carries Mongoose's message with the model, the path and the
    cast; and it is so in every route when the connection is lost after
    the gate has looked the user up, where the body carries the message
    of the driver. *)
Theorem storage_error_message_in_body `{Env}
    db (oid id : N) (now : Z) (authorization : option string) (user : User.t)
    (b : Body.t) (status priority sort : option string) :
  protect db now authorization = inr user ->
  let leaked m e :=
    Res.mk 500 false (Some m) None Res.NoData (Some (Err.message e)) None in
  (forall due,
     (run_chains create_chains b).2 = [] ->
     Body.dueDate b = Some (Some due) -> new_Date due = None ->
     protected (fun user => POST_task db oid now user b) db now authorization =
       (leaked "Error creating task" (dueDate_rejected due), db)) /\
  (forall due t,
     consistent db -> tasks db !! id = Some t -> Task.user t = User._id user ->
     (run_chains update_chains b).2 = [] ->
     Body.dueDate b = Some (Some due) -> new_Date due = None ->
     protected (fun user => PUT_task db now user id b) db now authorization =
       (leaked "Error updating task" (dueDate_rejected due), db)) /\
  (forall e,
     let down := mkDb (tasks db) (users db) (Some e) in
     protected (fun user => (GET_tasks down user status priority sort, down))
               db now authorization =
       (leaked "Error fetching tasks" e, down) /\
     protected (fun user => (GET_task down user id, down)) db now authorization =
       (leaked "Error fetching task" e, down) /\
     protected (fun user => DELETE_task down user id) db now authorization =
       (leaked "Error deleting task" e, down) /\
     ((run_chains create_chains b).2 = [] -> castable (Body.dueDate b) = true ->
      protected (fun user => POST_task down oid now user b) db now authorization =
        (leaked "Error creating task" e, down)) /\
     ((run_chains update_chains b).2 = [] ->
      protected (fun user => PUT_task down now user id b) db now authorization =
        (leaked "Error updating task" e, down))).
Proof.
  intros Hgate leaked. subst leaked. cbv beta.
  pose proof (protect_next_fault _ _ _ _ Hgate) as Hf.
  split; [|split].
  - intros due Hvalid Hdue Hcast.
    rewrite (protected_next _ _ _ _ user) by done.
    by rewrite (POST_task_rejects db oid now user b due).
  - intros due t Hc Ht Hu Hvalid Hdue Hcast.
    rewrite (protected_next _ _ _ _ user) by done.
    by rewrite (PUT_task_rejects db now user id b t due).
  - intros e down. rewrite !(protected_next _ _ _ _ user) by done.
    split_and!; try reflexivity.
    + intros Hvalid Hdue.
      pose proof Hvalid as Hrules. rewrite create_errors_nil in Hrules.
      unfold POST_task. rewrite run_create_chains in Hvalid |- *.
      cbn [snd] in Hvalid. rewrite Hvalid.
      cbn [Body.title Body.description Body.status Body.priority Body.dueDate].
      unfold create. rewrite build_sanitized by done.
      rewrite cast_dueDate_castable by done. cbv beta iota zeta.
      pose proof (created_schema_ok oid now (User._id user) b
                    (match Body.dueDate b with Some (Some d) => Some d | _ => None end)
                    Hrules) as Hok.
      cbn zeta in Hok. by rewrite validate_ok.
    + intros Hvalid. unfold PUT_task.
      destruct (run_chains update_chains b) as [b' errors].
      cbn [snd] in Hvalid. by subst errors.
Qed.

Lemma storage_error_message_in_body_witness :
  let b := Body.mk (Some "Buy milk") None None None (Some (Some Sample.never)) None in
  let authorization := Sample.bearer (@generateToken Sample.env 1 Sample.now) in
  let message :=
    "Task validation failed: dueDate: Cast to date failed for value " +:+
    dquote +:+ "8640000000000001" +:+ dquote +:+ " (type number) at path " +:+
    dquote +:+ "dueDate" +:+ dquote in
  @protected Sample.env (fun user => POST_task Sample.db 20 Sample.now user b)
     Sample.db Sample.now authorization =
    (Res.mk 500 false (Some "Error creating task") None Res.NoData
            (Some message) None, Sample.db) /\
  @protected Sample.env (fun user => PUT_task Sample.db Sample.now user 10 b)
     Sample.db Sample.now authorization =
    (Res.mk 500 false (Some "Error updating task") None Res.NoData
            (Some message) None, Sample.db) /\
  @protected Sample.env
     (fun user => (GET_tasks Sample.broken user None None None, Sample.broken))
     Sample.db Sample.now authorization =
    (Res.mk 500 false (Some "Error fetching tasks") None Res.NoData
            (Some "connect ECONNREFUSED 127.0.0.1:27017") None, Sample.broken).
Proof.
  intros b authorization message.
  assert (Hc : consistent Sample.db) by sample_consistent.
  destruct (@storage_error_message_in_body Sample.env Sample.db 20 10 Sample.now
              authorization (User.without_password Sample.alice) b None None None
              eq_refl) as (Hpost & Hput & Hdown).
  split; [|split].
  - apply (Hpost Sample.never); reflexivity.
  - apply (Hput Sample.never Sample.milk Hc); reflexivity.
  - apply (Hdown (Err.mk "MongoNetworkError" "connect ECONNREFUSED 127.0.0.1:27017")).
Defined.



(** ** Updating, then reading or updating again *)

Lemma updated_twice t b now now2 :
  updated (updated t b now) b now2 = updated t b now2.
Proof.
  unfold updated. cbn [Task._id Task.title Task.description Task.status
                       Task.priority Task.dueDate Task.user Task.createdAt].
  by destruct (Body.title b), (Body.description b), (Body.status b),
              (Body.priority b), (Body.dueDate b).
Qed.

Lemma consistent_updated db id t b now :
  consistent db -> tasks db !! id = Some t ->
  (run_chains update_chains b).2 = [] ->
  consistent (with_tasks db (<[id := updated t b now]> (tasks db))).
Proof.
  intros Hc Ht Hvalid. pose proof Hc as [Htasks _].
  destruct (Htasks id t Ht) as [Hid Hschema].
  replace id with (Task._id (updated t b now)) at 1 by done.
  apply consistent_insert; [done|].
  apply schema_errors_nil, schema_ok_updated; [by apply schema_errors_nil|done].
Qed.

(** X8.  After an update that succeeded (the task is the caller's, the
    body passes the validators, and the due date, if sent, can be cast),
    a get by the owner returns the updated document and a get by anyone
    else still answers 404; sending the same update again succeeds and
    leaves the store as a single update at the later time would: the
    update is idempotent up to [updatedAt].  When the due date sent
    cannot be cast, the update answers 500 and a get returns the task as
    it was. *)
Theorem update_then_get_and_repeat
    db (now now2 : Z) (u : User.t) (id : N) (b : Body.t) (t : Task.t) :
  consistent db -> fault db = None ->
  tasks db !! id = Some t -> Task.user t = User._id u ->
  (run_chains update_chains b).2 = [] ->
  let db' := (PUT_task db now u id b).2 in
  (castable (Body.dueDate b) = true ->
   Res.status (PUT_task db now u id b).1 = 200%Z /\
   GET_task db' u id =
     Res.mk 200 true None None (Res.OneTask (updated t b now)) None None /\
   (forall u' : User.t, User._id u' <> User._id u ->
      GET_task db' u' id = not_found) /\
   PUT_task db' now2 u id b = PUT_task db now2 u id b) /\
  (castable (Body.dueDate b) = false ->
   Res.status (PUT_task db now u id b).1 = 500%Z /\
   GET_task db' u id = Res.mk 200 true None None (Res.OneTask t) None None).
Proof.
  intros Hc Hf Ht Hu Hvalid db'. subst db'. split.
  - intros Hdue.
    rewrite (PUT_task_saves db now u id b t) by done. cbn [fst snd].
    set (db' := with_tasks db (<[id := updated t b now]> (tasks db))).
    assert (Ht' : tasks db' !! id = Some (updated t b now)) by apply lookup_insert_eq.
    split_and!.
    + done.
    + by apply GET_task_owner.
    + intros u' Hu'. unfold GET_task.
      rewrite (findOne_other db' id _ (updated t b now)); [done..|].
      cbn [updated Task.user]. congruence.
    + rewrite (PUT_task_saves db' now2 u id b (updated t b now));
        [|by apply consistent_updated|done..].
      rewrite (PUT_task_saves db now2 u id b t) by done.
      rewrite updated_twice. subst db'. unfold with_tasks.
      cbn [tasks users fault]. by rewrite insert_insert_eq.
  - intros (due & Hsent & Hcast)%castable_false.
    rewrite (PUT_task_rejects db now u id b t due) by done. cbn [fst snd].
    split; [done|]. by apply GET_task_owner.
Qed.

Lemma update_then_get_and_repeat_witness :
  let b := Body.mk None None (Some "completed") None None None in
  let late := Body.mk None None (Some "completed") None
                      (Some (Some Sample.never)) None in
  let db' := (PUT_task Sample.db 7000 Sample.alice 10 b).2 in
  GET_task db' Sample.alice 10 =
    Res.mk 200 true None None
      (Res.OneTask (Task.mk 10 "Buy milk" None "completed" "medium" None 1 1000 7000))
      None None /\
  GET_task db' Sample.bob 10 = not_found /\
  PUT_task db' 8000 Sample.alice 10 b = PUT_task Sample.db 8000 Sample.alice 10 b /\
  GET_task (PUT_task Sample.db 7000 Sample.alice 10 late).2 Sample.alice 10 =
    Res.mk 200 true None None (Res.OneTask Sample.milk) None None.
Proof.
  intros b late db'.
  assert (Hc : consistent Sample.db) by sample_consistent.
  destruct (proj1 (update_then_get_and_repeat Sample.db 7000 8000 Sample.alice 10 b
                     Sample.milk Hc eq_refl eq_refl eq_refl eq_refl) eq_refl)
    as (_ & Hget & Hother & Hagain).
  destruct (proj2 (update_then_get_and_repeat Sample.db 7000 8000 Sample.alice 10
                     late Sample.milk Hc eq_refl eq_refl eq_refl eq_refl) eq_refl)
    as (_ & Hkept).
  split; [exact Hget|]. split; [|split; [exact Hagain|exact Hkept]].
  apply Hother. vm_compute. discriminate.
Defined.

(** ** The static method of the model *)

(** X9.  With the store answering, [Task.getTasksByUser(userId, filters)]
    returns the stored tasks of that user that match the status and
    priority filters (an absent or empty filter matching everything),
    newest first; it is the very list [GET /api/tasks] answers with when
    no sort key, or the key [newest], is given.  With a broken
    connection it rejects with the error of the store. *)
Theorem getTasksByUser_newest_first db (u : User.t) (status priority : option string) :
  (fault db = None ->
   exists l,
     getTasksByUser db (User._id u) status priority = Ok l /\
     l ≡ₚ List.filter (wanted (User._id u) status priority) (documents db) /\
     StronglySorted (fun a b => (Task.createdAt b <= Task.createdAt a)%Z) l /\
     GET_tasks db u status priority None =
       Res.mk 200 true None (Some (length l)) (Res.Tasks l) None None /\
     GET_tasks db u status priority (Some "newest") =
       Res.mk 200 true None (Some (length l)) (Res.Tasks l) None None) /\
  (forall e, fault db = Some e ->
     getTasksByUser db (User._id u) status priority = Throw e).
Proof.
  split.
  - intros Hf.
    set (docs := List.filter (wanted (User._id u) status priority) (documents db)).
    exists (merge_sort (sort_rel (mkSort ByCreatedAt (-1))) docs).
    assert (Hrun : getTasksByUser db (User._id u) status priority =
                   Ok (merge_sort (sort_rel (mkSort ByCreatedAt (-1))) docs)).
    { unfold getTasksByUser. rewrite find_sorted_ok by done.
      by rewrite (filter_ext _ _ (route_filter_wanted (User._id u) status priority)). }
    split_and!.
    + done.
    + apply merge_sort_Permutation.
    + apply (StronglySorted_impl (sort_rel (mkSort ByCreatedAt (-1)))).
      * intros a b. unfold sort_rel. cbn. apply Z.leb_le.
      * apply StronglySorted_merge_sort; apply _.
    + unfold GET_tasks. unfold getTasksByUser in Hrun. by rewrite Hrun.
    + unfold GET_tasks. unfold getTasksByUser in Hrun. by rewrite Hrun.
  - intros e Hf. unfold getTasksByUser, find_sorted, roundtrip.
    destruct (truthy status), (truthy priority); by rewrite Hf.
Qed.

Lemma getTasksByUser_newest_first_witness :
  getTasksByUser Sample.db 1 None None = Ok [Sample.report; Sample.milk] /\
  getTasksByUser Sample.db 1 (Some "pending") None = Ok [Sample.milk] /\
  getTasksByUser Sample.broken 1 None None =
    Throw (Err.mk "MongoNetworkError" "connect ECONNREFUSED 127.0.0.1:27017").
Proof.
  split; [|split].
  - destruct (proj1 (getTasksByUser_newest_first Sample.db Sample.alice None None)
                eq_refl) as (l & Hrun & _).
    reflexivity.
  - destruct (proj1 (getTasksByUser_newest_first Sample.db Sample.alice
                       (Some "pending") None) eq_refl) as (l & Hrun & _).
    reflexivity.
  - apply (proj2 (getTasksByUser_newest_first Sample.broken Sample.alice None None)).
    reflexivity.
Defined.

(** ** The gate, once more *)

Lemma startsWith_Bearer rest :
  (truthy (Some ("Bearer" +:+ rest)) &&
   startsWith (toString (Some ("Bearer" +:+ rest))) "Bearer")%bool = true.
Proof.
  cbn. by destruct rest.
Qed.

Lemma app_empty_r s : s +:+ EmptyString = s.
Proof.
  induction s as [|c s IH]; [done|].
  change (String c (s +:+ EmptyString) = String c s). by rewrite IH.
Qed.

Lemma app_assoc_string a b c : (a +:+ b) +:+ c = a +:+ (b +:+ c).
Proof.
  induction a as [|x a IH]; [done|].
  change (String x ((a +:+ b) +:+ c) = String x (a +:+ (b +:+ c))).
  by rewrite IH.
Qed.

(** The piece [protect] takes for the token: the one after the first
    space, up to the next space. *)
Lemma second_piece scheme token tail :
  all_chars is_token_char scheme = true ->
  all_chars is_token_char token = true ->
  tail = EmptyString \/ (exists rest, tail = String " " rest) ->
  split " " (scheme +:+ String " " (token +:+ tail)) !! 1%nat = Some token.
Proof.
  intros Hs Ht Htail.
  rewrite (split_piece is_token_char) by done. cbn [lookup list_lookup].
  destruct Htail as [->|[rest ->]].
  - rewrite app_empty_r. by rewrite (split_last is_token_char).
  - by rewrite (split_piece is_token_char).
Qed.

Lemma second_piece_plain token :
  all_chars is_token_char token = true ->
  split " " ("Bearer " +:+ token) !! 1%nat = Some token.
Proof.
  intros Ht.
  rewrite <- (app_empty_r token) at 1.
  change ("Bearer " +:+ (token +:+ EmptyString))
    with ("Bearer" +:+ String " " (token +:+ EmptyString)).
  apply second_piece; auto.
Qed.

(** X10.  [protect] reads the scheme loosely: any header that starts with
    the letters [Bearer], whatever follows them up to the first space, is
    treated as a bearer header, the token is the piece between the first
    and the second space, and anything after a second space is ignored.
    Such a header is answered exactly as [Bearer <token>] is. *)
Theorem gate_reads_the_second_piece `{Env}
    db (now : Z) (suffix token rest : string) :
  all_chars is_token_char suffix = true ->
  all_chars is_token_char token = true ->
  protect db now (Some ("Bearer" +:+ suffix +:+ " " +:+ token)) =
    protect db now (Some ("Bearer " +:+ token)) /\
  protect db now (Some ("Bearer" +:+ suffix +:+ " " +:+ token +:+ " " +:+ rest)) =
    protect db now (Some ("Bearer " +:+ token)).
Proof.
  intros Hs Ht.
  assert (Hscheme : all_chars is_token_char ("Bearer" +:+ suffix) = true).
  { by rewrite all_chars_app, Hs. }
  assert (Hguard : forall x,
            (truthy (Some ("Bearer" +:+ suffix +:+ x)) &&
             startsWith (toString (Some ("Bearer" +:+ suffix +:+ x))) "Bearer")%bool
            = true).
  { intros x. apply (startsWith_Bearer (suffix +:+ x)). }
  split.
  - rewrite (protect_bearer db now (Some ("Bearer" +:+ suffix +:+ " " +:+ token)))
      by apply Hguard.
    rewrite (protect_bearer db now (Some ("Bearer " +:+ token)))
      by apply (startsWith_Bearer (String " " token)).
    cbn [toString]. rewrite second_piece_plain by done.
    replace ("Bearer" +:+ suffix +:+ " " +:+ token)
      with (("Bearer" +:+ suffix) +:+ String " " (token +:+ EmptyString)).
    + rewrite second_piece; auto.
    + by rewrite app_assoc_string, app_empty_r.
  - rewrite (protect_bearer db now
               (Some ("Bearer" +:+ suffix +:+ " " +:+ token +:+ " " +:+ rest)))
      by apply Hguard.
    rewrite (protect_bearer db now (Some ("Bearer " +:+ token)))
      by apply (startsWith_Bearer (String " " token)).
    cbn [toString]. rewrite second_piece_plain by done.
    replace ("Bearer" +:+ suffix +:+ " " +:+ token +:+ " " +:+ rest)
      with (("Bearer" +:+ suffix) +:+ String " " (token +:+ String " " rest)).
    + rewrite second_piece; eauto.
    + by rewrite app_assoc_string.
Qed.

Lemma gate_reads_the_second_piece_witness :
  let token := @generateToken Sample.env 1 Sample.now in
  @protect Sample.env Sample.db Sample.now (Some ("BearerXYZ " +:+ token)) =
    inr (User.without_password Sample.alice) /\
  @protect Sample.env Sample.db Sample.now
     (Some ("Bearer " +:+ token +:+ " and the rest")) =
    inr (User.without_password Sample.alice).
Proof.
  intros token.
  destruct (@gate_reads_the_second_piece Sample.env Sample.db Sample.now
              "XYZ" token "and the rest" eq_refl eq_refl) as [Hloose _].
  destruct (@gate_reads_the_second_piece Sample.env Sample.db Sample.now
              EmptyString token "and the rest" eq_refl eq_refl) as [_ Hrest].
  split.
  - etransitivity; [exact Hloose|]. reflexivity.
  - etransitivity; [exact Hrest|]. reflexivity.
Defined.

Lemma all_chars_impl (P Q : ascii -> bool) s :
  (forall c, P c = true -> Q c = true) ->
  all_chars P s = true -> all_chars Q s = true.
Proof.
  intros HPQ. induction s as [|c s IH]; [done|]. simpl.
  intros [Hc Hs]%andb_prop. by rewrite (HPQ c Hc), IH.
Qed.

Lemma token_char_of_numeral c : is_numeral_char c = true -> is_token_char c = true.
Proof.
  unfold is_token_char. destruct (Ascii.eqb_spec c " ") as [->|]; [|done].
  discriminate.
Qed.

(** A token that [sign] produces holds no space. *)
Lemma sign_no_space `{Env} uid secret now :
  all_chars is_token_char (jwt.sign uid secret now) = true.
Proof.
  assert (Hdec : forall n, all_chars is_token_char (dec n) = true).
  { intros n. apply (all_chars_impl is_numeral_char); [|apply numeral_dec].
    apply token_char_of_numeral. }
  assert (HdecZ : forall z, all_chars is_token_char (decZ z) = true).
  { intros z. apply (all_chars_impl is_numeral_char); [|apply numeral_decZ].
    apply token_char_of_numeral. }
  unfold jwt.sign, jwt.signature, jwt.encode_payload.
  rewrite !all_chars_app, !Hdec, !HdecZ. reflexivity.
Qed.

(** X11.  [protect] calls [next()] exactly for a Bearer header whose
    token verifies, with the store answering and the user the token
    names on file; the [req.user] it hands on is that user with the same
    identifier, name and email and never with the password hash. *)
Theorem gate_hands_on_the_user_without_password `{Env}
    db (now : Z) (authorization : option string) (user : User.t) :
  protect db now authorization = inr user <->
  (truthy authorization && startsWith (toString authorization) "Bearer")%bool = true /\
  fault db = None /\
  exists p stored,
    jwt.verify (split " " (toString authorization) !! 1%nat) JWT_SECRET now = Ok p /\
    users db !! jwt.id p = Some stored /\
    User._id user = User._id stored /\
    User.name user = User.name stored /\
    User.email user = User.email stored /\
    User.password user = None.
Proof.
  split.
  - intros Hnext.
    destruct (truthy authorization && startsWith (toString authorization) "Bearer")%bool
      eqn:Hb.
    + rewrite protect_bearer in Hnext by done.
      destruct (jwt.verify _ _ _) as [p|e]; [|done].
      destruct (fault db); [done|].
      destruct (users db !! jwt.id p) as [stored|] eqn:Hu; [|done].
      injection Hnext as <-. split; [done|]. split; [done|]. by exists p, stored.
    + unfold protect in Hnext. by rewrite Hb in Hnext.
  - intros (Hb & Hf & p & stored & Hv & Hu & Hid & Hname & Hemail & Hpw).
    rewrite protect_bearer, Hv, Hf, Hu by done. f_equal.
    destruct user, stored. cbn in *. by subst.
Qed.

Lemma gate_hands_on_the_user_without_password_witness :
  let authorization := Sample.bearer (@generateToken Sample.env 1 Sample.now) in
  exists user,
    @protect Sample.env Sample.db Sample.now authorization = inr user /\
    User.name user = "Alice" /\ User.password user = None.
Proof.
  intros authorization. exists (User.without_password Sample.alice).
  split; [reflexivity|].
  destruct (proj1 (@gate_hands_on_the_user_without_password Sample.env Sample.db
                     Sample.now authorization (User.without_password Sample.alice))
              eq_refl)
    as (_ & _ & p & stored & _ & _ & _ & _ & _ & Hpw).
  split; [reflexivity|exact Hpw].
Defined.

(** X12.  A token that [generateToken] issued for a user passes the gate
    in the header [Bearer <token>] and yields that user (without the
    password hash) at every instant before its expiration, as long as
    the user is on file and the store answers; once the user is removed
    from the store the same token is answered 401 'User not found', and
    from the expiration instant on it is answered 401 'Token expired'
    whether the user exists or not. *)
Theorem issued_token_passes_the_gate `{Env}
    db (id : N) (now now' : Z) :
  fault db = None ->
  let authorization := Some ("Bearer " +:+ generateToken id now) in
  let expiration := ((now / 1000 + 30 * 24 * 60 * 60) * 1000)%Z in
  ((now' < expiration)%Z ->
   protect db now' authorization =
     match users db !! id with
     | Some stored => inr (User.without_password stored)
     | None => inl (Res.failure 401 "User not found")
     end) /\
  ((expiration <= now')%Z ->
   protect db now' authorization = inl (Res.failure 401 "Token expired")).
Proof.
  intros Hf authorization expiration. subst authorization expiration.
  assert (Htoken : split " " ("Bearer " +:+ generateToken id now) !! 1%nat =
                   Some (generateToken id now)).
  { apply second_piece_plain, sign_no_space. }
  split; intros Htime;
    rewrite protect_bearer by apply (startsWith_Bearer (String " " _));
    cbn [toString]; rewrite Htoken; unfold generateToken; rewrite verify_sign.
  - assert (Hlive : (now / 1000 + jwt.thirty_days <=? now' / 1000)%Z = false).
    { apply Z.leb_gt. unfold jwt.thirty_days.
      apply Z.div_lt_upper_bound; lia. }
    rewrite Hlive, Hf. cbn [jwt.id]. by destruct (users db !! id).
  - assert (Hdead : (now / 1000 + jwt.thirty_days <=? now' / 1000)%Z = true).
    { apply Z.leb_le. unfold jwt.thirty_days.
      apply Z.div_le_lower_bound; lia. }
    by rewrite Hdead.
Qed.

Lemma issued_token_passes_the_gate_witness :
  @protect Sample.env Sample.db (Sample.now + 1000)
     (Some ("Bearer " +:+ @generateToken Sample.env 1 Sample.now)) =
    inr (User.without_password Sample.alice) /\
  @protect Sample.env Sample.db (Sample.now + 1000)
     (Some ("Bearer " +:+ @generateToken Sample.env 3 Sample.now)) =
    inl (Res.failure 401 "User not found") /\
  @protect Sample.env Sample.db Sample.later
     (Some ("Bearer " +:+ @generateToken Sample.env 1 Sample.now)) =
    inl (Res.failure 401 "Token expired").
Proof.
  split; [|split].
  - apply (proj1 (@issued_token_passes_the_gate Sample.env Sample.db 1 Sample.now
                    (Sample.now + 1000) eq_refl)).
    vm_compute. reflexivity.
  - apply (proj1 (@issued_token_passes_the_gate Sample.env Sample.db 3 Sample.now
                    (Sample.now + 1000) eq_refl)).
    vm_compute. reflexivity.
  - apply (proj2 (@issued_token_passes_the_gate Sample.env Sample.db 1 Sample.now
                    Sample.later eq_refl)).
    vm_compute. discriminate.
Defined.

(** ** Search *)

#[local] Instance score_rel_total `{TextIndex} q : Total (score_rel q).
Proof. intros a b. unfold score_rel. lia. Qed.

#[local] Instance score_rel_trans `{TextIndex} q : Transitive (score_rel q).
Proof. intros a b c. unfold score_rel. lia. Qed.

(** X13.  Behind the gate, [GET /api/tasks/search] answers a request the
    gate lets through with 400 'Search query is required' (a message and
    nothing else) when [q] is missing or empty, whatever is stored; for
    any other [q] it answers 200 with exactly the stored tasks of the
    caller that the text index matches, never a task of another user,
    most relevant first, counted in [count].  This holds whatever the
    text index matches and however it scores.  With the store down the
    gate has answered 401 before the query is looked at. *)
Theorem search_needs_a_query_and_stays_with_the_caller `{Env} `{TextIndex}
    db (now : Z) (authorization : option string) (q : option string) :
  let served :=
    protected (fun user => (GET_search db user q, db)) db now authorization in
  (forall user, protect db now authorization = inr user ->
     (truthy q = false ->
      served = (Res.mk 400 false (Some "Search query is required") None
                       Res.NoData None None, db)) /\
     (truthy q = true ->
      exists l,
        served = (Res.mk 200 true None (Some (length l)) (Res.Tasks l) None None,
                  db) /\
        (forall t, t ∈ l <->
           (exists k, tasks db !! k = Some t) /\
           Task.user t = User._id user /\
           text_matches (toString q) t = true) /\
        StronglySorted
          (fun a b => (textScore (toString q) b <= textScore (toString q) a)%Z) l)) /\
  (is_Some (fault db) -> exists m, served = (Res.failure 401 m, db)).
Proof.
  intros served. subst served. split.
  - intros user Hgate.
    pose proof (protect_next_fault _ _ _ _ Hgate) as Hf.
    rewrite (protected_next _ _ _ _ user) by done. split.
    + intros Hq. unfold GET_search. by rewrite Hq.
    + intros Hq. unfold GET_search, find_text.
      rewrite Hq, roundtrip_ok by done. cbn [negb bind].
      eexists. split; [reflexivity|]. split.
      * intros t. rewrite merge_sort_Permutation.
        rewrite list_elem_of_In, filter_In, <- list_elem_of_In, elem_of_documents.
        rewrite andb_true_iff, N.eqb_eq. intuition.
      * apply (StronglySorted_merge_sort (score_rel (toString q))).
  - apply protected_fault.
Qed.

Lemma search_needs_a_query_and_stays_with_the_caller_witness :
  let authorization := Sample.bearer (@generateToken Sample.env 1 Sample.now) in
  let served db q :=
    @protected Sample.env (fun user => (@GET_search Demo.index db user q, db))
               db Sample.now authorization in
  served Sample.db (Some EmptyString) =
    (Res.mk 400 false (Some "Search query is required") None Res.NoData None None,
     Sample.db) /\
  served Sample.db (Some "MILK") =
    (Res.mk 200 true None (Some 1%nat) (Res.Tasks [Sample.milk]) None None,
     Sample.db) /\
  exists m, served Sample.broken (Some EmptyString) =
              (Res.failure 401 m, Sample.broken).
Proof.
  intros authorization served.
  split; [|split].
  - apply (proj1 (proj1 (@search_needs_a_query_and_stays_with_the_caller
                           Sample.env Demo.index Sample.db Sample.now authorization
                           (Some EmptyString))
                        (User.without_password Sample.alice) eq_refl)).
    reflexivity.
  - destruct (proj2 (proj1 (@search_needs_a_query_and_stays_with_the_caller
                              Sample.env Demo.index Sample.db Sample.now
                              authorization (Some "MILK"))
                           (User.without_password Sample.alice) eq_refl) eq_refl)
      as (l & Hget & _).
    reflexivity.
  - apply (proj2 (@search_needs_a_query_and_stays_with_the_caller
                    Sample.env Demo.index Sample.broken Sample.now authorization
                    (Some EmptyString))).
    by eexists.
Defined.

(** ** Creating or deleting, then listing *)

Lemma filter_Permutation {A} (f : A -> bool) l l' :
  l ≡ₚ l' -> List.filter f l ≡ₚ List.filter f l'.
Proof.
  induction 1 as [|x l l' _ IH|x y l|l l' l'' _ IH1 _ IH2]; simpl.
  - done.
  - destruct (f x); by rewrite IH.
  - destruct (f x), (f y); try done. apply Permutation_swap.
  - by rewrite IH1.
Qed.

Lemma documents_insert db oid d :
  tasks db !! oid = None ->
  documents (with_tasks db (<[oid := d]> (tasks db))) ≡ₚ d :: documents db.
Proof.
  intros Hfresh. unfold documents. cbn [with_tasks tasks].
  by rewrite map_to_list_insert.
Qed.

Lemma documents_delete db id d :
  tasks db !! id = Some d ->
  documents db ≡ₚ d :: documents (with_tasks db (delete id (tasks db))).
Proof.
  intros Hd. unfold documents. cbn [with_tasks tasks].
  by rewrite <- (map_to_list_delete (tasks db) id d Hd).
Qed.

Lemma GET_tasks_ok db u status priority sort :
  fault db = None ->
  exists l,
    GET_tasks db u status priority sort =
      Res.mk 200 true None (Some (length l)) (Res.Tasks l) None None /\
    l ≡ₚ List.filter (wanted (User._id u) status priority) (documents db).
Proof.
  intros Hf. unfold GET_tasks. rewrite find_sorted_ok by done.
  eexists. split; [reflexivity|].
  rewrite merge_sort_Permutation.
  by rewrite (filter_ext _ _ (route_filter_wanted (User._id u) status priority)).
Qed.

(** X14.  After a create with a body that passes the validators, a
    fresh identifier and a store that answers: when the due date, if
    sent, can be cast, the create answers 201 and the listing of the
    creator, under any filters and sort key, is the listing from before
    with the new task added if it matches the filters, and as before if
    it does not, while the listing of every other user is as before; when
    the due date cannot be cast, the create answers 500 and every listing
    is as before.  (Listings are compared as collections; their order is
    the sort key's.) *)
Theorem create_then_list
    db (oid : N) (now : Z) (u v : User.t) (b : Body.t)
    (status priority sort : option string) :
  fault db = None -> tasks db !! oid = None ->
  (run_chains create_chains b).2 = [] ->
  let task := created oid now (User._id u) b in
  let db' := (POST_task db oid now u b).2 in
  exists before after,
    GET_tasks db v status priority sort =
      Res.mk 200 true None (Some (length before)) (Res.Tasks before) None None /\
    GET_tasks db' v status priority sort =
      Res.mk 200 true None (Some (length after)) (Res.Tasks after) None None /\
    (castable (Body.dueDate b) = true ->
     Res.status (POST_task db oid now u b).1 = 201%Z /\
     after ≡ₚ (if wanted (User._id v) status priority task
               then task :: before else before) /\
     (User._id v <> User._id u -> after ≡ₚ before)) /\
    (castable (Body.dueDate b) = false ->
     Res.status (POST_task db oid now u b).1 = 500%Z /\ after = before).
Proof.
  intros Hf Hfresh Hvalid task db'. subst db'.
  destruct (GET_tasks_ok db v status priority sort Hf) as (before & Hb & Hpb).
  destruct (castable (Body.dueDate b)) eqn:Hdue.
  - rewrite POST_task_stores by done. cbn [fst snd]. fold task.
    destruct (GET_tasks_ok (with_tasks db (<[oid := task]> (tasks db)))
                v status priority sort Hf) as (after & Ha & Hpa).
    exists before, after. split; [done|]. split; [done|].
    split; [|done]. intros _. split; [done|].
    assert (Hadd : after ≡ₚ (if wanted (User._id v) status priority task
                             then task :: before else before)).
    { rewrite Hpa, (filter_Permutation _ _ _ (documents_insert db oid task Hfresh)).
      simpl. destruct (wanted (User._id v) status priority task); by rewrite Hpb. }
    split; [done|].
    intros Hother. rewrite Hadd.
    unfold wanted, task, created. cbn [Task.user].
    destruct (N.eqb_spec (User._id v) (User._id u)); [congruence|done].
  - pose proof Hdue as (due & Hsent & Hcast)%castable_false.
    rewrite (POST_task_rejects db oid now u b due) by done. cbn [fst snd].
    exists before, before. split; [done|]. split; [done|]. split; [done|].
    by intros _.
Qed.

Lemma create_then_list_witness :
  let b := Body.mk (Some "Buy bread") None None None None None in
  let task := Task.mk 20 "Buy bread" None "pending" "medium" None 1
                      Sample.now Sample.now in
  let db' := (POST_task Sample.db 20 Sample.now Sample.alice b).2 in
  exists before after,
    GET_tasks Sample.db Sample.alice None None None =
      Res.mk 200 true None (Some (length before)) (Res.Tasks before) None None /\
    GET_tasks db' Sample.alice None None None =
      Res.mk 200 true None (Some (length after)) (Res.Tasks after) None None /\
    after ≡ₚ task :: before.
Proof.
  intros b task db'.
  destruct (create_then_list Sample.db 20 Sample.now Sample.alice Sample.alice b
              None None None eq_refl eq_refl eq_refl)
    as (before & after & Hb & Ha & Hadd & _).
  exists before, after. split; [exact Hb|]. split; [exact Ha|].
  exact (proj1 (proj2 (Hadd eq_refl))).
Defined.

(** X15.  After a delete that succeeded, the listing of the owner, under
    any filters and sort key, is the listing from before without the
    deleted task: the listing from before is the new listing plus that
    task if the task matched the filters, and the new listing itself if
    it did not. *)
Theorem delete_then_list
    db (u : User.t) (id : N) (t : Task.t) (status priority sort : option string) :
  fault db = None -> tasks db !! id = Some t -> Task.user t = User._id u ->
  let db' := (DELETE_task db u id).2 in
  exists before after,
    GET_tasks db u status priority sort =
      Res.mk 200 true None (Some (length before)) (Res.Tasks before) None None /\
    GET_tasks db' u status priority sort =
      Res.mk 200 true None (Some (length after)) (Res.Tasks after) None None /\
    before ≡ₚ (if wanted (User._id u) status priority t
               then t :: after else after).
Proof.
  intros Hf Ht Hu db'. subst db'.
  unfold DELETE_task, findOneAndDelete.
  rewrite (findOne_owner db id _ t) by done. cbn [bind snd].
  destruct (GET_tasks_ok db u status priority sort Hf) as (before & Hb & Hpb).
  destruct (GET_tasks_ok (with_tasks db (delete id (tasks db)))
              u status priority sort Hf) as (after & Ha & Hpa).
  exists before, after. split; [done|]. split; [done|].
  rewrite Hpb, (filter_Permutation _ _ _ (documents_delete db id t Ht)).
  simpl. destruct (wanted (User._id u) status priority t); by rewrite Hpa.
Qed.

Lemma delete_then_list_witness :
  let db' := (DELETE_task Sample.db Sample.alice 10).2 in
  exists before after,
    GET_tasks Sample.db Sample.alice None None None =
      Res.mk 200 true None (Some (length before)) (Res.Tasks before) None None /\
    GET_tasks db' Sample.alice None None None =
      Res.mk 200 true None (Some (length after)) (Res.Tasks after) None None /\
    before ≡ₚ Sample.milk :: after.
Proof.
  intros db'.
  destruct (delete_then_list Sample.db Sample.alice 10 Sample.milk
              None None None eq_refl eq_refl eq_refl)
    as (before & after & Hb & Ha & Hdel).
  exists before, after. split; [exact Hb|]. split; [exact Ha|]. exact Hdel.
Defined.

(* ===================================================================== *)
(** * Properties of the client *)
(* ===================================================================== *)

(** ** The session in the browser's storage *)

(** X16.  After [setAuthData(token, user)] the client counts as
    authenticated exactly when the token is not empty, and then every
    request leaves with the header [Bearer <token>], the protected route
    shows its page and the public routes redirect to the dashboard.
    After [logout()] the client is not authenticated, no user is stored,
    requests keep the header they had, the protected route redirects to
    the login page, the public routes show theirs, and every other key
    of the storage is as it was before the login. *)
Theorem session_lifecycle `{JSON}
    (storage : gmap string string) (token : string) (user : User.t)
    (authorization : option string) :
  let session := setAuthData storage token user in
  isAuthenticated session = truthy (Some token) /\
  getItem session "user" = Some (JSON_stringify user) /\
  (truthy (Some token) = true ->
   request_interceptor session authorization = Some ("Bearer " +:+ token) /\
   ProtectedRoute session = Children /\
   PublicRoute session = Navigate "/dashboard") /\
  isAuthenticated (logout session) = false /\
  getStoredUser (logout session) = Ok None /\
  request_interceptor (logout session) authorization = authorization /\
  ProtectedRoute (logout session) = Navigate "/login" /\
  PublicRoute (logout session) = Children /\
  (forall key, key <> "token" -> key <> "user" ->
     getItem (logout session) key = getItem storage key).
Proof.
  intros session. subst session.
  assert (Htoken : getItem (setAuthData storage token user) "token" = Some token).
  { unfold getItem, setAuthData, setItem.
    rewrite lookup_insert_ne by done. apply lookup_insert_eq. }
  assert (Hout : getItem (logout (setAuthData storage token user)) "token" = None).
  { unfold getItem, logout, removeItem.
    rewrite lookup_delete_ne by done. apply lookup_delete_eq. }
  assert (Huser : getItem (logout (setAuthData storage token user)) "user" = None).
  { unfold getItem, logout, removeItem. apply lookup_delete_eq. }
  split_and!.
  - unfold isAuthenticated. by rewrite Htoken.
  - unfold getItem, setAuthData, setItem. apply lookup_insert_eq.
  - intros Htruthy.
    unfold request_interceptor, ProtectedRoute, PublicRoute, isAuthenticated.
    by rewrite Htoken, Htruthy.
  - unfold isAuthenticated. by rewrite Hout.
  - unfold getStoredUser. by rewrite Huser.
  - unfold request_interceptor. by rewrite Hout.
  - unfold ProtectedRoute, isAuthenticated. by rewrite Hout.
  - unfold PublicRoute, isAuthenticated. by rewrite Hout.
  - intros key Ht Hu. unfold getItem, logout, removeItem, setAuthData, setItem.
    by rewrite !lookup_delete_ne, !lookup_insert_ne by done.
Qed.

Lemma session_lifecycle_witness :
  request_interceptor Demo.session None =
    Some ("Bearer " +:+ @generateToken Sample.env 1 Sample.now) /\
  ProtectedRoute Demo.session = Children /\
  ProtectedRoute (logout Demo.session) = Navigate "/login".
Proof.
  destruct (@session_lifecycle Demo.json ∅ (@generateToken Sample.env 1 Sample.now)
              (User.without_password Sample.alice) None)
    as (_ & _ & Hin & _ & _ & _ & Hout & _).
  destruct (Hin eq_refl) as (Hheader & Hpage & _).
  split; [exact Hheader|]. split; [exact Hpage|exact Hout].
Defined.

(** X17.  From login to gate: a token that [generateToken] issued, stored
    by [setAuthData] and put on a request by the request interceptor
    (whatever [Authorization] header the request had), passes [protect]
    and yields the user it was issued for, at every instant before its
    expiration, as long as that user is on file and the store answers. *)
Theorem stored_token_passes_the_gate `{Env} `{JSON}
    db (id : N) (now now' : Z) (stored user : User.t)
    (storage : gmap string string) (authorization : option string) :
  fault db = None -> users db !! id = Some stored ->
  (now' < (now / 1000 + 30 * 24 * 60 * 60) * 1000)%Z ->
  protect db now'
    (request_interceptor (setAuthData storage (generateToken id now) user)
                         authorization) =
  inr (User.without_password stored).
Proof.
  intros Hf Hu Htime.
  assert (Hheader :
    request_interceptor (setAuthData storage (generateToken id now) user)
                        authorization =
    Some ("Bearer " +:+ generateToken id now)).
  { unfold request_interceptor, getItem, setAuthData, setItem.
    rewrite lookup_insert_ne by done. rewrite lookup_insert_eq.
    reflexivity. }
  rewrite Hheader.
  rewrite protect_bearer by apply (startsWith_Bearer (String " " _)).
  cbn [toString]. rewrite second_piece_plain by apply sign_no_space.
  unfold generateToken. rewrite verify_sign.
  assert (Hlive : (now / 1000 + jwt.thirty_days <=? now' / 1000)%Z = false).
  { apply Z.leb_gt. unfold jwt.thirty_days. apply Z.div_lt_upper_bound; lia. }
  rewrite Hlive, Hf. cbn [jwt.id]. by rewrite Hu.
Qed.

Lemma stored_token_passes_the_gate_witness :
  @protect Sample.env Sample.db (Sample.now + 5000)
     (request_interceptor Demo.session (Some "Basic dXNlcjpwYXNz")) =
  inr (User.without_password Sample.alice).
Proof.
  apply (@stored_token_passes_the_gate Sample.env Demo.json Sample.db 1
           Sample.now (Sample.now + 5000) Sample.alice
           (User.without_password Sample.alice) ∅ (Some "Basic dXNlcjpwYXNz")).
  - reflexivity.
  - reflexivity.
  - vm_compute. reflexivity.
Defined.

(** The statuses the task routes answer with. *)
Lemma task_routes_never_401 `{TextIndex}
    db (oid id : N) (now : Z) (u : User.t) (b : Body.t)
    (status priority sort q : option string) res :
  res ∈ [ GET_tasks db u status priority sort; GET_search db u q;
          GET_task db u id; (POST_task db oid now u b).1;
          (PUT_task db now u id b).1; (DELETE_task db u id).1 ] ->
  Res.status res <> 401%Z.
Proof.
  rewrite !elem_of_cons, elem_of_nil.
  intros [->|[->|[->|[->|[->|[->|[]]]]]]].
  - unfold GET_tasks. by destruct (find_sorted _ _ _).
  - unfold GET_search. destruct (negb (truthy q)); [done|].
    by destruct (find_text _ _ _).
  - unfold GET_task. by destruct (findOne _ _ _) as [[d|]|e].
  - pose proof (POST_task_outcome db oid now u b) as Hout.
    destruct (POST_task db oid now u b) as [r db'].
    destruct Hout as [(_ & [Hs|Hs] & _)|(d & _ & _ & _ & _ & _ & _ & ->)];
      cbn [fst] in *; by (rewrite ?Hs).
  - pose proof (PUT_task_outcome db now u id b) as Hout.
    destruct (PUT_task db now u id b) as [r db'].
    destruct Hout as [(_ & [Hs|[Hs|Hs]] & _)
                     |(d & d' & _ & _ & _ & _ & _ & _ & _ & _ & _ & ->)];
      cbn [fst] in *; by (rewrite ?Hs).
  - pose proof (DELETE_task_outcome db u id) as Hout.
    destruct (DELETE_task db u id) as [r db'].
    destruct Hout as [(_ & [Hs|Hs] & _)|(d & _ & _ & _ & _ & ->)];
      cbn [fst] in *; by (rewrite ?Hs).
Qed.

(** X18.  Only the gate ends a session.  Whenever [protect] turns a
    request away, the response interceptor removes token and user from
    the storage, sends the window to the login page and rejects, so the
    protected route redirects from then on; whatever a task route
    answers behind the gate, the interceptor leaves the storage as it
    is and sends the window nowhere. *)
Theorem only_the_gate_ends_the_session `{Env} `{TextIndex}
    (storage : gmap string string)
    db (oid id : N) (now : Z) (u : User.t) (b : Body.t)
    (status priority sort q authorization : option string) :
  (forall res, protect db now authorization = inl res ->
     response_interceptor storage (Some res) =
       (logout storage, Some "/login", false) /\
     ProtectedRoute (logout storage) = Navigate "/login") /\
  (forall res,
     res ∈ [ GET_tasks db u status priority sort; GET_search db u q;
             GET_task db u id; (POST_task db oid now u b).1;
             (PUT_task db now u id b).1; (DELETE_task db u id).1 ] ->
     (response_interceptor storage (Some res)).1 = (storage, None)).
Proof.
  split.
  - intros res Hres. apply protect_rejects_401 in Hres.
    split.
    + unfold response_interceptor, resolves. by rewrite Hres.
    + unfold ProtectedRoute, isAuthenticated, getItem, logout, removeItem.
      rewrite lookup_delete_ne by done. by rewrite lookup_delete_eq.
  - intros res Hres. apply task_routes_never_401 in Hres.
    unfold response_interceptor.
    destruct (resolves res); [done|].
    destruct (Z.eqb_spec (Res.status res) 401); [done|done].
Qed.

Lemma only_the_gate_ends_the_session_witness :
  response_interceptor Demo.session
    (Some (Res.failure 401 "Token expired")) =
    (logout Demo.session, Some "/login", false) /\
  (response_interceptor Demo.session
     (Some (GET_task Sample.db Sample.alice 99))).1 = (Demo.session, None).
Proof.
  split.
  - apply (@only_the_gate_ends_the_session Sample.env Demo.index Demo.session
             Sample.db 20 99 Sample.later Sample.alice
             (Body.mk None None None None None None) None None None None
             (Sample.bearer (@generateToken Sample.env 1 Sample.now))).
    reflexivity.
  - apply (@only_the_gate_ends_the_session Sample.env Demo.index Demo.session
             Sample.db 20 99 Sample.later Sample.alice
             (Body.mk None None None None None None) None None None None None).
    rewrite !elem_of_cons. auto.
Defined.

(** ** The task list *)

Lemma filter_filter_and {A} (f g : A -> bool) l :
  List.filter g (List.filter f l) = List.filter (fun x => (f x && g x)%bool) l.
Proof.
  induction l as [|x l IH]; [done|]. simpl.
  destruct (f x); simpl; [destruct (g x)|]; by rewrite IH.
Qed.

Lemma StronglySorted_filter {A} (R : relation A) (f : A -> bool) l :
  StronglySorted R l -> StronglySorted R (List.filter f l).
Proof.
  induction 1 as [|x l Hl IH Hx]; simpl; [constructor|].
  destruct (f x); [|done]. constructor; [done|].
  apply Forall_forall. intros y Hy.
  apply list_elem_of_In, filter_In in Hy as [Hy _].
  rewrite Forall_forall in Hx. by apply Hx, list_elem_of_In.
Qed.

Lemma GET_tasks_sorted db u status priority sort :
  fault db = None ->
  exists l,
    GET_tasks db u status priority sort =
      Res.mk 200 true None (Some (length l)) (Res.Tasks l) None None /\
    l ≡ₚ List.filter (wanted (User._id u) status priority) (documents db) /\
    StronglySorted (listing_order sort) l.
Proof.
  intros Hf. unfold GET_tasks. rewrite find_sorted_ok by done.
  eexists. split; [reflexivity|]. split.
  - rewrite merge_sort_Permutation.
    by rewrite (filter_ext _ _ (route_filter_wanted (User._id u) status priority)).
  - eapply StronglySorted_impl; [intros a b; apply route_sort_order|].
    apply StronglySorted_merge_sort; apply _.
Qed.

Lemma shown_no_search fs fp t :
  shown fs fp EmptyString t =
  ((if truthy (Some fs) then String.eqb fs (Task.status t) else true) &&
   (if truthy (Some fp) then String.eqb fp (Task.priority t) else true))%bool.
Proof.
  unfold shown. cbn [truthy negb orb]. rewrite andb_true_r.
  rewrite (String.eqb_sym (Task.status t)), (String.eqb_sym (Task.priority t)).
  by destruct fs, fp.
Qed.

(** X19.  Filtering in the browser agrees with filtering on the server:
    with an empty search box, the tasks [TaskList] shows for a status and
    a priority selection, out of the full listing the server sent, are
    the tasks the server lists when asked with that status and priority,
    and they are shown in the order of the listing.  With nothing
    selected and nothing searched the whole list is shown. *)
Theorem client_filter_agrees_with_server
    db (u : User.t) (fs fp : string) (sort : option string) :
  fault db = None ->
  exists all filtered,
    GET_tasks db u None None sort =
      Res.mk 200 true None (Some (length all)) (Res.Tasks all) None None /\
    GET_tasks db u (Some fs) (Some fp) sort =
      Res.mk 200 true None (Some (length filtered)) (Res.Tasks filtered) None None /\
    filteredTasks fs fp EmptyString all ≡ₚ filtered /\
    StronglySorted (listing_order sort) (filteredTasks fs fp EmptyString all) /\
    filteredTasks EmptyString EmptyString EmptyString all = all.
Proof.
  intros Hf.
  destruct (GET_tasks_sorted db u None None sort Hf) as (all & Hall & Hpa & Hsa).
  destruct (GET_tasks_sorted db u (Some fs) (Some fp) sort Hf)
    as (filtered & Hfil & Hpf & _).
  exists all, filtered. split_and!; try done.
  - unfold filteredTasks.
    rewrite (filter_Permutation _ _ _ Hpa), filter_filter_and, Hpf.
    erewrite filter_ext; [reflexivity|].
    intros t. rewrite shown_no_search. unfold wanted.
    cbn [truthy toString]. rewrite !andb_true_r. by rewrite andb_assoc.
  - by apply StronglySorted_filter.
  - unfold filteredTasks. clear. induction all as [|t l IH]; [done|].
    simpl. by rewrite IH.
Qed.

Lemma client_filter_agrees_with_server_witness :
  exists all filtered,
    GET_tasks Sample.db Sample.alice None None None =
      Res.mk 200 true None (Some (length all)) (Res.Tasks all) None None /\
    GET_tasks Sample.db Sample.alice (Some "pending") (Some EmptyString) None =
      Res.mk 200 true None (Some (length filtered)) (Res.Tasks filtered) None None /\
    filteredTasks "pending" EmptyString EmptyString all ≡ₚ filtered.
Proof.
  destruct (client_filter_agrees_with_server Sample.db Sample.alice
              "pending" EmptyString None eq_refl)
    as (all & filtered & Hall & Hfil & Hsame & _).
  exists all, filtered. split; [exact Hall|]. split; [exact Hfil|exact Hsame].
Defined.

Lemma prefix_toLowerCase q s :
  String.prefix q s = true ->
  String.prefix (toLowerCase q) (toLowerCase s) = true.
Proof.
  revert s. induction q as [|c q IH]; intros s.
  - intros _. by destruct s.
  - destruct s as [|d s]; [discriminate|].
    cbn [String.prefix toLowerCase].
    destruct (ascii_dec c d) as [->|Hne]; [|discriminate].
    intros Hp. destruct (ascii_dec (lower_char d) (lower_char d)); [|done].
    by apply IH.
Qed.

Lemma includes_toLowerCase s q :
  includes s q = true -> includes (toLowerCase s) (toLowerCase q) = true.
Proof.
  induction s as [|c s IH].
  - simpl. rewrite !orb_false_r. apply (prefix_toLowerCase q EmptyString).
  - cbn [includes toLowerCase]. rewrite !orb_true_iff.
    intros [Hp|Hi].
    + left. apply (prefix_toLowerCase q (String c s) Hp).
    + right. by apply IH.
Qed.

(** X20.  The search box of [TaskList] ignores letter case: two queries
    that differ only in the case of their letters show the same tasks,
    and a task whose title or description contains the query as typed is
    always among the tasks shown when nothing else is selected; a task
    without description is matched on its title alone. *)
Theorem local_search_ignores_case
    (fs fp q q' : string) (tasks : list Task.t) (t : Task.t) :
  (toLowerCase q = toLowerCase q' ->
   filteredTasks fs fp q tasks = filteredTasks fs fp q' tasks) /\
  (t ∈ tasks ->
   includes (Task.title t) q = true \/
   (exists d, Task.description t = Some d /\ includes d q = true) ->
   t ∈ filteredTasks EmptyString EmptyString q tasks) /\
  (Task.description t = None -> q <> EmptyString ->
   shown EmptyString EmptyString q t =
     includes (toLowerCase (Task.title t)) (toLowerCase q)).
Proof.
  split_and!.
  - intros Hq. unfold filteredTasks. apply filter_ext. intros x.
    unfold shown. rewrite Hq.
    assert (Hempty : truthy (Some q) = truthy (Some q')).
    { destruct q, q'; simpl in *; congruence. }
    by rewrite Hempty.
  - intros Hin Hfound. unfold filteredTasks.
    rewrite list_elem_of_In, filter_In, <- list_elem_of_In. split; [done|].
    unfold shown. cbn [truthy negb orb andb].
    destruct Hfound as [Ht|(d & Hd & Hi)].
    + rewrite (includes_toLowerCase _ _ Ht). by rewrite orb_true_r.
    + rewrite Hd, (includes_toLowerCase _ _ Hi). by rewrite !orb_true_r.
  - intros Hd Hq. unfold shown. rewrite Hd. cbn [truthy negb orb andb].
    destruct q; [done|]. cbn [truthy negb orb]. by rewrite orb_false_r.
Qed.

Lemma local_search_ignores_case_witness :
  filteredTasks EmptyString EmptyString "MILK" [Sample.report; Sample.milk] =
    filteredTasks EmptyString EmptyString "milk" [Sample.report; Sample.milk] /\
  Sample.milk ∈ filteredTasks EmptyString EmptyString "milk"
                   [Sample.report; Sample.milk].
Proof.
  destruct (local_search_ignores_case EmptyString EmptyString "MILK" "milk"
              [Sample.report; Sample.milk] Sample.milk) as (Hcase & _ & _).
  destruct (local_search_ignores_case EmptyString EmptyString "milk" "milk"
              [Sample.report; Sample.milk] Sample.milk) as (_ & Hfound & _).
  split.
  - apply Hcase. reflexivity.
  - apply Hfound.
    + rewrite !elem_of_cons. auto.
    + left. reflexivity.
Defined.

(** ** The dashboard's copy of the list *)

Lemma wanted_all uid t : wanted uid None None t = N.eqb uid (Task.user t).
Proof. unfold wanted. cbn [truthy]. by rewrite !andb_true_r. Qed.

Lemma filter_id {A} (f : A -> bool) l :
  (forall x, x ∈ l -> f x = true) -> List.filter f l = l.
Proof.
  induction l as [|x l IH]; [done|]. intros Hall. simpl.
  rewrite (Hall x) by apply list_elem_of_here.
  rewrite IH; [done|]. intros y Hy. apply Hall. by apply list_elem_of_further.
Qed.

Lemma map_id_on {A} (g : A -> A) l :
  (forall x, x ∈ l -> g x = x) -> List.map g l = l.
Proof.
  induction l as [|x l IH]; [done|]. intros Hall. simpl.
  rewrite (Hall x) by apply list_elem_of_here.
  rewrite IH; [done|]. intros y Hy. apply Hall. by apply list_elem_of_further.
Qed.

Lemma StronglySorted_map_key {A} (key : A -> Z) (g : A -> A) l :
  (forall x, x ∈ l -> key (g x) = key x) ->
  StronglySorted (fun a b => (key b <= key a)%Z) l ->
  StronglySorted (fun a b => (key b <= key a)%Z) (List.map g l).
Proof.
  intros Hkey. induction 1 as [|x l Hl IH Hx]; simpl; [constructor|].
  constructor.
  - apply IH. intros y Hy. apply Hkey. by apply list_elem_of_further.
  - rewrite Forall_forall in Hx. apply Forall_forall.
    intros y' Hy'. apply list_elem_of_In, in_map_iff in Hy' as (y & <- & Hy).
    apply list_elem_of_In in Hy.
    rewrite (Hkey x) by apply list_elem_of_here.
    rewrite (Hkey y) by by apply list_elem_of_further.
    by apply Hx.
Qed.

(** The documents left when the one under [id] is taken out all have
    another [_id]. *)
Lemma documents_delete_other db id x :
  consistent db ->
  x ∈ documents (with_tasks db (delete id (tasks db))) -> Task._id x <> id.
Proof.
  intros [Htasks _] (k & Hk)%elem_of_documents. cbn [with_tasks tasks] in Hk.
  apply lookup_delete_Some in Hk as [Hne Hk].
  destruct (Htasks k x Hk) as [-> _]. done.
Qed.

Lemma documents_replace db id d d' :
  tasks db !! id = Some d ->
  documents (with_tasks db (<[id := d']> (tasks db))) ≡ₚ
  d' :: documents (with_tasks db (delete id (tasks db))).
Proof.
  intros Hd. unfold documents. cbn [with_tasks tasks].
  rewrite <- (insert_delete_eq (tasks db) id d').
  rewrite map_to_list_insert by apply lookup_delete_eq. done.
Qed.

(** X21.  The dashboard's copy of the task list stays in step with the
    server.  If the copy is the listing the server sent (consistent
    store, no filters, newest first), then after a create, an update or
    a delete that succeeded (for a create and an update: the body passes
    the validators and its due date, if sent, can be cast) the list the
    handler installs ([response.data.task] put in front, put in place of
    the edited task, or the deleted task filtered out) holds exactly the
    tasks a new listing would hold; it is still ordered newest first
    after an update and after a delete, and after a create if no listed
    task was created after the time of the request. *)
Theorem dashboard_stays_in_step
    db (oid id : N) (now : Z) (u : User.t) (b : Body.t) (t : Task.t)
    (local : list Task.t) :
  consistent db -> fault db = None ->
  GET_tasks db u None None None =
    Res.mk 200 true None (Some (length local)) (Res.Tasks local) None None ->
  let newest := fun a b : Task.t => (Task.createdAt b <= Task.createdAt a)%Z in
  let relisted db' l :=
    GET_tasks db' u None None None =
      Res.mk 200 true None (Some (length l)) (Res.Tasks l) None None in
  (tasks db !! oid = None -> (run_chains create_chains b).2 = [] ->
   castable (Body.dueDate b) = true ->
   exists task l,
     resolves (POST_task db oid now u b).1 = true /\
     Res.payload (POST_task db oid now u b).1 = Res.OneTask task /\
     relisted (POST_task db oid now u b).2 l /\
     tasks_after_create local task ≡ₚ l /\
     ((forall x, x ∈ local -> (Task.createdAt x <= now)%Z) ->
      StronglySorted newest (tasks_after_create local task))) /\
  (tasks db !! id = Some t -> Task.user t = User._id u ->
   (run_chains update_chains b).2 = [] ->
   castable (Body.dueDate b) = true ->
   exists task l,
     resolves (PUT_task db now u id b).1 = true /\
     Res.payload (PUT_task db now u id b).1 = Res.OneTask task /\
     relisted (PUT_task db now u id b).2 l /\
     tasks_after_update local id task ≡ₚ l /\
     StronglySorted newest (tasks_after_update local id task)) /\
  (tasks db !! id = Some t -> Task.user t = User._id u ->
   exists l,
     resolves (DELETE_task db u id).1 = true /\
     relisted (DELETE_task db u id).2 l /\
     tasks_after_delete local id ≡ₚ l /\
     StronglySorted newest (tasks_after_delete local id)).
Proof.
  intros Hc Hf Hlocal newest relisted. subst newest relisted. cbn beta.
  destruct (GET_tasks_sorted db u None None None Hf) as (l0 & Hl0 & Hperm & Hsorted).
  rewrite Hlocal in Hl0. injection Hl0 as _ <-.
  rewrite (filter_ext _ _ (wanted_all (User._id u))) in Hperm.
  change (listing_order None)
    with (fun a b : Task.t => (Task.createdAt b <= Task.createdAt a)%Z) in Hsorted.
  assert (Hown : forall d, Task.user d = User._id u ->
                            N.eqb (User._id u) (Task.user d) = true).
  { intros d Hd. rewrite Hd. apply N.eqb_refl. }
  assert (Hstored : forall x, x ∈ local -> tasks db !! Task._id x = Some x).
  { intros x Hx. rewrite Hperm in Hx.
    apply list_elem_of_In, filter_In in Hx as [Hx _].
    apply list_elem_of_In, elem_of_documents in Hx as (k & Hk).
    destruct Hc as [Htasks _]. destruct (Htasks k x Hk) as [-> _]. done. }
  assert (Hrest : tasks db !! id = Some t -> Task.user t = User._id u ->
            local ≡ₚ t :: List.filter (fun t0 : Task.t => N.eqb (User._id u) (Task.user t0))
                            (documents (with_tasks db (delete id (tasks db)))) /\
            forall x, x ∈ List.filter (fun t0 : Task.t => N.eqb (User._id u) (Task.user t0))
                            (documents (with_tasks db (delete id (tasks db)))) ->
                      Task._id x <> id).
  { intros Ht Hu. split.
    - rewrite Hperm, (filter_Permutation _ _ _ (documents_delete db id t Ht)).
      cbn [List.filter]. by rewrite Hown.
    - intros x Hx. apply list_elem_of_In, filter_In in Hx as [Hx _].
      apply list_elem_of_In in Hx. by apply documents_delete_other in Hx. }
  split_and!.
  - intros Hfresh Hvalid Hdue.
    rewrite POST_task_stores by done. cbn [fst snd Res.payload].
    set (task := created oid now (User._id u) b).
    destruct (GET_tasks_sorted (with_tasks db (<[oid := task]> (tasks db)))
                u None None None Hf) as (l & Hl & Hpl & _).
    exists task, l. split; [done|]. split; [done|]. split; [done|]. split.
    + rewrite Hpl, (filter_ext _ _ (wanted_all (User._id u))).
      rewrite (filter_Permutation _ _ _ (documents_insert db oid task Hfresh)).
      cbn [List.filter]. rewrite (Hown task) by done.
      unfold tasks_after_create. by rewrite Hperm.
    + intros Hclock. unfold tasks_after_create. constructor; [done|].
      apply Forall_forall. intros x Hx. cbn [task created Task.createdAt].
      by apply Hclock.
  - intros Ht Hu Hvalid Hdue.
    rewrite (PUT_task_saves db now u id b t) by done. cbn [fst snd Res.payload].
    set (task := updated t b now).
    destruct (GET_tasks_sorted (with_tasks db (<[id := task]> (tasks db)))
                u None None None Hf) as (l & Hl & Hpl & _).
    destruct (Hrest Ht Hu) as [Hsplit Hothers].
    exists task, l. split; [done|]. split; [done|]. split; [done|]. split.
    + rewrite Hpl, (filter_ext _ _ (wanted_all (User._id u))).
      rewrite (filter_Permutation _ _ _ (documents_replace db id t task Ht)).
      cbn [List.filter]. rewrite (Hown task) by done.
      unfold tasks_after_update.
      rewrite (Permutation_map _ Hsplit). cbn [List.map].
      destruct Hc as [Htasks _]. destruct (Htasks id t Ht) as [-> _].
      rewrite N.eqb_refl. apply Permutation_cons; [done|].
      rewrite map_id_on; [done|].
      intros x Hx. apply Hothers in Hx.
      by destruct (N.eqb_spec (Task._id x) id).
    + unfold tasks_after_update.
      apply (StronglySorted_map_key Task.createdAt); [|done].
      intros x Hx. destruct (N.eqb_spec (Task._id x) id) as [Heq|]; [|done].
      apply Hstored in Hx. rewrite Heq, Ht in Hx. by injection Hx as <-.
  - intros Ht Hu.
    unfold DELETE_task, findOneAndDelete.
    rewrite (findOne_owner db id _ t) by done. cbn [bind fst snd].
    destruct (GET_tasks_sorted (with_tasks db (delete id (tasks db)))
                u None None None Hf) as (l & Hl & Hpl & _).
    destruct (Hrest Ht Hu) as [Hsplit Hothers].
    exists l. split; [done|]. split; [done|]. split.
    + rewrite Hpl, (filter_ext _ _ (wanted_all (User._id u))).
      unfold tasks_after_delete.
      rewrite (filter_Permutation _ _ _ Hsplit). cbn [List.filter].
      destruct Hc as [Htasks _]. destruct (Htasks id t Ht) as [Hid _].
      rewrite Hid, N.eqb_refl. cbn [negb].
      rewrite filter_id; [done|].
      intros x Hx. apply Hothers in Hx.
      by destruct (N.eqb_spec (Task._id x) id).
    + unfold tasks_after_delete. by apply StronglySorted_filter.
Qed.

Lemma dashboard_stays_in_step_witness :
  let local := [Sample.report; Sample.milk] in
  (exists l,
     GET_tasks (DELETE_task Sample.db Sample.alice 10).2 Sample.alice None None None =
       Res.mk 200 true None (Some (length l)) (Res.Tasks l) None None /\
     tasks_after_delete local 10 ≡ₚ l) /\
  (exists task l,
     Res.payload
       (POST_task Sample.db 20 Sample.now Sample.alice
          (Body.mk (Some "Buy bread") None None None None None)).1 =
       Res.OneTask task /\
     tasks_after_create local task ≡ₚ l /\
     StronglySorted (fun a b => (Task.createdAt b <= Task.createdAt a)%Z)
                    (tasks_after_create local task)).
Proof.
  intros local.
  assert (Hc : consistent Sample.db) by sample_consistent.
  destruct (dashboard_stays_in_step Sample.db 20 10 Sample.now Sample.alice
              (Body.mk (Some "Buy bread") None None None None None)
              Sample.milk local Hc eq_refl eq_refl)
    as (Hcreate & _ & Hdelete).
  split.
  - destruct (Hdelete eq_refl eq_refl) as (l & _ & Hl & Hsame & _).
    exists l. split; [exact Hl|exact Hsame].
  - destruct (Hcreate eq_refl eq_refl eq_refl)
      as (task & l & _ & Htask & _ & Hsame & Hsorted).
    exists task, l. split; [exact Htask|]. split; [exact Hsame|].
    apply Hsorted. intros x Hx. subst local.
    rewrite !elem_of_cons, elem_of_nil in Hx.
    destruct Hx as [->|[->|[]]]; vm_compute; discriminate.
Defined.

Lemma counters_partition (l : list Task.t) :
  (forall x, x ∈ l -> isIn statuses (Task.status x) = true) ->
  count_status l "pending" + count_status l "in-progress" +
  count_status l "completed" = length l.
Proof.
  unfold count_status. induction l as [|x l IH]; [done|]. intros Hall.
  specialize (IH (fun y Hy => Hall y (list_elem_of_further _ _ _ Hy))).
  pose proof (Hall x (list_elem_of_here _ _)) as Hx.
  unfold isIn, statuses in Hx. cbn [existsb] in Hx.
  rewrite !orb_true_iff, !String.eqb_eq in Hx.
  cbn [List.filter length].
  set (p := List.filter (fun t => String.eqb (Task.status t) "pending") l) in *.
  set (i := List.filter (fun t => String.eqb (Task.status t) "in-progress") l) in *.
  set (c := List.filter (fun t => String.eqb (Task.status t) "completed") l) in *.
  destruct Hx as [Hx|[Hx|[Hx|Hx]]]; try discriminate;
    rewrite Hx; cbn [String.eqb Ascii.eqb Bool.eqb andb length]; lia.
Qed.

(** X22.  The statistics row of the dashboard adds up: for a listing
    that came from a consistent store, the counters Pending, In Progress
    and Completed sum to Total Tasks, because the schema admits no other
    status. *)
Theorem status_counters_add_up
    db (u : User.t) (status priority sort : option string) (l : list Task.t) :
  consistent db ->
  GET_tasks db u status priority sort =
    Res.mk 200 true None (Some (length l)) (Res.Tasks l) None None ->
  count_status l "pending" + count_status l "in-progress" +
  count_status l "completed" = length l.
Proof.
  intros [Htasks _] Hget. apply counters_partition.
  destruct (fault db) as [e|] eqn:Hf.
  { unfold GET_tasks, find_sorted, roundtrip in Hget. by rewrite Hf in Hget. }
  destruct (GET_tasks_sorted db u status priority sort Hf) as (l' & Hl' & Hperm & _).
  rewrite Hget in Hl'. injection Hl' as _ <-.
  intros x Hx. rewrite Hperm in Hx.
  apply list_elem_of_In, filter_In in Hx as [Hx _].
  apply list_elem_of_In, elem_of_documents in Hx as (k & Hk).
  destruct (Htasks k x Hk) as [_ Hschema].
  apply schema_errors_nil in Hschema. unfold schema_ok in Hschema.
  apply andb_true_iff in Hschema as [Hschema _].
  by apply andb_true_iff in Hschema as [_ Hstatus].
Qed.

Lemma status_counters_add_up_witness :
  count_status [Sample.report; Sample.milk] "pending" +
  count_status [Sample.report; Sample.milk] "in-progress" +
  count_status [Sample.report; Sample.milk] "completed" = 2.
Proof.
  assert (Hc : consistent Sample.db) by sample_consistent.
  apply (status_counters_add_up Sample.db Sample.alice None None None
           [Sample.report; Sample.milk] Hc).
  reflexivity.
Defined.
